(** * ESPRating inventory pipeline: a shallow embedding and its properties

    The development follows the three source modules
    [data_validator.py], [inventory_processor.py] and [upload_handler.py].
    pandas objects are modelled by the data they hold: a [Series] is a list
    of cells tagged with its dtype, a [DataFrame] is a row index together
    with an ordered list of labelled series.  Python exceptions are values
    of [exn]; code that may raise returns [result].

    The general properties take the numbers of pandas through the
    [Numeric] interface (parsing, ordering, integrality); the instance
    [Float64] gives them as binary64 numbers, with the rounding and the
    order of IEEE 754, and is the one the sample frames and the properties
    of the price rule use. *)

From Stdlib Require Import ZArith String Ascii List QArith Qpower Lqa.
From stdpp Require Import base numbers option list gmap sets strings pretty sorting.

Close Scope Q_scope.
Local Open Scope string_scope.
Local Open Scope list_scope.

Set Warnings "-clear-no-such-hyp".

(** ** Python: exceptions, results, strings and character classes *)

Module Py.

(** An exception: its class and the text [str(e)] gives. *)
Inductive exn : Type :=
| ValueError (msg : string)
| TypeError (msg : string)
| AttributeError (msg : string)
| KeyError (msg : string)
| OverflowError (msg : string).

Definition str_exn (e : exn) : string :=
  match e with
  | ValueError msg => msg
  | TypeError msg => msg
  | AttributeError msg => msg
  | KeyError msg => msg
  | OverflowError msg => msg
  end.

Definition result (A : Type) : Type := (exn + A)%type.

Definition raise {A : Type} (e : exn) : result A := inl e.

Definition bind {A B : Type} (m : result A) (k : A -> result B) : result B :=
  match m with
  | inl e => inl e
  | inr a => k a
  end.

(** [mapM f l]: apply a fallible step to every element, left to right; the
    first exception aborts the traversal. *)
Fixpoint mapM {A B : Type} (f : A -> result B) (l : list A) : result (list B) :=
  match l with
  | [] => inr []
  | a :: l' =>
      match f a with
      | inl e => inl e
      | inr b =>
          match mapM f l' with
          | inl e => inl e
          | inr bs => inr (b :: bs)
          end
      end
  end.

(** [foldM f l s]: a [for] loop whose body may raise. *)
Fixpoint foldM {A S : Type} (f : S -> A -> result S) (l : list A) (s : S) : result S :=
  match l with
  | [] => inr s
  | a :: l' =>
      match f s a with
      | inl e => inl e
      | inr s' => foldM f l' s'
      end
  end.

(** Characters are the code points below 256; a [string] is a sequence of
    them. *)
Definition code (c : ascii) : nat := nat_of_ascii c.

Definition newline : ascii := ascii_of_nat 10.
Definition space : ascii := ascii_of_nat 32.

Definition between (lo hi n : nat) : bool := (lo <=? n)%nat && (n <=? hi)%nat.

(** [[0-9]], which is also [\d] on this range of code points. *)
Definition is_digit (c : ascii) : bool := between 48 57 (code c).

(** [[a-zA-Z]] *)
Definition is_ascii_letter (c : ascii) : bool :=
  between 97 122 (code c) || between 65 90 (code c).

(** [\s] of the [re] module on [str] patterns: the ASCII white space
    (9-13, 28-32) and, above 127, NEL and the no-break space. *)
Definition is_space (c : ascii) : bool :=
  between 9 13 (code c) || between 28 32 (code c)
  || (code c =? 133)%nat || (code c =? 160)%nat.

(** [\w] of the [re] module on [str] patterns: alphanumeric characters and
    the underscore. *)
Definition is_word (c : ascii) : bool :=
  is_digit c || is_ascii_letter c || (code c =? 95)%nat
  || (code c =? 170)%nat || (code c =? 178)%nat || (code c =? 179)%nat
  || (code c =? 181)%nat || (code c =? 185)%nat || (code c =? 186)%nat
  || between 188 190 (code c)
  || between 192 214 (code c) || between 216 246 (code c)
  || between 248 255 (code c).

Fixpoint chars (s : string) : list ascii :=
  match s with
  | EmptyString => []
  | String c s' => c :: chars s'
  end.

(** [s.replace(old, new)] for one-character [old] and [new]. *)
Fixpoint replace_char (old new : ascii) (s : string) : string :=
  match s with
  | EmptyString => EmptyString
  | String c s' =>
      String (if Ascii.eqb c old then new else c) (replace_char old new s')
  end.

(** [old in s] for a one-character [old]. *)
Fixpoint contains_char (old : ascii) (s : string) : bool :=
  match s with
  | EmptyString => false
  | String c s' => Ascii.eqb c old || contains_char old s'
  end.

(** Lower case of one character: the capital letters are A-Z and, above
    127, the codes 192-214 and 216-222. *)
Definition to_lower (c : ascii) : ascii :=
  if between 65 90 (code c) || between 192 214 (code c) || between 216 222 (code c)
  then ascii_of_nat (code c + 32)
  else c.

(** [s.lower()] *)
Fixpoint lower (s : string) : string :=
  match s with
  | EmptyString => EmptyString
  | String c s' => String (to_lower c) (lower s')
  end.

(** [re.match(r'^-?\d+$', s)]: an optional minus sign, at least one digit,
    then the end of the string; [$] also matches just before a final
    newline. *)
Fixpoint digits_then_end (seen : bool) (l : list ascii) : bool :=
  match l with
  | [] => seen
  | c :: l' =>
      if is_digit c then digits_then_end true l'
      else seen && Ascii.eqb c newline && match l' with [] => true | _ => false end
  end.

Definition match_int_regex (s : string) : bool :=
  match chars s with
  | c :: l' =>
      if Ascii.eqb c (ascii_of_nat 45) then digits_then_end false l'
      else digits_then_end false (c :: l')
  | [] => false
  end.

(** [re.search(r'[^a-zA-Z0-9\s,]', s)] *)
Definition is_special_char (c : ascii) : bool :=
  negb (is_ascii_letter c || is_digit c || is_space c || (code c =? 44)%nat).

Definition search_special_char (s : string) : bool :=
  existsb is_special_char (chars s).

(** [re.sub(r'[^\w\s,.-]', ' ', s)] *)
Definition is_problematic_char (c : ascii) : bool :=
  negb (is_word c || is_space c
        || (code c =? 44)%nat || (code c =? 46)%nat || (code c =? 45)%nat).

Fixpoint sub_problematic (s : string) : string :=
  match s with
  | EmptyString => EmptyString
  | String c s' =>
      String (if is_problematic_char c then space else c) (sub_problematic s')
  end.

(** The range of int64 and of uint64. *)
Definition in_int64 (z : Z) : bool := (- 2 ^ 63 <=? z)%Z && (z <? 2 ^ 63)%Z.

Definition in_uint64 (z : Z) : bool := (0 <=? z)%Z && (z <? 2 ^ 64)%Z.

(** Truth value of an [Optional[str]]: [None] and the empty string are
    false. *)
Definition truthy (o : option string) : bool :=
  match o with
  | Some (String _ _) => true
  | _ => false
  end.

End Py.

(** ** The numbers of pandas

    [pd.to_numeric] turns text into numbers; what it accepts and how the
    results compare is pandas' business.  The pipeline only relies on the
    operations below. *)

Inductive parsed (num : Type) : Type :=
| Unparsable              (* no number: [ValueError] under [errors='raise'] *)
| PNaN                    (* the empty text: not-a-number, without an error *)
| PInt (z : Z)            (* an integer of the range of int64 or uint64 *)
| PBig (x : num)          (* an integer beyond 64 bits: [ValueError] under
                             [errors='raise'], a float under [errors='coerce'] *)
| PFloat (x : num).       (* any other number *)

Arguments Unparsable {num}.
Arguments PNaN {num}.
Arguments PInt {num} z.
Arguments PBig {num} x.
Arguments PFloat {num} x.

Class Numeric : Type := {
  num : Type;                            (* a float that is not NaN *)
  str_to_num : string -> parsed num;     (* parsing one text cell *)
  Z_to_num : Z -> num;                   (* int64 -> float64 *)
  num_to_int : num -> option Z;          (* the integer a float equals, if any *)
  num_finite : num -> bool;              (* neither [inf] nor [-inf] *)
  num_lt : num -> num -> bool;           (* [<] *)
  num_le : num -> num -> bool;           (* [<=] *)
  num_repr : num -> string;              (* [str] of a float *)
  num_median : num -> list num -> num;   (* median of a non-empty list *)
  num_lt_not_ge : forall a b, num_lt a b = negb (num_le b a)
}.

(** ** pandas: series, frames and the operations the pipeline calls *)

Module Pandas.
Import Py.

Section WithNumeric.
Context `{N : Numeric}.

(** A cell of an [object] column: the values a spreadsheet reader leaves
    there ([None]/NaN, a Python [int], a [float] that is not NaN, a
    [str]). *)
Inductive value : Type :=
| VNull
| VInt (z : Z)
| VFloat (x : num)
| VStr (s : string).

(** Series of a numeric dtype ([is_numeric_dtype] holds): [int64],
    [float64] with [None] for NaN, [bool], and the nullable extension dtype
    ['Int64'] with [None] for [pd.NA]. *)
Inductive NumSeries : Type :=
| NInt64 (l : list Z)
| NFloat64 (l : list (option num))
| NBool (l : list bool)
| NNullableInt64 (l : list (option Z)).

Inductive Series : Type :=
| Num (s : NumSeries)
| Object (l : list value).

(** A frame: the row labels ([df.index]) and the labelled columns in
    order.  Column labels are strings; both readers return distinct labels
    and a [RangeIndex]. *)
Record DataFrame : Type := mkDataFrame {
  index : list nat;
  data : list (string * Series)
}.

Definition RangeIndex (n : nat) : list nat := seq 0 n.

(** [df.columns] *)
Definition columns (df : DataFrame) : list string := map fst (data df).

(** [len(df)] *)
Definition len (df : DataFrame) : nat := length (index df).

(** [df.empty]: some axis has length zero. *)
Definition df_empty (df : DataFrame) : bool :=
  (length (index df) =? 0)%nat || (length (data df) =? 0)%nat.


(** The first column under a label. *)
Fixpoint lookup_column (name : string) (l : list (string * Series)) : option Series :=
  match l with
  | [] => None
  | (k, s) :: l' => if String.eqb name k then Some s else lookup_column name l'
  end.

(** [df[name]] for a label that occurs once.  Where a label occurs more
    than once, pandas returns the frame of the columns that carry it; here
    it is the first of them. *)
Definition getitem (name : string) (df : DataFrame) : option Series :=
  lookup_column name (data df).

(** [df[name] = s]: an existing column is replaced in place, a new one is
    appended. *)
Fixpoint assign_column (name : string) (s : Series) (l : list (string * Series))
  : list (string * Series) :=
  match l with
  | [] => [(name, s)]
  | (k, s0) :: l' =>
      if String.eqb name k then (k, s) :: l'
      else (k, s0) :: assign_column name s l'
  end.

Definition setitem (name : string) (s : Series) (df : DataFrame) : DataFrame :=
  mkDataFrame (index df) (assign_column name s (data df)).

Definition is_None {A : Type} (o : option A) : bool :=
  match o with None => true | Some _ => false end.

Definition value_isnull (v : value) : bool :=
  match v with VNull => true | _ => false end.

(** [s.isnull()] *)
Definition isnull (s : Series) : list bool :=
  match s with
  | Num (NInt64 l) => map (fun _ => false) l
  | Num (NFloat64 l) => map is_None l
  | Num (NBool l) => map (fun _ => false) l
  | Num (NNullableInt64 l) => map is_None l
  | Object l => map value_isnull l
  end.

Definition bool_str (b : bool) : string := if b then "True" else "False".

Definition value_str (v : value) : string :=
  match v with
  | VNull => "nan"
  | VInt z => pretty z
  | VFloat x => num_repr x
  | VStr s => s
  end.

(** [s.astype(str)], as the list of its strings. *)
Definition astype_str (s : Series) : list string :=
  match s with
  | Num (NInt64 l) => map pretty l
  | Num (NFloat64 l) => map (fun o => match o with Some x => num_repr x | None => "nan" end) l
  | Num (NBool l) => map bool_str l
  | Num (NNullableInt64 l) => map (fun o => match o with Some z => pretty z | None => "<NA>" end) l
  | Object l => map value_str l
  end.

(** A number held by a numeric series: an integer or a float. *)
Inductive number : Type :=
| I (z : Z)
| F (x : num).

Definition to_float (n : number) : num :=
  match n with
  | I z => Z_to_num z
  | F x => x
  end.

(** [a < b] on two cells; integers compare exactly, a mixed pair compares
    as floats, a missing operand gives [False]. *)
Definition lt_cell (a b : option number) : bool :=
  match a, b with
  | Some (I x), Some (I y) => (x <? y)%Z
  | Some p, Some q => num_lt (to_float p) (to_float q)
  | _, _ => false
  end.

(** [a >= b] on two cells. *)
Definition ge_cell (a b : option number) : bool :=
  match a, b with
  | Some (I x), Some (I y) => (y <=? x)%Z
  | Some p, Some q => num_le (to_float q) (to_float p)
  | _, _ => false
  end.

Definition cells (s : NumSeries) : list (option number) :=
  match s with
  | NInt64 l => map (fun z => Some (I z)) l
  | NFloat64 l => map (fun o => F <$> o) l
  | NBool l => map (fun b => Some (I (Z.b2z b))) l
  | NNullableInt64 l => map (fun o => I <$> o) l
  end.

(** One cell of an [object] column under [pd.to_numeric(.., errors='coerce')]. *)
Definition coerce_value (v : value) : option number :=
  match v with
  | VNull => None
  | VInt z => Some (I z)
  | VFloat x => Some (F x)
  | VStr s =>
      match str_to_num s with
      | Unparsable => None
      | PNaN => None
      | PInt z => Some (I z)
      | PBig x => Some (F x)
      | PFloat x => Some (F x)
      end
  end.

Definition is_int_cell (o : option number) : bool :=
  match o with Some (I _) => true | _ => false end.

Definition int_of_cell (o : option number) : Z :=
  match o with Some (I z) => z | _ => 0%Z end.

(** The dtype pandas picks for converted cells: [int64] when every cell is
    an integer, [float64] otherwise. *)
Definition pack (l : list (option number)) : NumSeries :=
  if forallb is_int_cell l then NInt64 (map int_of_cell l)
  else NFloat64 (map (fun o => to_float <$> o) l).

(** [pd.to_numeric(s, errors='coerce')]: a numeric series is returned as it
    is, an [object] series is converted cell by cell. *)
Definition to_numeric_coerce (s : Series) : NumSeries :=
  match s with
  | Num n => n
  | Object l => pack (map coerce_value l)
  end.

(** A cell that makes [pd.to_numeric(.., errors='raise')] raise: text that
    is no number, or that spells an integer beyond 64 bits. *)
Definition value_raises (v : value) : bool :=
  match v with
  | VStr s =>
      match str_to_num s with
      | Unparsable => true
      | PBig _ => true
      | _ => false
      end
  | _ => false
  end.

(** Whether [pd.to_numeric(s, errors='raise')] raises [ValueError]. *)
Definition to_numeric_raises (s : Series) : bool :=
  match s with
  | Num _ => false
  | Object l => existsb value_raises l
  end.

(** A float that is a whole number of the range of int64. *)
Definition castable (x : num) : bool :=
  num_finite x
  && match num_to_int x with
     | Some z => in_int64 z
     | None => false
     end.

Definition float_to_Int64 (o : option num) : option Z :=
  match o with
  | None => None
  | Some x => num_to_int x
  end.

(** [values[np.nanargmax(values)]]: the largest of the present values. *)
Definition largest (x : num) (xs : list num) : num :=
  foldl (fun a b => if num_lt a b then b else a) x xs.

(** A float that [int()] and the cast to a C integer accept: finite, and
    within int64 once its fraction is cut off (a float that is not whole is
    below [2^53] in magnitude). *)
Definition truncates (x : num) : bool :=
  num_finite x && match num_to_int x with Some z => in_int64 z | None => true end.

Definition cast_message (dtype : string) : string :=
  "cannot safely cast non-equivalent " +:+ dtype +:+ " to int64".

Definition truncation_error (x : num) : exn :=
  if num_finite x then OverflowError "Python int too large to convert to C long"
  else OverflowError "cannot convert float infinity to integer".

(** [s.astype('Int64')] on a float64 series with the present values
    [x :: xs].  pandas looks at the largest value first: when it is not the
    integer [int()] makes of it, the values are cast as Python objects, else
    as floats; either cast is then compared with the values. *)
Definition cast_floats (l : list (option num)) (x : num) (xs : list num) : result NumSeries :=
  let top := largest x xs in
  if negb (num_finite top) then raise (truncation_error top)
  else
    match num_to_int top with
    | None =>
        match List.find (fun y => negb (truncates y)) (x :: xs) with
        | Some y => raise (truncation_error y)
        | None => raise (TypeError (cast_message "object"))
        end
    | Some _ =>
        if forallb castable (x :: xs)
        then inr (NNullableInt64 (map float_to_Int64 l))
        else raise (TypeError (cast_message "float64"))
    end.

(** [s.astype('Int64')] on a numeric series.  A float that is not a whole
    number of the range of int64 cannot be cast; an integer series that
    holds a value beyond int64 is a uint64 series, which cannot be cast
    either. *)
Definition astype_Int64 (s : NumSeries) : result NumSeries :=
  match s with
  | NInt64 l =>
      if forallb in_int64 l then inr (NNullableInt64 (map Some l))
      else raise (TypeError (cast_message "uint64"))
  | NFloat64 l =>
      match omap id l with
      | [] => inr (NNullableInt64 (map float_to_Int64 l))
      | x :: xs => cast_floats l x xs
      end
  | NBool l => inr (NNullableInt64 (map (fun b => Some (Z.b2z b)) l))
  | NNullableInt64 l => inr (NNullableInt64 l)
  end.

(** [df[mask]] on one axis: keep the positions where the mask is true. *)
Fixpoint select {A : Type} (mask : list bool) (l : list A) : list A :=
  match mask, l with
  | b :: mask', x :: l' => if b then x :: select mask' l' else select mask' l'
  | _, _ => []
  end.

Definition select_series (mask : list bool) (s : Series) : Series :=
  match s with
  | Num (NInt64 l) => Num (NInt64 (select mask l))
  | Num (NFloat64 l) => Num (NFloat64 (select mask l))
  | Num (NBool l) => Num (NBool (select mask l))
  | Num (NNullableInt64 l) => Num (NNullableInt64 (select mask l))
  | Object l => Object (select mask l)
  end.

(** [df[mask]] for a boolean mask. *)
Definition filter_rows (mask : list bool) (df : DataFrame) : DataFrame :=
  mkDataFrame (select mask (index df))
              (map (fun p => (fst p, select_series mask (snd p))) (data df)).

(** [df[mask].index.tolist()] *)
Definition rows_where (mask : list bool) (df : DataFrame) : list nat :=
  index (filter_rows mask df).

(** [mask.any()] *)
Definition any (mask : list bool) : bool := existsb id mask.

(** [mask.sum()] *)
Definition count_true (mask : list bool) : nat := length (List.filter id mask).

Definition and_mask (a b : list bool) : list bool := zip_with andb a b.
Definition not_mask (a : list bool) : list bool := map negb a.

Definition is_VStr (v : value) : bool :=
  match v with VStr _ => true | _ => false end.

(** [s.str]: the accessor exists for an [object] series that holds text (or
    nothing but missing values); the cells that are not text read as
    missing. *)
Definition str_accessor (s : Series) : result (list (option string)) :=
  match s with
  | Object l =>
      if existsb is_VStr l || forallb value_isnull l
      then inr (map (fun v => match v with VStr t => Some t | _ => None end) l)
      else raise (AttributeError "Can only use .str accessor with string values!")
  | Num _ => raise (AttributeError "Can only use .str accessor with string values!")
  end.

(** The [TypeError] of a nullable-integer array that is given a value it
    cannot hold. *)
Definition invalid_value (text : string) : exn :=
  TypeError ("Invalid value '" +:+ text +:+ "' for dtype Int64").

(** [s.fillna(text)] *)
Definition fillna_str (text : string) (s : Series) : result Series :=
  match s with
  | Num (NFloat64 l) =>
      if existsb is_None l
      then inr (Object (map (fun o => match o with Some x => VFloat x | None => VStr text end) l))
      else inr s
  | Num (NNullableInt64 l) =>
      if existsb is_None l
      then raise (invalid_value text)
      else inr s
  | Num _ => inr s
  | Object l =>
      inr (Object (map (fun v => match v with VNull => VStr text | _ => v end) l))
  end.

(** [s.fillna(s.median())] on a numeric series.  The median skips missing
    values and is itself missing when nothing is present, in which case
    nothing is filled. *)
Definition fillna_median (s : NumSeries) : result NumSeries :=
  match s with
  | NFloat64 l =>
      match omap id l with
      | [] => inr s
      | x :: xs => inr (NFloat64 (map (fun o => Some (default (num_median x xs) o)) l))
      end
  | NNullableInt64 l =>
      if existsb is_None l then
        match omap id l with
        | [] => inr s
        | z :: zs =>
            let median := num_median (Z_to_num z) (map Z_to_num zs) in
            match num_to_int median with
            | Some m => inr (NNullableInt64 (map (fun o => Some (default m o)) l))
            | None => raise (invalid_value (num_repr median))
            end
        end
      else inr s
  | _ => inr s
  end.

(** [~s] used as a row mask, [df[~s]]. *)
Definition inverted_mask (s : Series) : result (list bool) :=
  match s with
  | Num (NBool l) => inr (not_mask l)
  | Num (NFloat64 _) => raise (TypeError "ufunc 'invert' not supported for the input types")
  | Num _ => raise (KeyError "None of the keys are in the [columns]")
  | Object [] => inr []
  | Object l =>
      if forallb (fun v => match v with VInt _ => true | _ => false end) l
      then raise (KeyError "None of the keys are in the [columns]")
      else raise (TypeError "bad operand type for unary ~")
  end.

(** [col.loc[row] = f(col.loc[row])]: rewrite the cells of the rows
    labelled [row]. *)
Definition at_label {A : Type} (idx : list nat) (row : nat) (f : A -> A) (l : list A) : list A :=
  imap (fun k v => if decide (idx !! k = Some row) then f v else v) l.

End WithNumeric.
End Pandas.

(** ** data_validator.py *)

Module DataValidator.
Import Py Pandas.

Section WithNumeric.
Context `{N : Numeric}.

Definition nl : string := String newline EmptyString.

(** [self.required_fields] *)
Definition required_fields : list string :=
  ["Year"; "Stock #"; "VIN"; "Make"; "Model"; "Price"; "Unit Cost"].

(** [self.expected_types], in insertion order.  The two J.D. Power keys
    hold a newline between the words, as in the source. *)
Definition expected_types : list (string * string) :=
  [("Year", "int");
   ("Odometer", "int");
   ("Price", "numeric");
   ("Unit Cost", "numeric");
   ("J.D. Power" +:+ nl +:+ "Trade In", "numeric");
   ("J.D. Power" +:+ nl +:+ "Retail Clean", "numeric")].

(** The entries of the issue report.  Three categories hold one entry per
    column, two hold flat lists. *)
Record missing_entry : Type := mkMissing {
  me_field : string;
  me_count : nat;
  me_rows : list nat
}.

Record type_entry : Type := mkTypeIssue {
  te_field : string;
  te_expected_type : string;
  te_rows : list nat
}.

Record special_entry : Type := mkSpecial {
  se_field : string;
  se_rows : list nat
}.

(** The [issues] dictionary: its five keys are fixed when it is created. *)
Record Issues : Type := mkIssues {
  missing_values : list missing_entry;
  data_type_issues : list type_entry;
  price_below_cost : list nat;
  column_name_issues : list string;
  special_character_issues : list special_entry
}.

(** A value of the dictionary, whatever its key. *)
Inductive issue_list : Type :=
| MissingValues (l : list missing_entry)
| DataTypeIssues (l : list type_entry)
| PriceBelowCost (l : list nat)
| ColumnNameIssues (l : list string)
| SpecialCharacterIssues (l : list special_entry).

(** [issues.items()], in insertion order. *)
Definition items (iss : Issues) : list (string * issue_list) :=
  [("missing_values", MissingValues (missing_values iss));
   ("data_type_issues", DataTypeIssues (data_type_issues iss));
   ("price_below_cost", PriceBelowCost (price_below_cost iss));
   ("column_name_issues", ColumnNameIssues (column_name_issues iss));
   ("special_character_issues", SpecialCharacterIssues (special_character_issues iss))].

(** [issues.values()] *)
Definition values (iss : Issues) : list issue_list := map snd (items iss).

(** [len(issue_list)] *)
Definition issue_len (l : issue_list) : nat :=
  match l with
  | MissingValues l => length l
  | DataTypeIssues l => length l
  | PriceBelowCost l => length l
  | ColumnNameIssues l => length l
  | SpecialCharacterIssues l => length l
  end.

(** Missing values of one required field: nothing for an absent column,
    one entry when some value is missing. *)
Definition check_missing (df : DataFrame) (field : string) : list missing_entry :=
  match getitem field df with
  | None => []
  | Some s =>
      let missing_count := count_true (isnull s) in
      if (0 <? missing_count)%nat
      then [mkMissing field missing_count (rows_where (isnull s) df)]
      else []
  end.

(** Type conformance of one schema column. *)
Definition check_type (df : DataFrame) (entry : string * string) : list type_entry :=
  let '(col, expected_type) := entry in
  match getitem col df with
  | None => []
  | Some s =>
      if String.eqb expected_type "int" then
        let non_int_mask :=
          and_mask (not_mask (isnull s))
                   (map (fun t => negb (match_int_regex t)) (astype_str s)) in
        if any non_int_mask
        then [mkTypeIssue col expected_type (rows_where non_int_mask df)]
        else []
      else if String.eqb expected_type "numeric" then
        if to_numeric_raises s then
          let non_numeric_mask :=
            and_mask (not_mask (isnull s)) (isnull (Num (to_numeric_coerce s))) in
          [mkTypeIssue col expected_type (rows_where non_numeric_mask df)]
        else []
      else []
  end.

(** The mask of the rows whose price is below their cost. *)
Definition price_below_cost_mask (price cost : NumSeries) : list bool :=
  and_mask (and_mask (zip_with lt_cell (cells price) (cells cost))
                     (not_mask (isnull (Num price))))
           (not_mask (isnull (Num cost))).

Definition check_price (df : DataFrame) : list nat :=
  match getitem "Price" df, getitem "Unit Cost" df with
  | Some p, Some c =>
      let price := to_numeric_coerce p in
      let cost := to_numeric_coerce c in
      let mask := price_below_cost_mask price cost in
      if any mask then rows_where mask df else []
  | _, _ => []
  end.

Definition check_column_names (df : DataFrame) : list string :=
  List.filter (contains_char newline) (columns df).

Definition special_mask (texts : list (option string)) : list bool :=
  map (fun o => match o with Some t => search_special_char t | None => false end) texts.

Definition check_class (df : DataFrame) : result (list special_entry) :=
  match getitem "Class" df with
  | None => inr []
  | Some s =>
      bind (str_accessor s) (fun texts =>
        let rows_with_special_chars := rows_where (special_mask texts) df in
        match rows_with_special_chars with
        | [] => inr []
        | _ :: _ => inr [mkSpecial "Class" rows_with_special_chars]
        end)
  end.

(** [all(len(issue_list) == 0 for issue_list in issues.values())] *)
Definition all_empty (iss : Issues) : bool :=
  forallb (fun l => (issue_len l =? 0)%nat) (values iss).

(** [DataValidator.validate_data] *)
Definition validate_data (df : DataFrame) : result (bool * Issues) :=
  let missing := flat_map (check_missing df) required_fields in
  let types := flat_map (check_type df) expected_types in
  let below := check_price df in
  let names := check_column_names df in
  bind (check_class df) (fun special =>
    let issues := mkIssues missing types below names special in
    let validation_passed := all_empty issues in
    inr (validation_passed, issues)).

(** [DataValidator.clean_column_names]: every label goes through
    [col.replace('\n', ' ')]; the values and the index are those of the
    copy. *)
Definition clean_name (col : string) : string := replace_char newline space col.

Definition clean_column_names (df : DataFrame) : DataFrame :=
  mkDataFrame (index df) (map (fun p => (clean_name (fst p), snd p)) (data df)).

(** One turn of the loop of [convert_data_types]. *)
Definition convert_column (df : DataFrame) (entry : string * string) : result DataFrame :=
  let '(col, expected_type) := entry in
  match getitem col df with
  | None => inr df
  | Some s =>
      if String.eqb expected_type "int" then
        bind (astype_Int64 (to_numeric_coerce s)) (fun s' => inr (setitem col (Num s') df))
      else if String.eqb expected_type "numeric" then
        inr (setitem col (Num (to_numeric_coerce s)) df)
      else inr df
  end.

(** [DataValidator.convert_data_types] *)
Definition convert_data_types (df : DataFrame) : result DataFrame :=
  foldM convert_column expected_types df.

End WithNumeric.
End DataValidator.

(** ** inventory_processor.py *)

Module InventoryProcessor.
Import Py Pandas DataValidator.

Section WithNumeric.
Context `{N : Numeric}.

(** What the file system and the pandas readers give for a path: the
    extension [os.path.splitext] finds, and either the frame the reader
    returns or the text of the exception it raises. *)
Record File : Type := mkFile {
  ext : string;
  read : string + DataFrame
}.

(** [InventoryProcessor.read_inventory_file] *)
Definition read_inventory_file (f : File) : option DataFrame * option string :=
  let e := lower (ext f) in
  if String.eqb e ".xlsx" || String.eqb e ".xls" || String.eqb e ".csv" then
    match read f with
    | inl msg => (None, Some ("Error reading inventory file: " +:+ msg))
    | inr df =>
        if df_empty df then (None, Some "The inventory file is empty")
        else (Some df, None)
    end
  else (None, Some ("Unsupported file format: " +:+ ext f)).

(** The [results] dictionary.  [validation_issues] is [None] while it is
    the empty dictionary it starts as.  The rendered report text is not
    part of the model. *)
Record Results : Type := mkResults {
  success : bool;
  validation_passed : bool;
  validation_issues : option Issues;
  error_message : option string;
  records_processed : nat;
  records_with_issues : nat
}.

Definition initial_results : Results :=
  mkResults false false None None 0 0.

(** [issue['rows'] for issue in issues] for the categories that hold one
    entry per column. *)
Definition entry_rows (l : issue_list) : list (list nat) :=
  match l with
  | MissingValues l => map me_rows l
  | DataTypeIssues l => map te_rows l
  | SpecialCharacterIssues l => map se_rows l
  | _ => []
  end.

(** The rows of a category that holds a flat list of labels. *)
Definition flat_rows (l : issue_list) : list nat :=
  match l with
  | PriceBelowCost l => l
  | _ => []
  end.

(** [records_with_issues.update(rows)] *)
Definition update (s : gset nat) (rows : list nat) : gset nat := s ∪ list_to_set rows.

(** One turn of the loop over [validation_issues.items()]: the chain of
    [if]/[elif] on the key, with no branch for ['column_name_issues']. *)
Definition count_step (s : gset nat) (item : string * issue_list) : gset nat :=
  let '(issue_type, issues) := item in
  if String.eqb issue_type "missing_values" then foldl update s (entry_rows issues)
  else if String.eqb issue_type "data_type_issues" then foldl update s (entry_rows issues)
  else if String.eqb issue_type "price_below_cost" then update s (flat_rows issues)
  else if String.eqb issue_type "special_character_issues" then foldl update s (entry_rows issues)
  else s.

Definition rows_with_issues (iss : Issues) : gset nat :=
  foldl count_step ∅ (items iss).

Definition assign (name : string) (s : result Series) (df : DataFrame) : result DataFrame :=
  bind s (fun s' => inr (setitem name s' df)).

(** One turn of the loop over the two J.D. Power columns. *)
Definition fill_median (df : DataFrame) (col : string) : result DataFrame :=
  match getitem col df with
  | Some (Num s) => bind (fillna_median s) (fun s' => inr (setitem col (Num s') df))
  | _ => inr df
  end.

(** [InventoryProcessor.fix_missing_values] *)
Definition fix_missing_values (df : DataFrame) : result DataFrame :=
  bind (match getitem "Drivetrain Type" df with
        | Some s => assign "Drivetrain Type" (fillna_str "Unknown" s) df
        | None => inr df
        end)
       (fun df1 => foldM fill_median ["J.D. Power Trade In"; "J.D. Power Retail Clean"] df1).

(** [InventoryProcessor.process_inventory].  The function has no handler
    of its own: an exception of a step leaves it. *)
Definition process_inventory (f : File) : result (option DataFrame * Results) :=
  let results := initial_results in
  let '(df, error) := read_inventory_file f in
  if truthy error then
    inr (None, mkResults (success results) (validation_passed results)
                         (validation_issues results) error
                         (records_processed results) (records_with_issues results))
  else
    match df with
    | None => raise (TypeError "object of type 'NoneType' has no len()")
    | Some df =>
        let original_count := len df in
        let df := clean_column_names df in
        bind (validate_data df) (fun '(passed, issues) =>
        let n := size (rows_with_issues issues) in
        bind (convert_data_types df) (fun df =>
        bind (fix_missing_values df) (fun df =>
        inr (Some df, mkResults true passed (Some issues) (error_message results)
                                original_count n))))
    end.

End WithNumeric.
End InventoryProcessor.

(** ** upload_handler.py *)

Module UploadHandler.
Import Py Pandas DataValidator InventoryProcessor.

Section WithNumeric.
Context `{N : Numeric}.

(** The two annotation columns while they are filled: [has_issues] and
    [issue_type], one cell per row. *)
Definition marks : Type := (list bool * list string)%type.

(** The two [.loc[row, ..]] assignments of one flagged row.  A label that
    is not in the index makes the first assignment add an all-missing row,
    and the concatenation of the second then fails on NaN. *)
Definition mark (idx : list nat) (message : string) (m : marks) (row : nat) : result marks :=
  if bool_decide (row ∈ idx) then
    inr (at_label idx row (fun _ => true) (fst m),
         at_label idx row (fun t => t +:+ message) (snd m))
  else raise (TypeError "unsupported operand type(s) for +: 'float' and 'str'").

(** [validation_issues.get(key, [])] on the dictionary of the results. *)
Definition get_issues {A : Type} (key : Issues -> list A) (o : option Issues) : list A :=
  match o with
  | Some iss => key iss
  | None => []
  end.

(** [UploadHandler.mark_records_with_issues].  The copy gets the two
    columns first (all [False], all empty text); the loops then rewrite
    single cells, which is done here on the two columns before they are
    stored. *)
Definition mark_records_with_issues (df : DataFrame) (validation_issues : option Issues)
  : result DataFrame :=
  let idx := index df in
  let m0 : marks := (replicate (len df) false, replicate (len df) EmptyString) in
  bind (foldM (fun m issue =>
                 foldM (mark idx ("Missing " +:+ me_field issue +:+ "; ")) (me_rows issue) m)
              (get_issues missing_values validation_issues) m0) (fun m1 =>
  bind (foldM (fun m issue =>
                 foldM (mark idx ("Invalid " +:+ te_field issue +:+ " format; ")) (te_rows issue) m)
              (get_issues data_type_issues validation_issues) m1) (fun m2 =>
  bind (foldM (mark idx "Price below cost; ")
              (get_issues price_below_cost validation_issues) m2) (fun m3 =>
  bind (foldM (fun m issue =>
                 foldM (mark idx ("Special characters in " +:+ se_field issue +:+ "; ")) (se_rows issue) m)
              (get_issues special_character_issues validation_issues) m3) (fun m4 =>
  inr (setitem "issue_type" (Object (map VStr (snd m4)))
         (setitem "has_issues" (Num (NBool (fst m4))) df)))))).

Definition numeric_columns : list string :=
  ["Year"; "Odometer"; "Price"; "Unit Cost"; "J.D. Power Trade In"; "J.D. Power Retail Clean"].

Definition text_columns : list string :=
  ["Make"; "Model"; "Series"; "Class"; "Engine"; "Body"; "Transmission"].

Definition format_numeric (df : DataFrame) (col : string) : DataFrame :=
  match getitem col df with
  | Some s => setitem col (Num (to_numeric_coerce s)) df
  | None => df
  end.

Definition format_text (df : DataFrame) (col : string) : DataFrame :=
  match getitem col df with
  | Some s => setitem col (Object (map (fun t => VStr (sub_problematic t)) (astype_str s))) df
  | None => df
  end.

(** [UploadHandler.format_for_upload] *)
Definition format_for_upload (df : DataFrame) : DataFrame :=
  let df := mkDataFrame (index df) (map (fun p => (clean_name (fst p), snd p)) (data df)) in
  let df := foldl format_numeric df numeric_columns in
  let df :=
    match getitem "VIN" df with
    | Some s => setitem "VIN" (Object (map VStr (astype_str s))) df
    | None => df
    end in
  foldl format_text df text_columns.

(** [UploadHandler.prepare_for_upload] *)
Definition prepare_for_upload (f : File) : result (option DataFrame * Results) :=
  bind (process_inventory f) (fun '(df, results) =>
    if negb (success results) then inr (None, results)
    else
      match df with
      | None => raise (AttributeError "'NoneType' object has no attribute 'copy'")
      | Some df =>
          bind (if negb (validation_passed results)
                then mark_records_with_issues df (validation_issues results)
                else inr df)
               (fun df => inr (Some (format_for_upload df), results))
      end).

(** The [results] dictionary of the upload. *)
Record UploadResults : Type := mkUpload {
  upload_success : bool;
  records_uploaded : nat;
  records_failed : nat;
  upload_error_message : option string
}.

(** [upload_config.get('skip_records_with_issues', True)] *)
Definition skip_records_with_issues (upload_config : gmap string bool) : bool :=
  default true (upload_config !! "skip_records_with_issues").

(** The body of the [try] of [upload_inventory]: the frame that is
    uploaded. *)
Definition clean_partition (df : DataFrame) (upload_config : gmap string bool)
  : result DataFrame :=
  if skip_records_with_issues upload_config then
    match getitem "has_issues" df with
    | Some s => bind (inverted_mask s) (fun mask => inr (filter_rows mask df))
    | None => inr df
    end
  else inr df.

(** [UploadHandler.upload_inventory] *)
Definition upload_inventory (df : DataFrame) (upload_config : gmap string bool)
  : UploadResults :=
  match clean_partition df upload_config with
  | inr clean_df => mkUpload true (len clean_df) 0 None
  | inl e => mkUpload false 0 (len df) (Some ("Error during upload: " +:+ str_exn e))
  end.

Definition default_config : gmap string bool :=
  <["skip_records_with_issues" := true]>
    (<["save_processed_file" := true]> (<["save_results" := true]> ∅)).

(** What [handle_upload_process] returns: the results of the preparation
    when it failed, else those merged with the results of the upload. *)
Inductive ProcessResults : Type :=
| Prepared (prep_results : Results)
| Combined (prep_results : Results) (upload_results : UploadResults).

(** [UploadHandler.handle_upload_process], without the writes to disk. *)
Definition handle_upload_process (f : File) (upload_config : option (gmap string bool))
  : result ProcessResults :=
  let upload_config := default default_config upload_config in
  bind (prepare_for_upload f) (fun '(df, prep_results) =>
    match df with
    | None => inr (Prepared prep_results)
    | Some df => inr (Combined prep_results (upload_inventory df upload_config))
    end).

End WithNumeric.
End UploadHandler.

(** ** The flagged partition

    The source computes the clean partition only; the flagged one is the
    rest of the frame. *)

Module Partition.
Import Py Pandas.

Section WithNumeric.
Context `{N : Numeric}.

(** The rows the upload skips: those whose [has_issues] is true. *)
Definition flagged_partition (df : DataFrame) (has_issues : list bool) : DataFrame :=
  filter_rows has_issues df.

(** The rows the upload keeps: [df[~df['has_issues']]]. *)
Definition clean_rows (df : DataFrame) (has_issues : list bool) : DataFrame :=
  filter_rows (not_mask has_issues) df.

(** The [has_issues] cells of a frame, when the column is boolean. *)
Definition flags (df : DataFrame) : option (list bool) :=
  match getitem "has_issues" df with
  | Some (Num (NBool l)) => Some l
  | _ => None
  end.

End WithNumeric.
End Partition.

(** ** The binary64 numbers

    The floats of pandas: IEEE 754 binary64 numbers other than NaN, each
    kept as the number it is.  An operation is the exact one followed by
    the rounding to the nearest float, a tie going to the even mantissa. *)

Module Float64.
Import Py.

(** A binary64 number that is not NaN: plus or minus [m * 2^e], or an
    infinity.  The operations return the mantissa odd, or zero with the
    exponent zero, so that a number has one representation. *)
Inductive float : Type :=
| Fin (neg : bool) (m : N) (e : Z)
| Inf (neg : bool).

Definition prec : Z := 53.
Definition emin : Z := -1074.
Definition emax : Z := 1024.

Definition signed (neg : bool) (m : N) : Z :=
  if neg then (- Z.of_N m)%Z else Z.of_N m.

(** The number of binary digits of a mantissa. *)
Definition bits (m : N) : Z := Z.of_N (N.size m).

(** Move the factors two of the mantissa into the exponent. *)
Fixpoint strip (p : positive) (e : Z) : positive * Z :=
  match p with
  | xO p' => strip p' (e + 1)
  | _ => (p, e)
  end.

Definition normal (neg : bool) (m : N) (e : Z) : float :=
  match m with
  | N0 => Fin neg 0 0
  | Npos p => let '(p', e') := strip p e in Fin neg (Npos p') e'
  end.

(** [m / 2^d] for [d > 0], rounded to the nearest integer, a tie to the
    even one. *)
Definition nearest_even (m : N) (d : Z) : N :=
  let q := N.shiftr m (Z.to_N d) in
  let r := (m - N.shiftl q (Z.to_N d))%N in
  let half := N.shiftl 1 (Z.to_N (d - 1)) in
  if (half <? r)%N || ((r =? half)%N && N.odd q) then N.succ q else q.

(** [m * 2^e] rounded to binary64: 53 digits, the exponent of the last
    digit not below -1074, infinity from [2^1024] on. *)
Definition round (neg : bool) (m : N) (e : Z) : float :=
  let q := Z.max (bits m + e - prec) emin in
  let m' := if (e <? q)%Z then nearest_even m (q - e) else m in
  let e' := Z.max e q in
  if (emax <? bits m' + e')%Z then Inf neg else normal neg m' e'.

(** [n / d * 2^e] rounded to binary64, for [d > 0]: the quotient is taken
    with three digits more than the format holds and one that records a
    remainder. *)
Definition ratio (neg : bool) (n d : N) (e : Z) : float :=
  let sh := Z.max 0 (bits d - bits n + prec + 3) in
  let n' := N.shiftl n (Z.to_N sh) in
  let sticky := if (n' mod d =? 0)%N then 0%N else 1%N in
  round neg (2 * (n' / d) + sticky)%N (e - sh - 1).

(** int64 -> float64 *)
Definition of_Z (z : Z) : float := round (z <? 0)%Z (Z.abs_N z) 0.

(** The decimal numeral [z / 10^k]. *)
Definition decimal (z : Z) (k : nat) : float :=
  ratio (z <? 0)%Z (Z.abs_N z) (10 ^ N.of_nat k) 0.

(** [d * 10^k] *)
Definition of_decimal (neg : bool) (d : N) (k : Z) : float :=
  if (0 <=? k)%Z then round neg (d * 10 ^ Z.to_N k) 0
  else ratio neg d (10 ^ Z.to_N (- k)) 0.

Definition scaled (neg : bool) (m : N) (e k : Z) : Z := (signed neg m * 2 ^ (e + k))%Z.

(** [a < b] *)
Definition lt (a b : float) : bool :=
  match a, b with
  | Fin s m e, Fin s' m' e' =>
      let k := (- Z.min e e')%Z in (scaled s m e k <? scaled s' m' e' k)%Z
  | Fin _ _ _, Inf neg => negb neg
  | Inf neg, Fin _ _ _ => neg
  | Inf neg, Inf neg' => neg && negb neg'
  end.

(** [a <= b] *)
Definition le (a b : float) : bool :=
  match a, b with
  | Fin s m e, Fin s' m' e' =>
      let k := (- Z.min e' e)%Z in (scaled s m e k <=? scaled s' m' e' k)%Z
  | Fin _ _ _, Inf neg => negb neg
  | Inf neg, Fin _ _ _ => neg
  | Inf neg, Inf neg' => neg || negb neg'
  end.

Definition lt_not_ge (a b : float) : lt a b = negb (le b a) :=
  match a, b with
  | Fin s m e, Fin s' m' e' => Z.ltb_antisym _ _
  | Fin _ _ _, Inf neg => eq_refl
  | Inf neg, Fin _ _ _ => match neg with true => eq_refl | false => eq_refl end
  | Inf neg, Inf neg' =>
      match neg, neg' with
      | true, true => eq_refl
      | true, false => eq_refl
      | false, true => eq_refl
      | false, false => eq_refl
      end
  end.

(** The integer a float equals, if it is whole. *)
Definition to_int (x : float) : option Z :=
  match x with
  | Fin s m e =>
      if (0 <=? e)%Z then Some (signed s m * 2 ^ e)%Z
      else if (Z.of_N m mod 2 ^ (- e) =? 0)%Z then Some (signed s m / 2 ^ (- e))%Z
      else None
  | Inf _ => None
  end.

(** [a + b]; the sum of the two infinities is not a number and is given
    as the first. *)
Definition add (a b : float) : float :=
  match a, b with
  | Fin s m e, Fin s' m' e' =>
      let k := Z.min e e' in
      let z := (signed s m * 2 ^ (e - k) + signed s' m' * 2 ^ (e' - k))%Z in
      round (if (z =? 0)%Z then s && s' else (z <? 0)%Z) (Z.abs_N z) k
  | Inf neg, _ => Inf neg
  | _, Inf neg => Inf neg
  end.

(** [a * b] for finite [a]. *)
Definition mul (a b : float) : float :=
  match a, b with
  | Fin s m e, Fin s' m' e' => round (xorb s s') (m * m') (e + e')
  | Fin s _ _, Inf neg => Inf (xorb s neg)
  | Inf neg, Fin s _ _ => Inf (xorb neg s)
  | Inf neg, Inf neg' => Inf (xorb neg neg')
  end.

(** [a / b] for finite [b] that is not zero. *)
Definition div (a b : float) : float :=
  match a, b with
  | Fin s m e, Fin s' m' e' => ratio (xorb s s') m m' (e - e')
  | Inf neg, Fin s _ _ => Inf (xorb neg s)
  | Fin s _ _, Inf neg => Fin (xorb s neg) 0 0
  | Inf neg, Inf _ => Inf neg
  end.

Definition neg_float (x : float) : float :=
  match x with
  | Fin s m e => Fin (negb s) m e
  | Inf s => Inf (negb s)
  end.

(** *** Reading a number: [pd.to_numeric] on one text cell

    pandas reads the text with [precise_xstrtod]: white space, a sign,
    digits of which the first seventeen count, a point and further digits,
    an exponent; the digits are gathered in a float and scaled by a power
    of ten of a table. *)

Definition is_c_space (c : ascii) : bool := (code c =? 32)%nat || between 9 13 (code c).

Fixpoint skip_spaces (l : list ascii) : list ascii :=
  match l with
  | c :: l' => if is_c_space c then skip_spaces l' else l
  | [] => []
  end.

Definition digit_value (c : ascii) : Z := Z.of_nat (code c - 48).

Definition max_digits : nat := 17.

(** [number * 10. + (c - '0')] *)
Definition push_digit (x : float) (c : ascii) : float :=
  add (mul x (of_Z 10)) (of_Z (digit_value c)).

(** The state of the scan: what is left of the text, the float gathered,
    the integer the digits spell, the digits counted and the decimal
    exponent. *)
Record scan : Type := mkScan {
  rest : list ascii;
  gathered : float;
  spelled : Z;
  num_digits : nat;
  exponent : Z
}.

Fixpoint whole_digits (l : list ascii) (x : float) (z : Z) (n : nat) (ex : Z) : scan :=
  match l with
  | c :: l' =>
      if is_digit c then
        if (n <? max_digits)%nat
        then whole_digits l' (push_digit x c) (z * 10 + digit_value c)%Z (S n) ex
        else whole_digits l' x (z * 10 + digit_value c)%Z n (ex + 1)%Z
      else mkScan l x z n ex
  | [] => mkScan [] x z n ex
  end.

Fixpoint fraction_digits (l : list ascii) (x : float) (z : Z) (n : nat) (ex : Z) : scan :=
  match l with
  | c :: l' =>
      if is_digit c then
        if (n <? max_digits)%nat
        then fraction_digits l' (push_digit x c) z (S n) (ex - 1)%Z
        else fraction_digits l' x z n ex
      else mkScan l x z n ex
  | [] => mkScan [] x z n ex
  end.

(** The digits of the exponent, seventeen at most. *)
Fixpoint exponent_digits (l : list ascii) (v : Z) (n : nat) : list ascii * Z * nat :=
  match l with
  | c :: l' =>
      if is_digit c && (n <? max_digits)%nat
      then exponent_digits l' (v * 10 + digit_value c)%Z (S n)
      else (l, v, n)
  | [] => ([], v, n)
  end.

(** An optional sign. *)
Definition sign (l : list ascii) : bool * list ascii :=
  match l with
  | c :: l' =>
      if Ascii.eqb c "-"%char then (true, l')
      else if Ascii.eqb c "+"%char then (false, l')
      else (false, l)
  | [] => (false, [])
  end.

(** The entry [e[k]] of the table of powers of ten. *)
Definition power_of_ten (k : Z) : float := of_Z (10 ^ k).

Definition scale (x : float) (ex : Z) : option float :=
  if (308 <? ex)%Z then None
  else if (0 <? ex)%Z then Some (mul x (power_of_ten ex))
  else if (ex <? -308)%Z then
    if (ex <? -616)%Z then Some (Fin false 0 0)
    else Some (div (div x (power_of_ten (-308 - ex))) (power_of_ten 308))
  else Some (div x (power_of_ten (- ex))).

Definition is_Inf (x : float) : bool :=
  match x with Inf _ => true | Fin _ _ _ => false end.

Definition is_exponent_mark (c : ascii) : bool :=
  Ascii.eqb c "e"%char || Ascii.eqb c "E"%char.

(** The exponent part, if there is one with a digit: what is left of the
    text and the exponent it adds. *)
Definition exponent_part (l : list ascii) : option (list ascii * Z) :=
  match l with
  | c :: l1 =>
      if is_exponent_mark c then
        let '(negative, l2) := sign l1 in
        let '(l3, v, n) := exponent_digits l2 0 0 in
        if (n =? 0)%nat then None
        else Some (l3, if negative then (- v)%Z else v)
      else None
  | [] => None
  end.

(** [to_double]: the float, whether the text may be an integer, and the
    integer its digits spell; [None] when the text is not a number. *)
Definition to_double (l : list ascii) : option (float * bool * Z) :=
  let '(negative, l1) := sign (skip_spaces l) in
  let s1 := whole_digits l1 (Fin false 0 0) 0 0 0 in
  let '(s2, pointless) :=
    match rest s1 with
    | c :: l2 =>
        if Ascii.eqb c "."%char
        then (fraction_digits l2 (gathered s1) (spelled s1) (num_digits s1) (exponent s1), false)
        else (s1, true)
    | [] => (s1, true)
    end in
  if (num_digits s2 =? 0)%nat then None
  else
    let x := if negative then neg_float (gathered s2) else gathered s2 in
    let z := if negative then (- spelled s2)%Z else spelled s2 in
    let '(l3, ex, maybe_int) :=
      match exponent_part (rest s2) with
      | Some (l3, v) => (l3, (exponent s2 + v)%Z, false)
      | None => (rest s2, exponent s2, pointless)
      end in
    match scale x ex with
    | None => None
    | Some y =>
        if is_Inf y then None
        else
          match skip_spaces l3 with
          | [] => Some (y, maybe_int, z)
          | _ :: _ => None
          end
    end.

Definition is_name (names : list string) (s : string) : bool :=
  existsb (String.eqb (lower s)) names.

(** One text cell under [pd.to_numeric]. *)
Definition parse (s : string) : parsed float :=
  match s with
  | EmptyString => PNaN
  | _ =>
      match to_double (chars s) with
      | Some (x, maybe_int, z) =>
          if maybe_int then
            if in_int64 z || in_uint64 z then PInt z else PBig x
          else PFloat x
      | None =>
          if is_name ["inf"; "+inf"; "infinity"; "+infinity"] s then PFloat (Inf false)
          else if is_name ["-inf"; "-infinity"] s then PFloat (Inf true)
          else Unparsable
      end
  end.

(** *** Writing a number: [str] of a float

    The shortest decimal numeral that reads back as the float, the one
    nearest to it when there are two; in exponent notation when the first
    digit stands before [1e-4] or from [1e16] on. *)

(** Whether [10^p <= n / d]. *)
Definition ge_power_of_ten (n d : N) (p : Z) : bool :=
  if (0 <=? p)%Z then (10 ^ Z.to_N p * d <=? n)%N
  else (d <=? n * 10 ^ Z.to_N (- p))%N.

(** The exponent of the first decimal digit of [m * 2^e], [m > 0]. *)
Definition first_digit (m : N) (e : Z) : Z :=
  let n := if (0 <=? e)%Z then (m * 2 ^ Z.to_N e)%N else m in
  let d := if (0 <=? e)%Z then 1%N else (2 ^ Z.to_N (- e))%N in
  let p := ((bits m + e - 1) * 30103 / 100000)%Z in
  let p := if ge_power_of_ten n d p then p else (p - 1)%Z in
  if ge_power_of_ten n d (p + 1) then (p + 1)%Z else p.

Definition same (a b : float) : bool := negb (lt a b) && negb (lt b a).

(** The numeral of [digits] digits nearest to [m * 2^e] among those that
    read back as it, as an integer and its decimal exponent. *)
Definition numeral (m : N) (e : Z) (digits : nat) : option (N * Z) :=
  let n := if (0 <=? e)%Z then (m * 2 ^ Z.to_N e)%N else m in
  let d := if (0 <=? e)%Z then 1%N else (2 ^ Z.to_N (- e))%N in
  let k := (first_digit m e - Z.of_nat digits + 1)%Z in
  let a := if (0 <=? k)%Z then n else (n * 10 ^ Z.to_N (- k))%N in
  let b := if (0 <=? k)%Z then (d * 10 ^ Z.to_N k)%N else d in
  let lo := (a / b)%N in
  let hi := N.succ lo in
  let x := Fin false m e in
  let lo_ok := same (of_decimal false lo k) x in
  let hi_ok := same (of_decimal false hi k) x in
  let lo_nearer := (2 * (a mod b) <=? b)%N in
  if lo_ok && (lo_nearer || negb hi_ok) then Some (lo, k)
  else if hi_ok then Some (hi, k)
  else None.

Fixpoint shortest (m : N) (e : Z) (digits fuel : nat) : N * Z :=
  match numeral m e digits with
  | Some r => r
  | None =>
      match fuel with
      | O => (m, 0%Z)
      | S fuel' => shortest m e (S digits) fuel'
      end
  end.

(** Drop the final zeros of the numeral. *)
Fixpoint drop_zeros (d : N) (k : Z) (fuel : nat) : N * Z :=
  match fuel with
  | O => (d, k)
  | S fuel' =>
      if (d mod 10 =? 0)%N && negb (d =? 0)%N then drop_zeros (d / 10) (k + 1) fuel'
      else (d, k)
  end.

Fixpoint zeros (n : nat) : string :=
  match n with
  | O => EmptyString
  | S n' => String "0"%char (zeros n')
  end.

Definition exponent_text (x : Z) : string :=
  let a := Z.abs x in
  (if (x <? 0)%Z then "-" else "+") +:+ (if (a <? 10)%Z then "0" else EmptyString) +:+ pretty a.

Definition layout (ds : string) (decpt : Z) : string :=
  let nd := Z.of_nat (String.length ds) in
  if (decpt <=? -4)%Z || (16 <? decpt)%Z then
    String.substring 0 1 ds
    +:+ (if (1 <? nd)%Z then "." +:+ String.substring 1 (String.length ds - 1) ds
         else EmptyString)
    +:+ "e" +:+ exponent_text (decpt - 1)
  else if (decpt <=? 0)%Z then "0." +:+ zeros (Z.to_nat (- decpt)) +:+ ds
  else if (nd <=? decpt)%Z then ds +:+ zeros (Z.to_nat (decpt - nd)) +:+ ".0"
  else String.substring 0 (Z.to_nat decpt) ds +:+ "."
       +:+ String.substring (Z.to_nat decpt) (String.length ds - Z.to_nat decpt) ds.

Definition repr (x : float) : string :=
  match x with
  | Inf neg => if neg then "-inf" else "inf"
  | Fin neg 0 _ => if neg then "-0.0" else "0.0"
  | Fin neg m e =>
      let '(d, k) := shortest m e 1 16 in
      let '(d, k) := drop_zeros d k 20 in
      let ds := pretty d in
      (if neg then "-" else EmptyString) +:+ layout ds (Z.of_nat (String.length ds) + k)
  end.

(** *** The median *)

(** [(a + b) / 2] *)
Definition mean (a b : float) : float :=
  match add a b with
  | Fin s m e => round s m (e - 1)
  | Inf s => Inf s
  end.

Definition median (x : float) (xs : list float) : float :=
  let sorted := merge_sort (fun a b => Is_true (le a b)) (x :: xs) in
  let n := length sorted in
  if Nat.even n
  then mean (nth (n / 2 - 1) sorted x) (nth (n / 2) sorted x)
  else nth (n / 2) sorted x.

Definition is_finite (x : float) : bool :=
  match x with Fin _ _ _ => true | Inf _ => false end.

(** A float of the format: 53 digits at most, the last of them not below
    [2^-1074], the number below [2^1024]. *)
Definition binary64 (x : float) : bool :=
  match x with
  | Fin _ m e => (bits m <=? prec)%Z && (emin <=? e)%Z && (bits m + e <=? emax)%Z
  | Inf _ => true
  end.

#[export] Instance numeric : Numeric := {|
  num := float;
  str_to_num := parse;
  Z_to_num := of_Z;
  num_to_int := to_int;
  num_finite := is_finite;
  num_lt := lt;
  num_le := le;
  num_repr := repr;
  num_median := median;
  num_lt_not_ge := lt_not_ge
|}.

End Float64.

(** ** The vocabulary of the specification *)

Module Spec.
Import Py Pandas DataValidator InventoryProcessor UploadHandler.

Section WithNumeric.
Context `{N : Numeric}.

(** The cells of a column after numeric coercion. *)
Definition coerced (col : string) (df : DataFrame) : list (option number) :=
  match getitem col df with
  | Some s => cells (to_numeric_coerce s)
  | None => []
  end.

(** The cell of the row labelled [row] in a list of cells. *)
Definition cell_at {A : Type} (df : DataFrame) (l : list A) (row : nat) (v : A) : Prop :=
  exists k, index df !! k = Some row /\ l !! k = Some v.

(** The rows some row-scoped category of the report mentions: the union
    over [missing_values], [data_type_issues], [price_below_cost] and
    [special_character_issues]. *)
Definition affected_rows (iss : Issues) : gset nat :=
  ⋃ (list_to_set <$> map me_rows (missing_values iss))
  ∪ ⋃ (list_to_set <$> map te_rows (data_type_issues iss))
  ∪ list_to_set (price_below_cost iss)
  ∪ ⋃ (list_to_set <$> map se_rows (special_character_issues iss)).

(** A report with another list of column names. *)
Definition with_column_names (names : list string) (iss : Issues) : Issues :=
  mkIssues (missing_values iss) (data_type_issues iss) (price_below_cost iss)
           names (special_character_issues iss).

(** Two frames with the same rows and the same column labels. *)
Definition same_shape (df df' : DataFrame) : Prop :=
  index df' = index df /\ columns df' = columns df.

(** The results of a run that stopped on an input error. *)
Definition failed (msg : string) : Results :=
  mkResults false false None (Some msg) 0 0.

End WithNumeric.
End Spec.

(** ** Sample files *)

Module Samples.
Import Py Pandas DataValidator InventoryProcessor UploadHandler Partition Float64.

Definition trade_in_raw : string := "J.D. Power" +:+ nl +:+ "Trade In".

(** Two clean records; one header holds a newline. *)
Definition clean_frame : DataFrame :=
  mkDataFrame (RangeIndex 2)
    [("Year", Num (NInt64 [2020; 2021]%Z));
     ("Stock #", Object [VStr "A1"; VStr "A2"]);
     ("VIN", Object [VStr "1HGCM82633A004352"; VStr "1HGCM82633A004353"]);
     ("Make", Object [VStr "Honda"; VStr "Ford"]);
     ("Model", Object [VStr "Civic"; VStr "Focus"]);
     ("Price", Num (NInt64 [20000; 30000]%Z));
     ("Unit Cost", Num (NFloat64 [Some (decimal 150005 1); Some (of_Z 25000)]));
     ("Class", Object [VStr "SUV"; VStr "Sedan, compact"]);
     ("Drivetrain Type", Object [VStr "AWD"; VNull]);
     (trade_in_raw, Num (NFloat64 [Some (of_Z 18000); None]))].

Definition clean_file : File := mkFile ".csv" (inr clean_frame).

(** Four records; row 1 has three kinds of issue, rows 0 and 3 are priced
    below cost, row 2 is clean. *)
Definition issues_frame : DataFrame :=
  mkDataFrame (RangeIndex 4)
    [("Year", Object [VStr "2020"; VStr "20x1"; VStr "2022"; VStr "2023"]);
     ("VIN", Object [VStr "V0"; VNull; VStr "V2"; VStr "V3"]);
     ("Price", Num (NInt64 [100; 200; 300; 400]%Z));
     ("Unit Cost", Num (NInt64 [150; 100; 100; 500]%Z));
     ("Class", Object [VStr "SUV"; VStr "Truck/4x4"; VStr "Sedan"; VStr "Van"])].

Definition issues_file : File := mkFile ".xlsx" (inr issues_frame).

(** A header row and no record. *)
Definition empty_frame : DataFrame :=
  mkDataFrame (RangeIndex 0) [("Year", Object []); ("Price", Object [])].

Definition empty_file : File := mkFile ".csv" (inr empty_frame).

(** A raw frame whose J.D. Power header holds a newline and whose cells
    there are text, one of them not a number. *)
Definition newline_frame : DataFrame :=
  mkDataFrame (RangeIndex 2)
    [("Stock #", Object [VStr "A1"; VStr "A2"]);
     (trade_in_raw, Object [VStr "abc"; VStr "100"])].

Definition newline_file : File := mkFile ".csv" (inr newline_frame).

(** The same records under the normalized header. *)
Definition normalized_frame : DataFrame :=
  mkDataFrame (RangeIndex 2)
    [("Stock #", Object [VStr "A1"; VStr "A2"]);
     ("J.D. Power Trade In", Object [VStr "abc"; VStr "100"])].

(** The header as the specification spells it. *)
Definition normalized_frame_plain : DataFrame :=
  mkDataFrame (RangeIndex 2)
    [("Stock #", Object [VStr "A1"; VStr "A2"]);
     ("JD Power Trade In", Object [VStr "abc"; VStr "100"])].

(** A year that is a number but not a whole one. *)
Definition fraction_frame : DataFrame :=
  mkDataFrame (RangeIndex 2)
    [("Stock #", Object [VStr "A1"; VStr "A2"]);
     ("Year", Num (NFloat64 [Some (of_Z 2020); Some (decimal 20205 1)]))].

Definition fraction_file : File := mkFile ".csv" (inr fraction_frame).

(** The same year read as text. *)
Definition fraction_text_frame : DataFrame :=
  mkDataFrame (RangeIndex 2)
    [("Stock #", Object [VStr "A1"; VStr "A2"]);
     ("Year", Object [VStr "2020"; VStr "2020.5"])].

(** A file that brings a boolean [has_issues] column of its own. *)
Definition own_flag_frame : DataFrame :=
  mkDataFrame (RangeIndex 2)
    [("Stock #", Object [VStr "A1"; VStr "A2"]);
     ("has_issues", Num (NBool [true; false]))].

Definition own_flag_file : File := mkFile ".csv" (inr own_flag_frame).

Definition no_frame : DataFrame := mkDataFrame [] [].

Definition no_results : Results := initial_results.

Definition no_issues : Issues := mkIssues [] [] [] [] [].

(** The frame and the results of the runs on the samples. *)
Definition prepared (f : File) : DataFrame :=
  match prepare_for_upload f with
  | inr (Some df, _) => df
  | _ => no_frame
  end.

Definition prepared_results (f : File) : Results :=
  match prepare_for_upload f with
  | inr (_, r) => r
  | _ => no_results
  end.

Definition processed (f : File) : DataFrame :=
  match process_inventory f with
  | inr (Some df, _) => df
  | _ => no_frame
  end.

Definition processed_results (f : File) : Results :=
  match process_inventory f with
  | inr (_, r) => r
  | _ => no_results
  end.

Definition report (df : DataFrame) : Issues :=
  match validate_data df with
  | inr (_, iss) => iss
  | _ => no_issues
  end.

Definition issues_prepared : DataFrame := Eval vm_compute in prepared issues_file.
Definition issues_results : Results := Eval vm_compute in processed_results issues_file.
Definition issues_processed : DataFrame := Eval vm_compute in processed issues_file.
Definition issues_report : Issues := Eval vm_compute in report (clean_column_names issues_frame).
Definition clean_prepared : DataFrame := Eval vm_compute in prepared clean_file.
Definition clean_results : Results := Eval vm_compute in prepared_results clean_file.
Definition clean_report : Issues := Eval vm_compute in report (clean_column_names clean_frame).

End Samples.

(** ** Vocabulary for the properties of the single steps *)

Module Frames.
Import Py Pandas DataValidator InventoryProcessor UploadHandler Spec.

Section WithNumeric.
Context `{N : Numeric}.

(** [len(s)] *)
Definition series_len (s : Series) : nat :=
  match s with
  | Num (NInt64 l) => length l
  | Num (NFloat64 l) => length l
  | Num (NBool l) => length l
  | Num (NNullableInt64 l) => length l
  | Object l => length l
  end.

(** Every column has one cell per row. *)
Definition well_formed (df : DataFrame) : Prop :=
  Forall (fun p => series_len (snd p) = len df) (data df).

(** The extensions [read_inventory_file] accepts. *)
Definition supported (e : string) : bool :=
  String.eqb (lower e) ".xlsx" || String.eqb (lower e) ".xls" || String.eqb (lower e) ".csv".

(** All the row lists of a report. *)
Definition row_lists (iss : Issues) : list (list nat) :=
  map me_rows (missing_values iss) ++ map te_rows (data_type_issues iss)
  ++ [price_below_cost iss] ++ map se_rows (special_character_issues iss).

(** The cells of a series as values of an [object] column. *)
Definition object_cells (s : Series) : list value :=
  match s with
  | Num (NInt64 l) => map VInt l
  | Num (NFloat64 l) => map (fun o => match o with Some x => VFloat x | None => VNull end) l
  | Num (NBool l) => map (fun b => VInt (Z.b2z b)) l
  | Num (NNullableInt64 l) => map (fun o => match o with Some z => VInt z | None => VNull end) l
  | Object l => l
  end.

(** The two columns the schema declares as integers. *)
Definition integer_columns : list string := ["Year"; "Odometer"].

(** The columns [fix_missing_values] may rewrite. *)
Definition repaired_columns : list string :=
  ["Drivetrain Type"; "J.D. Power Trade In"; "J.D. Power Retail Clean"].

(** A cell that is text without a character [format_for_upload] replaces. *)
Definition clean_text (v : value) : Prop :=
  exists t, v = VStr t /\ forallb (fun c => negb (is_problematic_char c)) (chars t) = true.

(** A cell that is text. *)
Definition is_text (v : value) : Prop := exists t, v = VStr t.

(** The shape of the loops that rewrite columns one after the other: when
    the column of the entry is there, it is replaced by what [g] makes of
    it; an exception of [g] ends the loop. *)
Definition update_step {E : Type} (key : E -> string) (g : E -> Series -> result Series)
  (d : DataFrame) (e : E) : result DataFrame :=
  match getitem (key e) d with
  | None => inr d
  | Some s => bind (g e s) (fun s' => inr (setitem (key e) s' d))
  end.

(** What [convert_data_types] makes of one schema column. *)
Definition convert_series (entry : string * string) (s : Series) : result Series :=
  if String.eqb (snd entry) "int" then
    bind (astype_Int64 (to_numeric_coerce s)) (fun n => inr (Num n))
  else if String.eqb (snd entry) "numeric" then inr (Num (to_numeric_coerce s))
  else inr s.

(** A numeric series [astype('Int64')] cannot cast: it holds a float that
    is not a whole number of the range of int64 (an infinity, a fraction, a
    number from [2^63] on), or it is an integer series with a value beyond
    int64. *)
Definition uncastable (n : NumSeries) : Prop :=
  (exists l z, n = NInt64 l /\ z ∈ l /\ in_int64 z = false)
  \/ (exists l x, n = NFloat64 l /\ Some x ∈ l /\ castable x = false).

(** The classes of the exceptions of [astype('Int64')]. *)
Definition cast_failure (e : exn) : Prop :=
  (exists msg, e = TypeError msg) \/ (exists msg, e = OverflowError msg).

(** Integers that float64 holds exactly. *)
Definition small (z : Z) : bool := (Z.abs z <=? 2 ^ 53)%Z.

Definition small_value (v : value) : bool :=
  match v with
  | VInt z => small z
  | VStr t => match str_to_num t with PInt z => small z | _ => true end
  | _ => true
  end.

(** The integers of a series, those its text spells included, do not
    exceed [2^53] in magnitude. *)
Definition small_integers (s : Series) : bool :=
  match s with
  | Num (NInt64 l) => forallb small l
  | Num (NNullableInt64 l) =>
      forallb (fun o => match o with Some z => small z | None => true end) l
  | Num _ => true
  | Object l => forallb small_value l
  end.

(** A frame as the readers return it for an inventory: no label occurs
    twice, and the integers do not exceed [2^53] in magnitude. *)
Definition plain (df : DataFrame) : bool :=
  bool_decide (NoDup (columns df)) && forallb (fun p => small_integers (snd p)) (data df).

(** The integer a cell of a numeric series stands for, if it is a whole
    number. *)
Definition whole (c : option number) : option Z :=
  match c with
  | None => None
  | Some (I z) => Some z
  | Some (F x) => num_to_int x
  end.

(** What [fix_missing_values] makes of a J.D. Power column. *)
Definition repair_series (col : string) (s : Series) : result Series :=
  match s with
  | Num n => bind (fillna_median n) (fun n' => inr (Num n'))
  | Object _ => inr s
  end.

(** What [fix_missing_values] makes of one of its three columns. *)
Definition repair_column (col : string) (s : Series) : result Series :=
  if String.eqb col "Drivetrain Type" then fillna_str "Unknown" s
  else repair_series col s.

(** The cell [fillna('Unknown')] leaves where [v] was. *)
Definition filled (v : value) : value :=
  match v with
  | VNull => VStr "Unknown"
  | _ => v
  end.

(** What [format_for_upload] makes of a numeric column, of [VIN] and of a
    text column. *)
Definition numeric_series (col : string) (s : Series) : result Series :=
  inr (Num (to_numeric_coerce s)).

Definition vin_series (s : Series) : Series := Object (map VStr (astype_str s)).

Definition text_series (col : string) (s : Series) : result Series :=
  inr (Object (map (fun t => VStr (sub_problematic t)) (astype_str s))).


(** The columns [format_for_upload] rewrites, in the order of its loops,
    and what it makes of each. *)
Definition formatted_columns : list string :=
  numeric_columns ++ ["VIN"] ++ text_columns.

Definition format_column (col : string) (s : Series) : result Series :=
  if bool_decide (col ∈ numeric_columns) then numeric_series col s
  else if String.eqb col "VIN" then inr (vin_series s)
  else text_series col s.

(** Text that [pd.to_numeric(.., errors='raise')] raises on: no number, or
    an integer beyond 64 bits. *)
Definition rejected (t : string) : Prop :=
  str_to_num t = Unparsable \/ exists x, str_to_num t = PBig x.

(** A nullable-integer series. *)
Definition is_nullable_int (s : Series) : Prop :=
  exists l, s = Num (NNullableInt64 l).

(** The two annotation columns agree with a set of flagged rows: there is
    one cell per row; the [has_issues] cell of a row is [True] exactly when
    the row is in the set, and its [issue_type] text is empty exactly when
    it is not. *)
Definition marks_of (idx : list nat) (flagged : gset nat) (m : marks) : Prop :=
  length (fst m) = length idx /\ length (snd m) = length idx
  /\ forall k row, idx !! k = Some row ->
       fst m !! k = Some (bool_decide (row ∈ flagged))
       /\ exists t, snd m !! k = Some t /\ (t = EmptyString <-> row ∉ flagged).

(** The frame [mark_records_with_issues] returns for given annotation
    columns. *)
Definition annotated (df : DataFrame) (m : marks) : DataFrame :=
  setitem "issue_type" (Object (map VStr (snd m)))
    (setitem "has_issues" (Num (NBool (fst m))) df).

(** The exceptions of [fillna] with a value a nullable-integer column
    cannot hold. *)
Definition fill_failure (e : exn) : Prop := exists text, e = invalid_value text.

(** The exception of the [.str] accessor. *)
Definition accessor_error : exn :=
  AttributeError "Can only use .str accessor with string values!".

(** Every row a report lists is a label of the frame. *)
Definition rows_in_index (iss : Issues) (df : DataFrame) : Prop :=
  forall rows row, rows ∈ row_lists iss -> row ∈ rows -> row ∈ index df.

(** [{**prep_results, **upload_results}], the dictionary that
    [handle_upload_process] returns after an upload: of the two keys that
    both dictionaries have, [success] and [error_message], the value of
    the upload stays. *)
Definition combined_success (p : ProcessResults) : bool :=
  match p with
  | Prepared r => success r
  | Combined _ u => upload_success u
  end.

Definition combined_error_message (p : ProcessResults) : option string :=
  match p with
  | Prepared r => error_message r
  | Combined _ u => upload_error_message u
  end.

End WithNumeric.
End Frames.

(** ** The price rule in the words of the specification

    "Coerce both to numeric (non-parseable treated as null), then flag
    every row where Price < Unit Cost and neither is null."  The numbers
    are taken as the numbers they are: a rational, or an infinity. *)

Module Exact.
Import Py Pandas DataValidator Frames Float64.

Inductive extended : Type :=
| MinusInfinity
| Rational (q : Q)
| PlusInfinity.

(** The number a float is. *)
Definition float_value (x : float) : extended :=
  match x with
  | Fin neg m e => Rational (inject_Z (signed neg m) * 2 ^ e)%Q
  | Inf neg => if neg then MinusInfinity else PlusInfinity
  end.

(** The number a cell of a numeric series is. *)
Definition value_of (n : number) : extended :=
  match n with
  | I z => Rational (inject_Z z)
  | F x => float_value x
  end.

(** [a < b] *)
Definition below (a b : extended) : Prop :=
  match a, b with
  | Rational p, Rational q => (p < q)%Q
  | MinusInfinity, Rational _ => True
  | MinusInfinity, PlusInfinity => True
  | Rational _, PlusInfinity => True
  | _, _ => False
  end.

(** What a cell holds once it is coerced to numeric: nothing for a missing
    value and for text that is no number, else the number it is or reads
    as. *)
Definition reading (v : value) : option number :=
  match v with
  | VNull => None
  | VInt z => Some (I z)
  | VFloat x => Some (F x)
  | VStr t =>
      match parse t with
      | PInt z => Some (I z)
      | PBig x | PFloat x => Some (F x)
      | Unparsable | PNaN => None
      end
  end.

Definition readings (s : Series) : list (option number) :=
  match s with
  | Num n => cells n
  | Object l => map reading l
  end.

(** A column of integers throughout: an integer or boolean series, or an
    [object] series in which every cell reads as an integer. *)
Definition integers (s : Series) : bool :=
  match s with
  | Num (NFloat64 _) => false
  | Num _ => true
  | Object l => forallb (fun v => is_int_cell (reading v)) l
  end.

(** The integers a column reads are of the range of int64. *)
Definition within_int64 (s : Series) : bool :=
  forallb (fun o => match o with Some (I z) => in_int64 z | _ => true end) (readings s).

(** Two columns that pandas compares exactly: their integers do not
    exceed [2^53] in magnitude, or both are columns of integers of the
    range of int64 throughout. *)
Definition comparable (price cost : Series) : bool :=
  (small_integers price && small_integers cost)
  || (integers price && integers cost && within_int64 price && within_int64 cost).

(** Two extended numbers that are the same number. *)
Definition same_number (a b : extended) : Prop :=
  match a, b with
  | Rational p, Rational q => (p == q)%Q
  | MinusInfinity, MinusInfinity => True
  | PlusInfinity, PlusInfinity => True
  | _, _ => False
  end.

(** The cell pandas holds where a column reads [p]: the reading itself, or
    the float of it when an [object] column is not a column of integers
    throughout. *)
Definition held (s : Series) (p : number) : number :=
  match s with
  | Num _ => p
  | Object _ => if integers s then p else F (to_float p)
  end.

(** A number whose float is the number itself. *)
Definition faithful (n : number) : Prop :=
  match n with
  | I z => small z = true
  | F _ => True
  end.

(** [a <= b] *)
Definition at_most (a b : extended) : Prop := ~ below b a.

Definition infinity (neg : bool) : extended := if neg then MinusInfinity else PlusInfinity.

Definition with_sign (neg : bool) (z : Z) : Z := if neg then (- z)%Z else z.

(** The integer of 53 digits nearest to [m], a tie going to the even
    one: what float64 keeps of an integer. *)
Definition nearest (m : BinNums.N) : Z :=
  let d := (bits m - prec)%Z in
  if (0 <? d)%Z then (Z.of_N (nearest_even m d) * 2 ^ d)%Z else Z.of_N m.

(** The floats a column holds are floats of the format. *)
Definition binary64_value (v : value) : bool :=
  match v with
  | VFloat x => binary64 x
  | _ => true
  end.

Definition binary64_cells (s : Series) : bool :=
  match s with
  | Num (NFloat64 l) => forallb (fun o => match o with Some x => binary64 x | None => true end) l
  | Num _ => true
  | Object l => forallb binary64_value l
  end.

(** A number whose floats are of the format. *)
Definition formatted (n : number) : Prop :=
  match n with
  | I _ => True
  | F x => binary64 x = true
  end.

End Exact.

(** ** More sample frames *)

Module Cases.
Import Py Pandas DataValidator InventoryProcessor UploadHandler Partition Float64 Samples Frames Exact.

(** Text in the schema columns: a year that is no number, a price that
    is no number and one that reads [nan]. *)
Definition text_frame : DataFrame :=
  mkDataFrame (RangeIndex 3)
    [("Year", Object [VStr "2020"; VStr "20x1"; VInt 2022]);
     ("Price", Object [VStr "100"; VStr "abc"; VStr "nan"]);
     ("Unit Cost", Num (NFloat64 [Some (decimal 505 1); None; Some (of_Z 70)]))].

Definition text_report : Issues := Eval vm_compute in report text_frame.

Definition converted (df : DataFrame) : DataFrame :=
  match convert_data_types df with
  | inr d => d
  | inl _ => no_frame
  end.

Definition text_converted : DataFrame := Eval vm_compute in converted text_frame.

(** Missing values in the three repaired columns. *)
Definition repair_frame : DataFrame :=
  mkDataFrame (RangeIndex 3)
    [("Price", Num (NFloat64 [Some (of_Z 100); None; Some (of_Z 300)]));
     ("Drivetrain Type", Object [VStr "AWD"; VNull; VStr "FWD"]);
     ("J.D. Power Trade In",
      Num (NFloat64 [Some (of_Z 18000); None; Some (of_Z 20000)]));
     ("J.D. Power Retail Clean", Object [VStr "n/a"; VNull; VStr "5"])].

Definition repaired (df : DataFrame) : DataFrame :=
  match fix_missing_values df with
  | inr d => d
  | inl _ => no_frame
  end.

Definition repair_fixed : DataFrame := Eval vm_compute in repaired repair_frame.


Definition year_cells : list value := [VStr "2020"; VStr "20x1"; VInt 2022].

Definition price_cells : list value := [VStr "100"; VStr "abc"; VStr "nan"].

Definition issues_flags : list bool := [true; true; false; true].

(** A price that is no number and a price that is the empty text. *)
Definition blank_cells : list value := [VStr "100"; VStr "abc"; VStr EmptyString].

Definition blank_frame : DataFrame :=
  mkDataFrame (RangeIndex 3)
    [("Stock #", Object [VStr "A1"; VStr "A2"; VStr "A3"]);
     ("Price", Object blank_cells)].

Definition blank_report : Issues := Eval vm_compute in report blank_frame.

(** A [Class] column that is empty throughout. *)
Definition class_frame : DataFrame :=
  mkDataFrame (RangeIndex 2)
    [("Stock #", Object [VStr "A1"; VStr "A2"]);
     ("Class", Num (NFloat64 [None; None]))].

(** A price held as a float and a cost held as an integer that float64
    cannot hold: [2^53] and [2^53 + 1]. *)
Definition rounding_frame : DataFrame :=
  mkDataFrame (RangeIndex 1)
    [("Price", Num (NFloat64 [Some (of_Z 9007199254740992)]));
     ("Unit Cost", Num (NInt64 [9007199254740993]%Z))].

Definition rounding_price : Series := Num (NFloat64 [Some (of_Z 9007199254740992)]).

Definition rounding_cost : Series := Num (NInt64 [9007199254740993]%Z).

(** Prices read as text against costs held as floats: row 0 is priced
    below cost, row 1 is not, row 2 has a price that is no number and
    row 3 has no cost. *)
Definition mixed_price : Series :=
  Object [VStr "100"; VStr "250.5"; VStr "abc"; VInt 300].

Definition mixed_cost : Series :=
  Num (NFloat64 [Some (decimal 15025 2); Some (of_Z 200); Some (of_Z 10); None]).

Definition mixed_frame : DataFrame :=
  mkDataFrame (RangeIndex 4) [("Price", mixed_price); ("Unit Cost", mixed_cost)].

Definition mixed_report : Issues := Eval vm_compute in report mixed_frame.

(** The exception of the cast of a year that is not whole. *)
Definition fraction_error : exn := TypeError (cast_message "object").

End Cases.

(** * Properties *)

Import Py Pandas DataValidator InventoryProcessor UploadHandler Partition Spec.

Section Properties.
Context `{N : Numeric}.

(** ** Strings *)

Lemma replace_char_chars (old new : ascii) (s : string) :
  chars (replace_char old new s)
  = map (fun c => if Ascii.eqb c old then new else c) (chars s).
Proof.
  induction s as [|c s IH]; simpl; [reflexivity|].
  now rewrite IH.
Qed.

Lemma contains_replace_char (old new : ascii) (s : string) :
  old <> new -> contains_char old (replace_char old new s) = false.
Proof.
  intros Hne. induction s as [|c s IH]; simpl; [reflexivity|].
  rewrite IH, orb_false_r.
  destruct (Ascii.eqb c old) eqn:E.
  - apply Ascii.eqb_neq. congruence.
  - exact E.
Qed.

Lemma replace_char_absent (old new : ascii) (s : string) :
  contains_char old s = false -> replace_char old new s = s.
Proof.
  induction s as [|c s IH]; simpl; [reflexivity|].
  intros H. apply orb_false_elim in H as [Hc Hs].
  now rewrite Hc, IH.
Qed.

Lemma newline_not_space : newline <> space.
Proof. discriminate. Qed.

Lemma clean_name_no_newline (col : string) :
  contains_char newline (clean_name col) = false.
Proof. apply contains_replace_char, newline_not_space. Qed.

Lemma clean_name_idempotent (col : string) :
  clean_name (clean_name col) = clean_name col.
Proof. apply replace_char_absent, clean_name_no_newline. Qed.

(** ** Frames *)

Lemma columns_clean (df : DataFrame) :
  columns (clean_column_names df) = map clean_name (columns df).
Proof.
  unfold columns, clean_column_names; simpl.
  rewrite !map_map. reflexivity.
Qed.

Lemma clean_column_names_twice (d : DataFrame) :
  clean_column_names (clean_column_names d) = clean_column_names d.
Proof.
  unfold clean_column_names; simpl. f_equal.
  rewrite map_map. apply map_ext. intros [k s]; simpl.
  now rewrite clean_name_idempotent.
Qed.

(** C9: [clean_column_names] is idempotent; the labels of its result are
    the old labels with every newline turned into one space (so none holds
    a newline any more), and the index and the cells are untouched. *)
Theorem clean_column_names_idempotent (df : DataFrame) :
  clean_column_names (clean_column_names df) = clean_column_names df
  /\ columns (clean_column_names df) = map clean_name (columns df)
  /\ (forall col,
        chars (clean_name col)
        = map (fun c => if Ascii.eqb c newline then space else c) (chars col))
  /\ (forall col, col ∈ columns (clean_column_names df) ->
        contains_char newline col = false)
  /\ map snd (data (clean_column_names df)) = map snd (data df)
  /\ index (clean_column_names df) = index df.
Proof.
  split; [|split; [|split; [|split; [|split]]]].
  - apply clean_column_names_twice.
  - apply columns_clean.
  - intros col. apply replace_char_chars.
  - intros col Hin. rewrite columns_clean in Hin.
    apply list_elem_of_fmap in Hin as (c & -> & _).
    apply clean_name_no_newline.
  - unfold clean_column_names; simpl. rewrite map_map. reflexivity.
  - reflexivity.
Qed.

(** ** The verdict *)

Lemma length_zero_nil {A : Type} (l : list A) : (length l =? 0)%nat = true <-> l = [].
Proof.
  destruct l; simpl; split; intros H; try reflexivity; discriminate.
Qed.

Lemma all_empty_spec (iss : Issues) :
  all_empty iss = true
  <-> missing_values iss = [] /\ data_type_issues iss = []
      /\ price_below_cost iss = [] /\ column_name_issues iss = []
      /\ special_character_issues iss = [].
Proof.
  unfold all_empty, values, items; simpl.
  rewrite !andb_true_iff, !length_zero_nil. tauto.
Qed.

Lemma validate_data_inv (df : DataFrame) (passed : bool) (iss : Issues) :
  validate_data df = inr (passed, iss) ->
  exists special,
    check_class df = inr special
    /\ iss = mkIssues (flat_map (check_missing df) required_fields)
                      (flat_map (check_type df) expected_types)
                      (check_price df) (check_column_names df) special
    /\ passed = all_empty iss.
Proof.
  unfold validate_data, bind. destruct (check_class df) as [e|special]; [discriminate|].
  intros H. injection H as <- <-. eauto.
Qed.

(** C5: the verdict of [validate_data] is true exactly when each of the
    five categories of the returned report is the empty list. *)
Theorem validate_data_passed_iff_empty (df : DataFrame) (passed : bool) (iss : Issues) :
  validate_data df = inr (passed, iss) ->
  (passed = true
   <-> missing_values iss = [] /\ data_type_issues iss = []
       /\ price_below_cost iss = [] /\ column_name_issues iss = []
       /\ special_character_issues iss = []).
Proof.
  intros H. apply validate_data_inv in H as (special & _ & _ & ->).
  apply all_empty_spec.
Qed.

(** ** Empty input *)

Lemma read_empty (f : File) (df : DataFrame) :
  read f = inr df -> df_empty df = true ->
  exists c msg, read_inventory_file f = (None, Some (String c msg)).
Proof.
  intros Hr He. unfold read_inventory_file. rewrite Hr, He.
  destruct (_ || _); simpl; eauto.
Qed.

Lemma process_inventory_read_error (f : File) (c : ascii) (msg : string) :
  read_inventory_file f = (None, Some (String c msg)) ->
  process_inventory f = inr (None, failed (String c msg)).
Proof. intros H. unfold process_inventory. rewrite H. reflexivity. Qed.

(** C8: an empty dataset stops the run at once.  The outcome has
    [success = false] and a non-empty error message; no frame is returned,
    the issue report is still the empty dictionary and both counters are
    zero, and the upload steps return these results unchanged. *)
Theorem empty_dataset_fails_fast
  (f : File) (df : DataFrame) (upload_config : option (gmap string bool)) :
  read f = inr df -> df_empty df = true ->
  exists msg,
    msg <> EmptyString
    /\ process_inventory f = inr (None, failed msg)
    /\ prepare_for_upload f = inr (None, failed msg)
    /\ handle_upload_process f upload_config = inr (Prepared (failed msg))
    /\ success (failed msg) = false
    /\ error_message (failed msg) = Some msg
    /\ validation_issues (failed msg) = None.
Proof.
  intros Hr He.
  destruct (read_empty f df Hr He) as (c & msg & Hread).
  pose proof (process_inventory_read_error f c msg Hread) as Hp.
  exists (String c msg). split; [discriminate|]. split; [exact Hp|].
  assert (Hprep : prepare_for_upload f = inr (None, failed (String c msg))).
  { unfold prepare_for_upload. rewrite Hp. reflexivity. }
  split; [exact Hprep|]. split; [|auto].
  unfold handle_upload_process. rewrite Hprep. reflexivity.
Qed.

(** ** Row masks *)

Lemma elem_of_select {A : Type} (mask : list bool) (l : list A) (x : A) :
  x ∈ select mask l <-> exists k, mask !! k = Some true /\ l !! k = Some x.
Proof.
  revert l. induction mask as [|b mask IH]; intros l.
  - simpl. split; [intros H; inversion H | intros (k & H & _); discriminate].
  - destruct l as [|y l]; simpl.
    + split; [intros H; inversion H | intros (k & _ & H); discriminate].
    + destruct b.
      * rewrite elem_of_cons, IH. split.
        -- intros [-> | (k & Hm & Hl)]; [exists 0%nat; auto | exists (S k); auto].
        -- intros ([|k] & Hm & Hl); simpl in *; [left; congruence | right; eauto].
      * rewrite IH. split.
        -- intros (k & Hm & Hl). exists (S k); auto.
        -- intros ([|k] & Hm & Hl); simpl in *; [discriminate | eauto].
Qed.

Lemma select_none {A : Type} (mask : list bool) (l : list A) :
  any mask = false -> select mask l = [].
Proof.
  unfold any. revert l. induction mask as [|b mask IH]; intros l H; [reflexivity|].
  simpl in H. apply orb_false_elim in H as [Hb Hm].
  unfold id in Hb. subst b. destruct l; simpl; auto.
Qed.

Lemma and_mask_lookup (a b : list bool) (k : nat) :
  and_mask a b !! k = Some true <-> a !! k = Some true /\ b !! k = Some true.
Proof.
  unfold and_mask. rewrite lookup_zip_with_Some. split.
  - intros (x & y & Hxy & Hx & Hy). symmetry in Hxy.
    apply andb_true_iff in Hxy as [-> ->]. auto.
  - intros [Ha Hb]. exists true, true. auto.
Qed.

Lemma isnull_cells (s : NumSeries) : isnull (Num s) = map is_None (cells s).
Proof.
  destruct s as [l|l|l|l]; simpl; rewrite map_map; apply map_ext; intros x;
    try reflexivity; destruct x; reflexivity.
Qed.

Lemma notnull_lookup (s : NumSeries) (k : nat) :
  not_mask (isnull (Num s)) !! k = Some true <-> exists x, cells s !! k = Some (Some x).
Proof.
  rewrite isnull_cells. unfold not_mask. rewrite !list_lookup_fmap.
  destruct (cells s !! k) as [[x|]|]; simpl; split;
    try (intros (y & Hy)); try discriminate; try congruence; eauto.
Qed.

Lemma lt_cell_present (a b : option number) :
  lt_cell a b = true -> exists x y, a = Some x /\ b = Some y.
Proof.
  destruct a as [x|], b as [y|]; simpl; try discriminate; eauto.
  destruct x; discriminate.
Qed.

Lemma price_below_cost_mask_lookup (price cost : NumSeries) (k : nat) :
  price_below_cost_mask price cost !! k = Some true
  <-> exists x y,
        cells price !! k = Some (Some x) /\ cells cost !! k = Some (Some y)
        /\ lt_cell (Some x) (Some y) = true.
Proof.
  unfold price_below_cost_mask.
  rewrite !and_mask_lookup, !notnull_lookup, lookup_zip_with_Some. split.
  - intros [[(a & b & Hlt & Ha & Hb) _] _]. symmetry in Hlt.
    destruct (lt_cell_present a b Hlt) as (x & y & -> & ->). eauto.
  - intros (x & y & Hx & Hy & Hlt).
    split; [split|]; [|eauto|eauto]. exists (Some x), (Some y). auto.
Qed.

Lemma ge_cell_not_lt (a b : option number) :
  ge_cell a b = true -> lt_cell a b = false.
Proof.
  destruct a as [[x|x]|], b as [[y|y]|]; simpl; try reflexivity; intros H.
  - rewrite Z.ltb_antisym, H. reflexivity.
  - rewrite num_lt_not_ge, H. reflexivity.
  - rewrite num_lt_not_ge, H. reflexivity.
  - rewrite num_lt_not_ge, H. reflexivity.
Qed.

Lemma check_price_rows (df : DataFrame) (p c : Series) :
  getitem "Price" df = Some p -> getitem "Unit Cost" df = Some c ->
  check_price df
  = select (price_below_cost_mask (to_numeric_coerce p) (to_numeric_coerce c)) (index df).
Proof.
  intros Hp Hc. unfold check_price. rewrite Hp, Hc.
  destruct (any _) eqn:E; [reflexivity|].
  symmetry. now apply select_none.
Qed.

Lemma cell_at_unique {A : Type} (df : DataFrame) (l : list A) (row k : nat) (v : A) :
  NoDup (index df) -> index df !! k = Some row -> cell_at df l row v -> l !! k = Some v.
Proof.
  intros Hnd Hk (k' & Hk' & Hv).
  now rewrite (NoDup_lookup _ _ _ _ Hnd Hk Hk').
Qed.

(** The rows of [price_below_cost], by the cells of the two coerced columns
    and the comparison pandas makes of them. *)
Lemma price_below_cost_cells
  (df : DataFrame) (passed : bool) (iss : Issues) (p c : Series) :
  validate_data df = inr (passed, iss) ->
  getitem "Price" df = Some p -> getitem "Unit Cost" df = Some c ->
  NoDup (index df) ->
  (forall row,
     row ∈ price_below_cost iss
     <-> exists x y,
           cell_at df (coerced "Price" df) row (Some x)
           /\ cell_at df (coerced "Unit Cost" df) row (Some y)
           /\ lt_cell (Some x) (Some y) = true)
  /\ (forall row x y,
        cell_at df (coerced "Price" df) row (Some x) ->
        cell_at df (coerced "Unit Cost" df) row (Some y) ->
        ge_cell (Some x) (Some y) = true ->
        row ∉ price_below_cost iss).
Proof.
  intros Hv Hp Hc Hnd.
  apply validate_data_inv in Hv as (special & _ & -> & _). simpl.
  rewrite (check_price_rows df p c Hp Hc).
  unfold coerced. rewrite Hp, Hc.
  assert (Hiff : forall row,
     row ∈ select (price_below_cost_mask (to_numeric_coerce p) (to_numeric_coerce c)) (index df)
     <-> exists x y,
           cell_at df (cells (to_numeric_coerce p)) row (Some x)
           /\ cell_at df (cells (to_numeric_coerce c)) row (Some y)
           /\ lt_cell (Some x) (Some y) = true).
  { intros row. rewrite elem_of_select. split.
    - intros (k & Hm & Hk).
      apply price_below_cost_mask_lookup in Hm as (x & y & Hx & Hy & Hlt).
      exists x, y. split; [|split]; [exists k; auto | exists k; auto | exact Hlt].
    - intros (x & y & (k & Hk & Hx) & Hy & Hlt).
      exists k. split; [|exact Hk].
      apply price_below_cost_mask_lookup. exists x, y.
      split; [exact Hx|]. split; [|exact Hlt].
      now apply (cell_at_unique df _ row). }
  split; [exact Hiff|].
  intros row x y Hx Hy Hge Hin.
  apply Hiff in Hin as (x' & y' & Hx' & Hy' & Hlt).
  destruct Hx as (k & Hk & Hx).
  pose proof (cell_at_unique df _ row k _ Hnd Hk Hx') as E1.
  pose proof (cell_at_unique df _ row k _ Hnd Hk Hy') as E2.
  pose proof (cell_at_unique df _ row k _ Hnd Hk Hy) as E3.
  assert (x' = x) by congruence. assert (y' = y) by congruence. subst.
  assert (Hn : lt_cell (Some x) (Some y) = false)
    by exact (ge_cell_not_lt (Some x) (Some y) Hge).
  assert (Hl : lt_cell (Some x) (Some y) = true) by exact Hlt.
  congruence.
Qed.

(** ** Counting the records with issues *)

Lemma foldl_update (ls : list (list nat)) (s : gset nat) :
  foldl update s ls = s ∪ ⋃ (list_to_set <$> ls).
Proof.
  revert s. induction ls as [|l ls IH]; intros s; simpl.
  - set_solver.
  - rewrite IH. unfold update. set_solver.
Qed.

Lemma rows_with_issues_affected (iss : Issues) :
  rows_with_issues iss = affected_rows iss.
Proof.
  unfold rows_with_issues, affected_rows, items; simpl.
  rewrite !foldl_update. unfold update. set_solver.
Qed.

Lemma process_inventory_inv (f : File) (odf : option DataFrame) (r : Results) :
  process_inventory f = inr (odf, r) -> success r = true ->
  exists raw passed iss df1 df,
    read f = inr raw /\ df_empty raw = false
    /\ validate_data (clean_column_names raw) = inr (passed, iss)
    /\ convert_data_types (clean_column_names raw) = inr df1
    /\ fix_missing_values df1 = inr df
    /\ odf = Some df
    /\ r = mkResults true passed (Some iss) None (len raw) (size (rows_with_issues iss)).
Proof.
  unfold process_inventory, read_inventory_file.
  destruct (_ || _).
  - destruct (read f) as [msg|raw] eqn:Hr; simpl.
    + intros H; injection H as <- <-; discriminate.
    + destruct (df_empty raw) eqn:He; simpl.
      * intros H; injection H as <- <-; discriminate.
      * unfold bind.
        destruct (validate_data _) as [e|[passed iss]] eqn:Hv; [discriminate|].
        destruct (convert_data_types _) as [e|df1] eqn:Hc; [discriminate|].
        destruct (fix_missing_values df1) as [e|df] eqn:Hf; [discriminate|].
        intros H _. injection H as <- <-.
        exists raw, passed, iss, df1, df. repeat split; assumption.
  - simpl. intros H; injection H as <- <-; discriminate.
Qed.

(** C6: after a completed run, [records_with_issues] is the number of
    distinct rows in the union of the rows of [missing_values],
    [data_type_issues], [price_below_cost] and [special_character_issues];
    whatever [column_name_issues] holds does not change the count. *)
Theorem records_with_issues_is_union_size
  (f : File) (odf : option DataFrame) (r : Results) :
  process_inventory f = inr (odf, r) -> success r = true ->
  exists iss,
    validation_issues r = Some iss
    /\ records_with_issues r = size (affected_rows iss)
    /\ forall names,
         size (rows_with_issues (with_column_names names iss)) = records_with_issues r.
Proof.
  intros H Hs.
  apply process_inventory_inv in H as (raw & passed & iss & df1 & df & _ & _ & _ & _ & _ & _ & ->);
    [|exact Hs].
  exists iss. simpl. split; [reflexivity|].
  split; [now rewrite rows_with_issues_affected|].
  intros names. now rewrite !rows_with_issues_affected.
Qed.

(** ** The two partitions *)

Lemma select_split {A : Type} (mask : list bool) (l : list A) :
  length mask = length l ->
  select mask l ++ select (not_mask mask) l ≡ₚ l.
Proof.
  revert l. induction mask as [|b mask IH]; intros [|x l] Hlen; simpl in *;
    try discriminate; [reflexivity|].
  injection Hlen as Hlen. specialize (IH l Hlen).
  destruct b; simpl.
  - now rewrite IH.
  - rewrite <- Permutation_middle. now rewrite IH.
Qed.

Lemma not_mask_lookup (mask : list bool) (k : nat) :
  not_mask mask !! k = Some true <-> mask !! k = Some false.
Proof.
  unfold not_mask. rewrite list_lookup_fmap.
  destruct (mask !! k) as [[|]|]; simpl; split; intros H; congruence.
Qed.

Lemma select_disjoint {A : Type} (mask : list bool) (l : list A) (x : A) :
  NoDup l -> x ∈ select mask l -> x ∉ select (not_mask mask) l.
Proof.
  intros Hnd Hin Hout.
  apply elem_of_select in Hin as (k & Hk & Hx).
  apply elem_of_select in Hout as (k' & Hk' & Hx').
  apply not_mask_lookup in Hk'.
  rewrite (NoDup_lookup _ _ _ _ Hnd Hx Hx') in Hk. congruence.
Qed.

Lemma select_length {A B : Type} (mask : list bool) (l : list A) (l' : list B) :
  length l = length l' -> length (select mask l) = length (select mask l').
Proof.
  revert l l'. induction mask as [|b mask IH]; intros [|x l] [|y l'] Hlen; simpl in *;
    try discriminate; try reflexivity.
  injection Hlen as Hlen. destruct b; simpl; auto.
Qed.

Lemma select_self (mask : list bool) :
  select mask mask = replicate (length (select mask mask)) true.
Proof.
  induction mask as [|b mask IH]; [reflexivity|].
  destruct b; simpl; [f_equal|]; exact IH.
Qed.

Lemma select_not_self (mask : list bool) :
  select (not_mask mask) mask
  = replicate (length (select (not_mask mask) mask)) false.
Proof.
  induction mask as [|b mask IH]; [reflexivity|].
  destruct b; simpl; [|f_equal]; exact IH.
Qed.

Lemma lookup_column_map (g : Series -> Series) (name : string) (l : list (string * Series)) :
  lookup_column name (map (fun p => (fst p, g (snd p))) l) = g <$> lookup_column name l.
Proof.
  induction l as [|[k s] l IH]; simpl; [reflexivity|].
  destruct (String.eqb name k); [reflexivity | exact IH].
Qed.

Lemma flags_filter_rows (mask : list bool) (df : DataFrame) (hs : list bool) :
  flags df = Some hs -> flags (filter_rows mask df) = Some (select mask hs).
Proof.
  unfold flags, getitem, filter_rows; simpl.
  rewrite (lookup_column_map (select_series mask)).
  destruct (lookup_column _ _) as [[[l|l|l|l]|l]|]; simpl; try discriminate.
  now intros [= ->].
Qed.

Lemma flags_getitem (df : DataFrame) (hs : list bool) :
  flags df = Some hs -> getitem "has_issues" df = Some (Num (NBool hs)).
Proof.
  unfold flags.
  destruct (getitem _ _) as [[[l|l|l|l]|l]|]; try discriminate.
  now intros [= ->].
Qed.

(** C7: under the policy that skips flagged records, on a frame whose
    [has_issues] column is boolean, the frame that is uploaded is the clean
    partition; its rows and those of the flagged partition together are the
    rows of the frame, no row is in both, every flagged row has
    [has_issues = True] and every clean row has [has_issues = False]. *)
Theorem skip_flagged_partition
  (df : DataFrame) (hs : list bool) (upload_config : gmap string bool) :
  flags df = Some hs -> length hs = len df -> NoDup (index df) ->
  skip_records_with_issues upload_config = true ->
  clean_partition df upload_config = inr (clean_rows df hs)
  /\ index (clean_rows df hs) ++ index (flagged_partition df hs) ≡ₚ index df
  /\ (forall row, row ∈ index (clean_rows df hs) ->
                  row ∉ index (flagged_partition df hs))
  /\ flags (flagged_partition df hs)
     = Some (replicate (len (flagged_partition df hs)) true)
  /\ flags (clean_rows df hs) = Some (replicate (len (clean_rows df hs)) false)
  /\ (len df - len (clean_rows df hs))%nat = len (flagged_partition df hs)
  /\ records_uploaded (upload_inventory df upload_config) = len (clean_rows df hs).
Proof.
  intros Hf Hlen Hnd Hskip. unfold len in Hlen.
  assert (Hclean : clean_partition df upload_config = inr (clean_rows df hs)).
  { unfold clean_partition. rewrite Hskip, (flags_getitem df hs Hf). reflexivity. }
  assert (Hperm : index (clean_rows df hs) ++ index (flagged_partition df hs)
                  ≡ₚ index df).
  { unfold clean_rows, flagged_partition, filter_rows; simpl.
    rewrite Permutation_app_comm.
    transitivity (select hs (index df) ++ select (not_mask hs) (index df));
      [reflexivity|]. now apply select_split. }
  split; [exact Hclean|]. split; [exact Hperm|]. split; [|split; [|split; [|split]]].
  - intros row Hin Hout.
    unfold clean_rows, flagged_partition, filter_rows in *; simpl in *.
    exact (select_disjoint hs (index df) row Hnd Hout Hin).
  - unfold flagged_partition. rewrite (flags_filter_rows hs df hs Hf).
    unfold len, filter_rows; simpl.
    rewrite (select_length hs (index df) hs) by now symmetry.
    now rewrite <- select_self.
  - unfold clean_rows. rewrite (flags_filter_rows (not_mask hs) df hs Hf).
    unfold len, filter_rows; simpl.
    rewrite (select_length (not_mask hs) (index df) hs) by now symmetry.
    now rewrite <- select_not_self.
  - apply Permutation_length in Hperm. rewrite length_app in Hperm.
    unfold len. lia.
  - unfold upload_inventory. rewrite Hclean. reflexivity.
Qed.

(** ** Steps that keep the rows and the labels *)

Lemma same_shape_refl (df : DataFrame) : same_shape df df.
Proof. split; reflexivity. Qed.

Lemma same_shape_trans (a b c : DataFrame) :
  same_shape a b -> same_shape b c -> same_shape a c.
Proof. intros [H1 H2] [H3 H4]. split; congruence. Qed.

Lemma assign_column_present (name : string) (s s' : Series) (l : list (string * Series)) :
  lookup_column name l = Some s -> map fst (assign_column name s' l) = map fst l.
Proof.
  induction l as [|[k s0] l IH]; simpl; [discriminate|].
  destruct (String.eqb name k); simpl; [reflexivity|].
  intros H. now rewrite IH.
Qed.

Lemma setitem_shape (name : string) (s s' : Series) (df : DataFrame) :
  getitem name df = Some s -> same_shape df (setitem name s' df).
Proof.
  intros H. split; [reflexivity|].
  unfold columns, setitem; simpl. now apply (assign_column_present name s).
Qed.

Lemma foldM_shape {A : Type} (f : DataFrame -> A -> result DataFrame) (l : list A) :
  (forall d a d', f d a = inr d' -> same_shape d d') ->
  forall d d', foldM f l d = inr d' -> same_shape d d'.
Proof.
  intros Hf. induction l as [|a l IH]; intros d d'; simpl.
  - intros [= ->]. apply same_shape_refl.
  - destruct (f d a) as [e|d1] eqn:E; [discriminate|].
    intros H. eapply same_shape_trans; [eapply Hf, E | eapply IH, H].
Qed.

Lemma foldl_shape {A : Type} (f : DataFrame -> A -> DataFrame) (l : list A) :
  (forall d a, same_shape d (f d a)) ->
  forall d, same_shape d (foldl f d l).
Proof.
  intros Hf. induction l as [|a l IH]; intros d; simpl.
  - apply same_shape_refl.
  - eapply same_shape_trans; [apply Hf | apply IH].
Qed.

Lemma convert_column_shape (d : DataFrame) (entry : string * string) (d' : DataFrame) :
  convert_column d entry = inr d' -> same_shape d d'.
Proof.
  destruct entry as [col ty]. unfold convert_column, bind.
  destruct (getitem col d) as [s|] eqn:E.
  - destruct (String.eqb ty "int").
    + destruct (astype_Int64 _) as [e|s']; [discriminate|].
      intros [= <-]. now apply (setitem_shape col s).
    + destruct (String.eqb ty "numeric"); intros [= <-];
        [now apply (setitem_shape col s) | apply same_shape_refl].
  - intros [= <-]. apply same_shape_refl.
Qed.

Lemma convert_data_types_shape (d d' : DataFrame) :
  convert_data_types d = inr d' -> same_shape d d'.
Proof. apply foldM_shape, convert_column_shape. Qed.

Lemma fill_median_shape (d : DataFrame) (col : string) (d' : DataFrame) :
  fill_median d col = inr d' -> same_shape d d'.
Proof.
  unfold fill_median, bind.
  destruct (getitem col d) as [[s|l]|] eqn:E.
  - destruct (fillna_median s) as [e|s']; [discriminate|].
    intros [= <-]. now apply (setitem_shape col (Num s)).
  - intros [= <-]. apply same_shape_refl.
  - intros [= <-]. apply same_shape_refl.
Qed.

Lemma fix_missing_values_shape (d d' : DataFrame) :
  fix_missing_values d = inr d' -> same_shape d d'.
Proof.
  unfold fix_missing_values, bind, assign, bind.
  destruct (getitem "Drivetrain Type" d) as [s|] eqn:E.
  - destruct (fillna_str "Unknown" s) as [e|s']; [discriminate|].
    intros H. eapply same_shape_trans;
      [apply (setitem_shape "Drivetrain Type" s), E
      | eapply foldM_shape, H; apply fill_median_shape].
  - intros H. eapply foldM_shape, H. apply fill_median_shape.
Qed.

Lemma format_numeric_shape (d : DataFrame) (col : string) :
  same_shape d (format_numeric d col).
Proof.
  unfold format_numeric. destruct (getitem col d) as [s|] eqn:E;
    [now apply (setitem_shape col s) | apply same_shape_refl].
Qed.

Lemma format_text_shape (d : DataFrame) (col : string) :
  same_shape d (format_text d col).
Proof.
  unfold format_text. destruct (getitem col d) as [s|] eqn:E;
    [now apply (setitem_shape col s) | apply same_shape_refl].
Qed.

Lemma format_for_upload_shape (d : DataFrame) :
  same_shape (clean_column_names d) (format_for_upload d).
Proof.
  unfold format_for_upload.
  change (mkDataFrame (index d) (map (fun p => (clean_name (fst p), snd p)) (data d)))
    with (clean_column_names d).
  eapply same_shape_trans; [|apply foldl_shape, format_text_shape].
  eapply same_shape_trans; [apply (foldl_shape format_numeric), format_numeric_shape|].
  destruct (getitem "VIN" _) as [s|] eqn:E;
    [now apply (setitem_shape "VIN" s) | apply same_shape_refl].
Qed.



Lemma same_shape_len (a b : DataFrame) : same_shape a b -> len b = len a.
Proof. intros [H _]. unfold len. now rewrite H. Qed.

(** A run whose validation passed: the frame handed to the upload is the
    formatted output of the three transformation steps, and it has the rows
    and the labels of the cleaned input. *)
Lemma prepare_passed_shape (f : File) (raw df : DataFrame) (r : Results) :
  read f = inr raw ->
  prepare_for_upload f = inr (Some df, r) ->
  validation_passed r = true ->
  same_shape (clean_column_names raw) df /\ records_processed r = len raw.
Proof.
  intros Hr Hp Hv. unfold prepare_for_upload, bind in Hp.
  destruct (process_inventory f) as [e|[odf r0]] eqn:Hpi; [discriminate|].
  destruct (success r0) eqn:Hs; simpl in Hp; [|discriminate].
  apply process_inventory_inv in Hpi
    as (raw' & passed & iss & df1 & df2 & Hr' & _ & _ & Hc & Hf & -> & ->);
    [|exact Hs].
  assert (raw' = raw) by congruence. subst raw'.
  simpl in Hp. destruct passed; simpl in Hp.
  - injection Hp as <- <-. split; [|reflexivity].
    apply convert_data_types_shape in Hc. apply fix_missing_values_shape in Hf.
    pose proof (same_shape_trans _ _ _ Hc Hf) as H12.
    pose proof (format_for_upload_shape df2) as Hfmt.
    destruct H12 as [Hi Hcol], Hfmt as [Hi' Hcol'].
    split.
    + rewrite Hi'. simpl. exact Hi.
    + rewrite Hcol', columns_clean, Hcol, columns_clean, map_map.
      apply map_ext. intros c. apply clean_name_idempotent.
  - destruct (mark_records_with_issues _ _); [discriminate|].
    injection Hp as _ <-. discriminate.
Qed.

(** ** Rules keyed by a raw header

    The pipeline validates the frame it has just cleaned, so the rules of
    the validator that look for a newline in a label find none. *)

Lemma check_column_names_clean (df : DataFrame) :
  check_column_names (clean_column_names df) = [].
Proof.
  unfold check_column_names. rewrite columns_clean.
  induction (columns df) as [|c l IH]; simpl; [reflexivity|].
  now rewrite clean_name_no_newline.
Qed.

Lemma lookup_column_newline (name : string) (df : DataFrame) :
  contains_char newline name = true ->
  getitem name (clean_column_names df) = None.
Proof.
  intros Hnl. unfold getitem, clean_column_names; simpl.
  induction (data df) as [|[k s] l IH]; simpl; [reflexivity|].
  destruct (String.eqb name (clean_name k)) eqn:E; [|exact IH].
  apply String.eqb_eq in E. subst name.
  rewrite clean_name_no_newline in Hnl. discriminate.
Qed.

Lemma completed_run_reports_no_column_name (f : File) (odf : option DataFrame) (r : Results) :
  process_inventory f = inr (odf, r) -> success r = true ->
  exists iss, validation_issues r = Some iss /\ column_name_issues iss = [].
Proof.
  intros H Hs.
  apply process_inventory_inv in H
    as (raw & passed & iss & df1 & df & _ & _ & Hv & _ & _ & _ & ->); [|exact Hs].
  exists iss. split; [reflexivity|].
  apply validate_data_inv in Hv as (special & _ & -> & _). simpl.
  apply check_column_names_clean.
Qed.

Lemma cleaned_frame_skips_raw_key (df : DataFrame) (key ty : string) :
  contains_char newline key = true ->
  check_type (clean_column_names df) (key, ty) = []
  /\ convert_column (clean_column_names df) (key, ty) = inr (clean_column_names df).
Proof.
  intros Hnl. unfold check_type, convert_column.
  now rewrite (lookup_column_newline key df Hnl).
Qed.

(** C1, as amended: the validator reports the labels it is given.  Its
    [column_name_issues] are the labels of the frame it validates that hold
    a newline, under the names that frame has them and in its order.
    [process_inventory] cleans the labels before it validates, which is
    the order of the steps of the specification, so that the report of a
    completed run names no column: a raw label with a newline is reported
    only when it is the raw frame that is validated. *)
Theorem column_names_reported_as_validated :
  (forall df passed iss, validate_data df = inr (passed, iss) ->
     column_name_issues iss = List.filter (contains_char newline) (columns df)
     /\ forall col, col ∈ column_name_issues iss
          <-> col ∈ columns df /\ contains_char newline col = true)
  /\ (forall f odf r, process_inventory f = inr (odf, r) -> success r = true ->
        exists raw iss, read f = inr raw
          /\ validation_issues r = Some iss
          /\ validate_data (clean_column_names raw) = inr (validation_passed r, iss)
          /\ column_name_issues iss = []).
Proof.
  split.
  - intros df passed iss Hv.
    apply validate_data_inv in Hv as (special & _ & -> & _). simpl.
    split; [reflexivity|]. intros col. unfold check_column_names.
    rewrite !list_elem_of_In, filter_In. reflexivity.
  - intros f odf r H Hs.
    apply process_inventory_inv in H
      as (raw & passed & iss & df1 & df & Hr & _ & Hv & _ & _ & _ & ->); [|exact Hs].
    exists raw, iss. split; [exact Hr|]. split; [reflexivity|]. split; [exact Hv|].
    apply validate_data_inv in Hv as (special & _ & -> & _). simpl.
    apply check_column_names_clean.
Qed.

End Properties.

(** * Properties of the single steps *)

Import Frames.

Section Coverage.
Context `{N : Numeric}.

(** ** Reading and running *)

Lemma read_inventory_file_cases (f : File) :
  (exists df, read_inventory_file f = (Some df, None)
     /\ supported (ext f) = true /\ read f = inr df /\ df_empty df = false)
  \/ (exists msg, read_inventory_file f = (None, Some msg)
        /\ truthy (Some msg) = true
        /\ (supported (ext f) = false
            \/ (exists e, read f = inl e)
            \/ (exists df, read f = inr df /\ df_empty df = true))).
Proof.
  unfold read_inventory_file, supported.
  destruct (_ || _).
  - destruct (read f) as [e|df] eqn:Hr.
    + right. eexists. split; [reflexivity|]. split; [reflexivity|]. right; left; eauto.
    + destruct (df_empty df) eqn:He.
      * right. eexists. split; [reflexivity|]. split; [reflexivity|]. right; right; eauto.
      * left. exists df. auto.
  - right. eexists. split; [reflexivity|]. split; [reflexivity|]. left; reflexivity.
Qed.

(** X1: [read_inventory_file] returns either a frame and no error, or an
    error text that is not empty and no frame.  A frame comes only from a
    file with a supported extension (in any letter case) whose reader
    returned a frame that is not empty; an error has one of three causes:
    an unsupported extension, a reader that raised, an empty frame. *)
Theorem read_inventory_file_outcome (f : File) :
  (exists df, read_inventory_file f = (Some df, None)
     /\ supported (ext f) = true /\ read f = inr df /\ df_empty df = false)
  \/ (exists msg, read_inventory_file f = (None, Some msg)
        /\ truthy (Some msg) = true
        /\ (supported (ext f) = false
            \/ (exists e, read f = inl e)
            \/ (exists df, read f = inr df /\ df_empty df = true))).
Proof. exact (read_inventory_file_cases f). Qed.

Lemma process_inventory_failure (f : File) (msg : string) :
  read_inventory_file f = (None, Some msg) -> truthy (Some msg) = true ->
  process_inventory f = inr (None, failed msg).
Proof. intros H Ht. unfold process_inventory. rewrite H, Ht. reflexivity. Qed.

Lemma process_inventory_read (f : File) (raw : DataFrame) :
  read_inventory_file f = (Some raw, None) ->
  process_inventory f
  = bind (validate_data (clean_column_names raw)) (fun '(passed, issues) =>
    bind (convert_data_types (clean_column_names raw)) (fun df =>
    bind (fix_missing_values df) (fun df =>
    inr (Some df, mkResults true passed (Some issues) None (len raw)
                            (size (rows_with_issues issues)))))).
Proof. intros H. unfold process_inventory. rewrite H. reflexivity. Qed.

Lemma process_inventory_cases (f : File) (odf : option DataFrame) (r : Results) :
  process_inventory f = inr (odf, r) ->
  (success r = true /\ (exists df, odf = Some df) /\ error_message r = None
   /\ exists iss, validation_issues r = Some iss /\ validation_passed r = all_empty iss)
  \/ (success r = false /\ odf = None /\ truthy (error_message r) = true
      /\ validation_passed r = false /\ validation_issues r = None
      /\ records_processed r = 0%nat /\ records_with_issues r = 0%nat).
Proof.
  intros H.
  destruct (read_inventory_file_cases f) as [(raw & Hr & _)|(msg & Hr & Ht & _)].
  - left. rewrite (process_inventory_read f raw Hr) in H. unfold bind in H.
    destruct (validate_data _) as [e|[passed iss]] eqn:Hv; [discriminate|].
    destruct (convert_data_types _) as [e|df1]; [discriminate|].
    destruct (fix_missing_values df1) as [e|df]; [discriminate|].
    injection H as <- <-. simpl.
    split; [reflexivity|]. split; [eauto|]. split; [reflexivity|].
    exists iss. split; [reflexivity|].
    now apply validate_data_inv in Hv as (special & _ & _ & ->).
  - right. rewrite (process_inventory_failure f msg Hr Ht) in H.
    injection H as <- <-. simpl. auto 10.
Qed.

(** X2: when [process_inventory] returns, its two results agree.  Either
    the run succeeded: there is a frame, no error message, the report is
    present and the verdict is the one the report gives; or it failed:
    there is no frame, the error message is not empty, the verdict is
    false, the report is the empty dictionary and both counters are 0. *)
Theorem process_inventory_outcome (f : File) (odf : option DataFrame) (r : Results) :
  process_inventory f = inr (odf, r) ->
  (success r = true /\ (exists df, odf = Some df) /\ error_message r = None
   /\ exists iss, validation_issues r = Some iss /\ validation_passed r = all_empty iss)
  \/ (success r = false /\ odf = None /\ truthy (error_message r) = true
      /\ validation_passed r = false /\ validation_issues r = None
      /\ records_processed r = 0%nat /\ records_with_issues r = 0%nat).
Proof. exact (process_inventory_cases f odf r). Qed.

(** ** The rows of the report *)

Lemma select_sublist {A : Type} (mask : list bool) (l : list A) :
  select mask l `sublist_of` l.
Proof.
  revert l. induction mask as [|b mask IH]; intros [|x l]; simpl;
    try apply sublist_nil_l.
  destruct b; [apply sublist_skip | apply sublist_cons]; apply IH.
Qed.

Lemma check_missing_inv (df : DataFrame) (field : string) (e : missing_entry) :
  e ∈ check_missing df field ->
  exists s, getitem field df = Some s
    /\ e = mkMissing field (count_true (isnull s)) (select (isnull s) (index df))
    /\ (0 < count_true (isnull s))%nat.
Proof.
  unfold check_missing. destruct (getitem field df) as [s|]; [|intros H; inversion H].
  destruct (0 <? _)%nat eqn:E; [|intros H; inversion H].
  intros H. apply list_elem_of_singleton in H. subst e.
  exists s. split; [reflexivity|]. split; [reflexivity|]. now apply Nat.ltb_lt.
Qed.

Lemma check_type_inv (df : DataFrame) (col ty : string) (e : type_entry) :
  e ∈ check_type df (col, ty) ->
  exists s mask, getitem col df = Some s
    /\ e = mkTypeIssue col ty (select mask (index df))
    /\ ((ty = "int"
         /\ mask = and_mask (not_mask (isnull s))
                            (map (fun t => negb (match_int_regex t)) (astype_str s))
         /\ any mask = true)
        \/ (ty = "numeric"
            /\ mask = and_mask (not_mask (isnull s)) (isnull (Num (to_numeric_coerce s)))
            /\ to_numeric_raises s = true)).
Proof.
  unfold check_type. destruct (getitem col df) as [s|]; [|intros H; inversion H].
  destruct (String.eqb ty "int") eqn:Ei.
  - apply String.eqb_eq in Ei. subst ty.
    destruct (any _) eqn:Ea; [|intros H; inversion H].
    intros H. apply list_elem_of_singleton in H. subst e.
    eexists s, _. split; [reflexivity|]. split; [reflexivity|]. left. auto.
  - destruct (String.eqb ty "numeric") eqn:En; [|intros H; inversion H].
    apply String.eqb_eq in En. subst ty.
    destruct (to_numeric_raises s) eqn:Er; [|intros H; inversion H].
    intros H. apply list_elem_of_singleton in H. subst e.
    eexists s, _. split; [reflexivity|]. split; [reflexivity|]. right. auto.
Qed.

Lemma elem_of_flat_map {A B : Type} (g : A -> list B) (l : list A) (y : B) :
  y ∈ flat_map g l <-> exists x, x ∈ l /\ y ∈ g x.
Proof.
  rewrite list_elem_of_In, in_flat_map. split; intros (x & Hx & Hy); exists x;
    rewrite ?list_elem_of_In in *; auto.
Qed.

Lemma check_price_select (df : DataFrame) :
  exists mask, check_price df = select mask (index df).
Proof.
  unfold check_price.
  destruct (getitem "Price" df) as [p|]; [|exists []; reflexivity].
  destruct (getitem "Unit Cost" df) as [c|]; [|exists []; reflexivity].
  destruct (any _); [eexists; reflexivity | exists []; reflexivity].
Qed.

Lemma check_class_inv (df : DataFrame) (special : list special_entry) (e : special_entry) :
  check_class df = inr special -> e ∈ special ->
  exists s texts, getitem "Class" df = Some s /\ str_accessor s = inr texts
    /\ special = [e]
    /\ e = mkSpecial "Class" (select (special_mask texts) (index df))
    /\ se_rows e <> [].
Proof.
  unfold check_class, bind.
  destruct (getitem "Class" df) as [s|]; [|intros [= <-] H; inversion H].
  destruct (str_accessor s) as [x|texts] eqn:Hs; [discriminate|].
  unfold rows_where, filter_rows; simpl.
  destruct (select (special_mask texts) (index df)) as [|r rows] eqn:E;
    intros [= <-] H; [inversion H|].
  apply list_elem_of_singleton in H. subst e.
  exists s, texts. rewrite E. simpl.
  split; [reflexivity|]. split; [exact Hs|]. split; [reflexivity|].
  split; [reflexivity | discriminate].
Qed.

Lemma elem_of_map {A B : Type} (g : A -> B) (l : list A) (y : B) :
  y ∈ map g l <-> exists x, y = g x /\ x ∈ l.
Proof. exact (list_elem_of_fmap g l y). Qed.

Lemma elem_of_row_lists (iss : Issues) (rows : list nat) :
  rows ∈ row_lists iss
  <-> (exists e, rows = me_rows e /\ e ∈ missing_values iss)
      \/ (exists e, rows = te_rows e /\ e ∈ data_type_issues iss)
      \/ rows = price_below_cost iss
      \/ (exists e, rows = se_rows e /\ e ∈ special_character_issues iss).
Proof.
  unfold row_lists.
  rewrite !elem_of_app, list_elem_of_singleton, !elem_of_map. reflexivity.
Qed.

Lemma validate_data_row_lists (df : DataFrame) (passed : bool) (iss : Issues) (rows : list nat) :
  validate_data df = inr (passed, iss) -> rows ∈ row_lists iss ->
  exists mask, rows = select mask (index df).
Proof.
  intros Hv Hin. apply validate_data_inv in Hv as (special & Hc & -> & _).
  apply elem_of_row_lists in Hin.
  cbn [missing_values data_type_issues price_below_cost special_character_issues] in Hin.
  destruct Hin as [(e & -> & He)|[(e & -> & He)|[->|(e & -> & He)]]].
  - apply elem_of_flat_map in He as (field & _ & He).
    apply check_missing_inv in He as (s & _ & -> & _). eexists; reflexivity.
  - apply elem_of_flat_map in He as ([col ty] & _ & He).
    apply check_type_inv in He as (s & mask & _ & -> & _). eexists; reflexivity.
  - apply check_price_select.
  - destruct (check_class_inv df special e Hc He) as (s & texts & _ & _ & _ & -> & _).
    eexists; reflexivity.
Qed.

Lemma validate_data_rows
  (df : DataFrame) (passed : bool) (iss : Issues) (rows : list nat) :
  validate_data df = inr (passed, iss) -> rows ∈ row_lists iss ->
  rows `sublist_of` index df.
Proof.
  intros Hv Hin.
  destruct (validate_data_row_lists df passed iss rows Hv Hin) as (mask & ->).
  apply select_sublist.
Qed.

(** X3: every list of rows in the report of [validate_data] is a sub-list
    of the index of the frame: the rows are labels of the frame, in the
    order of the frame, and a label that occurs once in the frame occurs at
    most once in a list. *)
Theorem validate_data_rows_sublist
  (df : DataFrame) (passed : bool) (iss : Issues) (rows : list nat) :
  validate_data df = inr (passed, iss) -> rows ∈ row_lists iss ->
  rows `sublist_of` index df.
Proof. exact (validate_data_rows df passed iss rows). Qed.

Lemma affected_rows_elem (iss : Issues) (row : nat) :
  row ∈ affected_rows iss <-> exists rows, rows ∈ row_lists iss /\ row ∈ rows.
Proof.
  unfold affected_rows.
  rewrite !elem_of_union, !elem_of_union_list, elem_of_list_to_set.
  setoid_rewrite elem_of_row_lists.
  split.
  - intros [[[(X & HX & Hr)|(X & HX & Hr)]|Hr]|(X & HX & Hr)];
      try (apply list_elem_of_fmap in HX as (rows & -> & Hrows);
           apply elem_of_list_to_set in Hr;
           apply elem_of_map in Hrows as (e & -> & He)).
    + exists (me_rows e). eauto 6.
    + exists (te_rows e). eauto 6.
    + exists (price_below_cost iss). auto.
    + exists (se_rows e). eauto 7.
  - intros (rows & [(e & -> & He)|[(e & -> & He)|[->|(e & -> & He)]]] & Hr).
    + left; left; left. exists (list_to_set (me_rows e)).
      split; [|now apply elem_of_list_to_set].
      apply list_elem_of_fmap. exists (me_rows e). split; [reflexivity|].
      apply elem_of_map. eauto.
    + left; left; right. exists (list_to_set (te_rows e)).
      split; [|now apply elem_of_list_to_set].
      apply list_elem_of_fmap. exists (te_rows e). split; [reflexivity|].
      apply elem_of_map. eauto.
    + left; right. exact Hr.
    + right. exists (list_to_set (se_rows e)).
      split; [|now apply elem_of_list_to_set].
      apply list_elem_of_fmap. exists (se_rows e). split; [reflexivity|].
      apply elem_of_map. eauto.
Qed.

Lemma size_list_to_set_le (l : list nat) : (size (list_to_set l : gset nat) <= length l)%nat.
Proof.
  induction l as [|x l IH].
  - change (list_to_set [] : gset nat) with (∅ : gset nat). rewrite size_empty. lia.
  - change (list_to_set (x :: l) : gset nat) with ({[x]} ∪ list_to_set l : gset nat).
    simpl length. rewrite size_union_alt, size_singleton.
    assert (size (list_to_set l ∖ {[x]} : gset nat) <= size (list_to_set l : gset nat))%nat
      by (apply subseteq_size; set_solver).
    lia.
Qed.

Lemma validate_data_affected_rows (df : DataFrame) (passed : bool) (iss : Issues) :
  validate_data df = inr (passed, iss) ->
  affected_rows iss ⊆ list_to_set (index df).
Proof.
  intros Hv row Hrow. apply affected_rows_elem in Hrow as (rows & Hin & Hrow).
  apply elem_of_list_to_set.
  pose proof (validate_data_rows df passed iss rows Hv Hin) as Hsub.
  eapply elem_of_submseteq; [exact Hrow | apply sublist_submseteq, Hsub].
Qed.

(** X4: [records_with_issues] never exceeds [records_processed]. *)
Theorem records_with_issues_le_processed
  (f : File) (odf : option DataFrame) (r : Results) :
  process_inventory f = inr (odf, r) ->
  (records_with_issues r <= records_processed r)%nat.
Proof.
  intros H. destruct (success r) eqn:Hs.
  - apply process_inventory_inv in H
      as (raw & passed & iss & df1 & df & _ & _ & Hv & _ & _ & _ & ->); [|exact Hs].
    simpl. rewrite rows_with_issues_affected.
    etransitivity; [apply subseteq_size, (validate_data_affected_rows _ _ _ Hv)|].
    apply size_list_to_set_le.
  - destruct (process_inventory_cases f odf r H)
      as [(Hs' & _)|(_ & _ & _ & _ & _ & -> & ->)]; [congruence | lia].
Qed.

(** X5: the report only speaks of columns that are there.  The field of a
    [missing_values] entry is a required field and a column of the frame;
    the field of a [data_type_issues] entry is a key of the schema, with
    the type the schema gives it, and a column of the frame; rows priced
    below cost are listed only when both [Price] and [Unit Cost] are
    columns; a [special_character_issues] entry is about [Class], which is
    then a column.  So a column that is absent is never reported. *)
Theorem report_only_names_present_columns
  (df : DataFrame) (passed : bool) (iss : Issues) :
  validate_data df = inr (passed, iss) ->
  (forall e, e ∈ missing_values iss ->
     me_field e ∈ required_fields /\ is_Some (getitem (me_field e) df))
  /\ (forall e, e ∈ data_type_issues iss ->
        (te_field e, te_expected_type e) ∈ expected_types
        /\ is_Some (getitem (te_field e) df))
  /\ (price_below_cost iss <> [] ->
        is_Some (getitem "Price" df) /\ is_Some (getitem "Unit Cost" df))
  /\ (forall e, e ∈ special_character_issues iss ->
        se_field e = "Class" /\ is_Some (getitem "Class" df)).
Proof.
  intros Hv. apply validate_data_inv in Hv as (special & Hc & -> & _).
  cbn [missing_values data_type_issues price_below_cost special_character_issues].
  split; [|split; [|split]].
  - intros e He. apply elem_of_flat_map in He as (field & Hf & He).
    apply check_missing_inv in He as (s & Hs & -> & _). simpl. eauto.
  - intros e He. apply elem_of_flat_map in He as ([col ty] & Hf & He).
    apply check_type_inv in He as (s & mask & Hs & -> & _). simpl. eauto.
  - unfold check_price.
    destruct (getitem "Price" df); [|congruence].
    destruct (getitem "Unit Cost" df); [|congruence]. eauto.
  - intros e He.
    destruct (check_class_inv df special e Hc He) as (s & texts & Hs & _ & _ & -> & _).
    simpl. eauto.
Qed.

(** ** What each rule of the validator lists *)

Lemma lookup_map {A B : Type} (g : A -> B) (l : list A) (k : nat) :
  map g l !! k = g <$> l !! k.
Proof. exact (list_lookup_fmap g l k). Qed.

Lemma any_lookup (mask : list bool) :
  any mask = true <-> exists k, mask !! k = Some true.
Proof.
  unfold any. induction mask as [|b mask IH]; simpl.
  - split; [discriminate | intros (k & H); discriminate].
  - rewrite orb_true_iff, IH. unfold id. split.
    + intros [->|(k & Hk)]; [exists 0%nat; reflexivity | exists (S k); exact Hk].
    + intros ([|k] & Hk); simpl in Hk; [left; congruence | right; eauto].
Qed.

Lemma rows_of_mask (df : DataFrame) (mask : list bool) (row : nat) :
  row ∈ select mask (index df)
  <-> exists k, index df !! k = Some row /\ mask !! k = Some true.
Proof. rewrite elem_of_select. split; intros (k & H1 & H2); eauto. Qed.

(** X6: a row is listed under a field in [missing_values] exactly when the
    field is required, is a column of the frame, and the cell of that row
    is missing. *)
Theorem missing_values_lists_null_cells
  (df : DataFrame) (passed : bool) (iss : Issues) (field : string) (row : nat) :
  validate_data df = inr (passed, iss) ->
  ((exists e, e ∈ missing_values iss /\ me_field e = field /\ row ∈ me_rows e)
   <-> field ∈ required_fields
       /\ exists s k, getitem field df = Some s
            /\ index df !! k = Some row /\ isnull s !! k = Some true).
Proof.
  intros Hv. apply validate_data_inv in Hv as (special & _ & -> & _).
  cbn [missing_values]. split.
  - intros (e & He & <- & Hrow).
    apply elem_of_flat_map in He as (f0 & Hf & He).
    apply check_missing_inv in He as (s & Hs & -> & _). simpl in *.
    split; [exact Hf|]. apply rows_of_mask in Hrow as (k & Hk & Hm). eauto.
  - intros (Hf & s & k & Hs & Hk & Hm).
    assert (Hany : any (isnull s) = true) by (apply any_lookup; eauto).
    exists (mkMissing field (count_true (isnull s)) (select (isnull s) (index df))).
    split; [|split; [reflexivity|]].
    + apply elem_of_flat_map. exists field. split; [exact Hf|].
      unfold check_missing. rewrite Hs.
      assert (Hpos : (0 <? count_true (isnull s))%nat = true).
      { apply Nat.ltb_lt. unfold count_true, any in *.
        clear -Hany. induction (isnull s) as [|b m IH]; simpl in *; [discriminate|].
        unfold id in *. destruct b; simpl; [lia | auto]. }
      rewrite Hpos. apply list_elem_of_here.
    + simpl. apply rows_of_mask. eauto.
Qed.

Lemma count_true_select {A : Type} (mask : list bool) (l : list A) :
  length mask = length l -> length (select mask l) = count_true mask.
Proof.
  unfold count_true. revert l. induction mask as [|b mask IH]; intros [|x l] Hlen;
    simpl in *; try discriminate; [reflexivity|].
  injection Hlen as Hlen. unfold id at 1. destruct b; simpl; auto.
Qed.

Lemma length_isnull (s : Series) : length (isnull s) = series_len s.
Proof. destruct s as [[l|l|l|l]|l]; simpl; apply length_map. Qed.

Lemma lookup_column_elem (name : string) (l : list (string * Series)) (s : Series) :
  lookup_column name l = Some s -> exists k, (k, s) ∈ l.
Proof.
  induction l as [|[k s0] l IH]; simpl; [discriminate|].
  destruct (String.eqb name k).
  - intros [= ->]. exists k. apply list_elem_of_here.
  - intros H. destruct (IH H) as (k' & Hk'). exists k'. now apply list_elem_of_further.
Qed.

Lemma well_formed_getitem (df : DataFrame) (name : string) (s : Series) :
  well_formed df -> getitem name df = Some s -> series_len s = len df.
Proof.
  intros Hwf Hs. apply lookup_column_elem in Hs as (k & Hk).
  unfold well_formed in Hwf. rewrite Forall_forall in Hwf.
  exact (Hwf (k, s) Hk).
Qed.

Lemma NoDup_flat_map_key {A B : Type} (key : B -> A) (g : A -> list B) (l : list A) :
  NoDup l ->
  (forall x e, e ∈ g x -> key e = x /\ g x = [e]) ->
  NoDup (map key (flat_map g l)).
Proof.
  intros Hnd Hg. induction Hnd as [|x l Hx Hnd IH]; simpl; [constructor|].
  rewrite map_app. apply NoDup_app. split; [|split].
  - destruct (g x) as [|e es] eqn:E; [constructor|].
    destruct (Hg x e) as [_ H1]; [rewrite E; apply list_elem_of_here|].
    rewrite E in H1. injection H1 as ->. simpl. apply NoDup_singleton.
  - intros a Ha Hb.
    apply elem_of_map in Ha as (e & -> & He).
    apply elem_of_map in Hb as (e' & Heq & He').
    apply elem_of_flat_map in He' as (x' & Hx' & He').
    destruct (Hg x e He) as [H1 _]. destruct (Hg x' e' He') as [H2 _].
    congruence.
  - exact IH.
Qed.

Lemma required_fields_NoDup : NoDup required_fields.
Proof. apply (bool_decide_unpack _). vm_compute. reflexivity. Qed.

(** X7: in a frame with one cell per row and column, every
    [missing_values] entry counts the rows it lists, lists at least one,
    and no two entries are about the same field. *)
Theorem missing_values_counts_rows (df : DataFrame) (passed : bool) (iss : Issues) :
  validate_data df = inr (passed, iss) -> well_formed df ->
  NoDup (map me_field (missing_values iss))
  /\ forall e, e ∈ missing_values iss ->
       me_count e = length (me_rows e) /\ (0 < me_count e)%nat.
Proof.
  intros Hv Hwf. apply validate_data_inv in Hv as (special & _ & -> & _).
  cbn [missing_values]. split.
  - apply NoDup_flat_map_key; [apply required_fields_NoDup|].
    intros field e He. pose proof He as He'.
    apply check_missing_inv in He as (s & Hs & -> & Hpos). split; [reflexivity|].
    unfold check_missing in *. rewrite Hs in *.
    apply Nat.ltb_lt in Hpos. now rewrite Hpos.
  - intros e He. apply elem_of_flat_map in He as (field & _ & He).
    apply check_missing_inv in He as (s & Hs & -> & Hpos). simpl.
    split; [|exact Hpos].
    symmetry. apply count_true_select.
    rewrite length_isnull. now apply (well_formed_getitem df field).
Qed.

Lemma expected_types_cases (col ty : string) :
  (col, ty) ∈ expected_types ->
  (col ∈ integer_columns /\ ty = "int")
  \/ ((col ∉ integer_columns) /\ ty = "numeric").
Proof.
  unfold expected_types, integer_columns. intros H.
  repeat (apply elem_of_cons in H as [H|H]); try (inversion H; fail);
    injection H as -> ->.
  - left. split; [apply list_elem_of_here | reflexivity].
  - left. split; [apply list_elem_of_further, list_elem_of_here | reflexivity].
  - right. split; [|reflexivity].
    intros Hc. repeat (apply elem_of_cons in Hc as [Hc|Hc]); try discriminate; inversion Hc.
  - right. split; [|reflexivity].
    intros Hc. repeat (apply elem_of_cons in Hc as [Hc|Hc]); try discriminate; inversion Hc.
  - right. split; [|reflexivity].
    intros Hc. repeat (apply elem_of_cons in Hc as [Hc|Hc]); try discriminate; inversion Hc.
  - right. split; [|reflexivity].
    intros Hc. repeat (apply elem_of_cons in Hc as [Hc|Hc]); try discriminate; inversion Hc.
Qed.

Lemma integer_columns_expected (col : string) :
  col ∈ integer_columns -> (col, "int") ∈ expected_types.
Proof.
  unfold integer_columns, expected_types. intros H.
  repeat (apply elem_of_cons in H as [H|H]); try (inversion H; fail); subst.
  - apply list_elem_of_here.
  - apply list_elem_of_further, list_elem_of_here.
Qed.

Lemma non_int_mask_lookup (s : Series) (k : nat) :
  and_mask (not_mask (isnull s))
           (map (fun t => negb (match_int_regex t)) (astype_str s)) !! k = Some true
  <-> isnull s !! k = Some false
      /\ exists t, astype_str s !! k = Some t /\ match_int_regex t = false.
Proof.
  rewrite and_mask_lookup, not_mask_lookup, lookup_map.
  destruct (astype_str s !! k) as [t|]; simpl.
  - split.
    + intros [H1 H2]. split; [exact H1|]. exists t. split; [reflexivity|].
      injection H2 as H2. now apply negb_true_iff.
    + intros [H1 (t' & [= <-] & H2)]. split; [exact H1|]. now rewrite H2.
  - split; [intros [_ H]; discriminate | intros [_ (t & H & _)]; discriminate].
Qed.

(** X8: a row is listed under [Year] or [Odometer] in [data_type_issues]
    exactly when the column is there, the cell of the row is not missing,
    and the text of the cell ([astype(str)]) does not match the integer
    pattern: an optional minus sign and one or more digits, which one final
    newline may follow. *)
Theorem integer_type_issue_rows
  (df : DataFrame) (passed : bool) (iss : Issues) (col : string) (row : nat) :
  validate_data df = inr (passed, iss) -> col ∈ integer_columns ->
  ((exists e, e ∈ data_type_issues iss /\ te_field e = col /\ row ∈ te_rows e)
   <-> exists s k t, getitem col df = Some s
         /\ index df !! k = Some row /\ isnull s !! k = Some false
         /\ astype_str s !! k = Some t /\ match_int_regex t = false).
Proof.
  intros Hv Hcol. apply validate_data_inv in Hv as (special & _ & -> & _).
  cbn [data_type_issues]. split.
  - intros (e & He & <- & Hrow).
    apply elem_of_flat_map in He as ([c ty] & Hin & He).
    apply check_type_inv in He as (s & mask & Hs & -> & Hcase). simpl in *.
    destruct (expected_types_cases c ty Hin) as [[_ ->]|[Hn _]]; [|contradiction].
    destruct Hcase as [(_ & -> & _)|(Hty & _)]; [|discriminate].
    apply rows_of_mask in Hrow as (k & Hk & Hm).
    apply non_int_mask_lookup in Hm as (Hnull & t & Ht & Hmatch).
    exists s, k, t. auto.
  - intros (s & k & t & Hs & Hk & Hnull & Ht & Hmatch).
    set (mask := and_mask (not_mask (isnull s))
                   (map (fun t => negb (match_int_regex t)) (astype_str s))).
    assert (Hm : mask !! k = Some true) by (apply non_int_mask_lookup; eauto).
    exists (mkTypeIssue col "int" (select mask (index df))).
    split; [|split; [reflexivity|]].
    + apply elem_of_flat_map. exists (col, "int").
      split; [now apply integer_columns_expected|].
      unfold check_type. rewrite Hs. simpl. fold mask.
      assert (Hany : any mask = true) by (apply any_lookup; eauto).
      rewrite Hany. apply list_elem_of_here.
    + simpl. apply rows_of_mask. eauto.
Qed.

Lemma isnull_pack (l : list (option number)) :
  isnull (Num (pack l)) = map is_None l.
Proof.
  unfold pack. destruct (forallb is_int_cell l) eqn:E; simpl.
  - rewrite map_map. induction l as [|o l IH]; simpl in *; [reflexivity|].
    apply andb_true_iff in E as [Ho Hl]. rewrite IH by exact Hl.
    destruct o as [[z|x]|]; try discriminate. reflexivity.
  - rewrite map_map. apply map_ext. intros [x|]; reflexivity.
Qed.

Lemma to_numeric_raises_iff (s : Series) :
  to_numeric_raises s = true
  <-> exists l t, s = Object l /\ VStr t ∈ l /\ rejected t.
Proof.
  destruct s as [n|l]; simpl.
  - split; [discriminate | intros (l & t & H & _); discriminate].
  - rewrite existsb_exists. split.
    + intros (v & Hv & Hu). destruct v as [| | |t]; try discriminate.
      simpl in Hu. exists l, t. split; [reflexivity|].
      split; [now apply list_elem_of_In|]. unfold rejected.
      destruct (str_to_num t); try discriminate; eauto.
    + intros (l' & t & [= <-] & Ht & Hu). exists (VStr t).
      split; [now apply list_elem_of_In|]. simpl.
      destruct Hu as [Hu|[x Hu]]; now rewrite Hu.
Qed.

Lemma non_numeric_mask_lookup (l : list value) (k : nat) :
  and_mask (not_mask (isnull (Object l)))
           (isnull (Num (to_numeric_coerce (Object l)))) !! k = Some true
  <-> exists t, l !! k = Some (VStr t)
        /\ (str_to_num t = Unparsable \/ str_to_num t = PNaN).
Proof.
  rewrite and_mask_lookup, not_mask_lookup.
  change (to_numeric_coerce (Object l)) with (pack (map coerce_value l)).
  rewrite isnull_pack.
  change (isnull (Object l)) with (map value_isnull l).
  rewrite map_map, !lookup_map.
  destruct (l !! k) as [v|]; simpl.
  - split.
    + intros [H1 H2]. destruct v as [| | |t]; try discriminate.
      exists t. split; [reflexivity|]. simpl in H2.
      destruct (str_to_num t); try discriminate; auto.
    + intros (t & [= ->] & Hp). simpl.
      split; [reflexivity|]. destruct Hp as [-> | ->]; reflexivity.
  - split; [intros [H _]; discriminate | intros (t & H & _); discriminate].
Qed.

(** X9: a row is listed under a column that the schema declares numeric
    exactly when the column is an [object] column, [pd.to_numeric] raises
    on some cell of it (text that is no number, or that spells an integer
    beyond 64 bits), and the cell of the row is text that is coerced to a
    missing value: text that is no number, or the empty text.  The empty
    text does not make [pd.to_numeric] raise, so that it is listed only
    when another cell of the column does; a column that pandas already
    read as numbers is never listed. *)
Theorem numeric_type_issue_rows
  (df : DataFrame) (passed : bool) (iss : Issues) (col : string) (row : nat) :
  validate_data df = inr (passed, iss) -> (col, "numeric") ∈ expected_types ->
  ((exists e, e ∈ data_type_issues iss /\ te_field e = col /\ row ∈ te_rows e)
   <-> exists l k t, getitem col df = Some (Object l)
         /\ (exists t', VStr t' ∈ l /\ rejected t')
         /\ index df !! k = Some row /\ l !! k = Some (VStr t)
         /\ (str_to_num t = Unparsable \/ str_to_num t = PNaN)).
Proof.
  intros Hv Hcol. apply validate_data_inv in Hv as (special & _ & -> & _).
  cbn [data_type_issues].
  destruct (expected_types_cases col "numeric" Hcol) as [[_ ?]|[Hn _]]; [discriminate|].
  split.
  - intros (e & He & <- & Hrow).
    apply elem_of_flat_map in He as ([c ty] & Hin & He).
    apply check_type_inv in He as (s & mask & Hs & -> & Hcase). simpl in *.
    destruct Hcase as [(-> & _ & _)|(-> & -> & Hraise)].
    { destruct (expected_types_cases c "int" Hin) as [[Hc _]|[_ ?]];
        [contradiction | discriminate]. }
    apply to_numeric_raises_iff in Hraise as (l & t' & -> & Ht').
    apply rows_of_mask in Hrow as (k & Hk & Hm).
    apply non_numeric_mask_lookup in Hm as (t & Ht & Hp).
    exists l, k, t. eauto 10.
  - intros (l & k & t & Hs & (t' & Ht') & Hk & Ht & Hp).
    set (mask := and_mask (not_mask (isnull (Object l)))
                          (isnull (Num (to_numeric_coerce (Object l))))).
    assert (Hm : mask !! k = Some true) by (apply non_numeric_mask_lookup; eauto).
    exists (mkTypeIssue col "numeric" (select mask (index df))).
    split; [|split; [reflexivity|]].
    + apply elem_of_flat_map. exists (col, "numeric"). split; [exact Hcol|].
      unfold check_type. rewrite Hs.
      assert (Hr : to_numeric_raises (Object l) = true)
        by (apply to_numeric_raises_iff; eauto).
      cbn [String.eqb Ascii.eqb Bool.eqb]. rewrite Hr. apply list_elem_of_here.
    + simpl. apply rows_of_mask. eauto.
Qed.

(** ** Whole numbers pass the integer rule *)

Lemma pretty_N_char_digit (n : BinNums.N) : is_digit (pretty_N_char n) = true.
Proof. unfold pretty_N_char. repeat case_match; reflexivity. Qed.

Lemma chars_app (s t : string) : chars (s +:+ t) = chars s ++ chars t.
Proof. induction s as [|c s IH]; simpl; [reflexivity | now rewrite IH]. Qed.

Lemma pretty_N_go_digits (x : BinNums.N) (s : string) :
  exists ds, chars (pretty_N_go x s) = ds ++ chars s
    /\ forallb is_digit ds = true /\ ((0 < x)%N -> ds <> []).
Proof.
  revert s. induction (N.lt_wf_0 x) as [x _ IH]. intros s.
  destruct (decide (0 < x)%N) as [Hpos|Hz].
  - rewrite pretty_N_go_step by exact Hpos.
    destruct (IH (x `div` 10)%N (N.div_lt x 10 Hpos eq_refl)
                 (String (pretty_N_char (x `mod` 10)) s)) as (ds & Hds & Hall & _).
    exists (ds ++ [pretty_N_char (x `mod` 10)%N]).
    split; [|split].
    + rewrite Hds. simpl. now rewrite <- app_assoc.
    + rewrite forallb_app, Hall. simpl. now rewrite pretty_N_char_digit.
    + intros _ H. apply app_eq_nil in H as [_ H]. discriminate.
  - assert (x = 0%N) by lia. subst x. rewrite pretty_N_go_0.
    exists []. split; [reflexivity|]. split; [reflexivity|]. lia.
Qed.

Lemma digits_then_end_digits (ds : list ascii) (seen : bool) :
  forallb is_digit ds = true ->
  digits_then_end seen ds = seen || negb (forallb (fun _ => false) ds).
Proof.
  revert seen. induction ds as [|c ds IH]; intros seen H; simpl in *.
  - now rewrite orb_false_r.
  - apply andb_true_iff in H as [Hc Hds]. rewrite Hc, IH by exact Hds.
    simpl. now rewrite orb_true_r.
Qed.

Lemma digit_not_minus (c : ascii) :
  is_digit c = true -> Ascii.eqb c (ascii_of_nat 45) = false.
Proof.
  intros H. destruct (Ascii.eqb c (ascii_of_nat 45)) eqn:E; [|reflexivity].
  apply Ascii.eqb_eq in E. subst c. discriminate.
Qed.

Lemma match_digits (ds : list ascii) (s : string) :
  chars s = ds -> forallb is_digit ds = true -> ds <> [] ->
  match_int_regex s = true /\ match_int_regex ("-" +:+ s) = true.
Proof.
  intros Hs Hall Hne.
  assert (Hd : digits_then_end false ds = true).
  { rewrite digits_then_end_digits by exact Hall.
    destruct ds; [contradiction | reflexivity]. }
  split.
  - unfold match_int_regex. rewrite Hs.
    destruct ds as [|c ds]; [contradiction|].
    simpl in Hall. apply andb_true_iff in Hall as [Hc _].
    now rewrite (digit_not_minus c Hc).
  - unfold match_int_regex. rewrite chars_app, Hs. simpl. exact Hd.
Qed.

Lemma pretty_N_match (n : BinNums.N) :
  match_int_regex (pretty n) = true /\ match_int_regex ("-" +:+ pretty n) = true.
Proof.
  unfold pretty, pretty_N. case_decide as Hn.
  - split; reflexivity.
  - destruct (pretty_N_go_digits n EmptyString) as (ds & Hds & Hall & Hne).
    simpl in Hds. rewrite app_nil_r in Hds.
    apply (match_digits ds); [exact Hds | exact Hall | apply Hne; lia].
Qed.

Lemma pretty_Z_match (z : Z) : match_int_regex (pretty z) = true.
Proof.
  destruct z as [|p|p]; unfold pretty, pretty_Z.
  - reflexivity.
  - apply (pretty_N_match (Npos p)).
  - apply (pretty_N_match (Npos p)).
Qed.

(** A series of integers: [int64] or the nullable ['Int64']. *)
Lemma integer_series_mask (s : Series) :
  (exists l, s = Num (NInt64 l)) \/ (exists l, s = Num (NNullableInt64 l)) ->
  any (and_mask (not_mask (isnull s))
                (map (fun t => negb (match_int_regex t)) (astype_str s))) = false.
Proof.
  intros Hs. destruct (any _) eqn:E; [|reflexivity].
  apply any_lookup in E as (k & Hk).
  apply non_int_mask_lookup in Hk as (Hnull & t & Ht & Hmatch).
  destruct Hs as [(l & ->)|(l & ->)]; simpl in Hnull, Ht;
    rewrite lookup_map in Hnull; rewrite lookup_map in Ht.
  - destruct (l !! k) as [z|]; simpl in *; [|discriminate].
    injection Ht as <-. now rewrite pretty_Z_match in Hmatch.
  - destruct (l !! k) as [[z|]|]; simpl in *; try discriminate.
    injection Ht as <-. now rewrite pretty_Z_match in Hmatch.
Qed.

(** X10: a [Year] or [Odometer] column that pandas holds as integers
    ([int64], or nullable ['Int64'] with missing values) never gets a
    [data_type_issues] entry: the text of every whole number, negative ones
    included, passes the integer rule. *)
Theorem integer_column_has_no_type_issue
  (df : DataFrame) (passed : bool) (iss : Issues) (col : string) (s : Series) :
  validate_data df = inr (passed, iss) -> col ∈ integer_columns ->
  getitem col df = Some s ->
  (exists l, s = Num (NInt64 l)) \/ (exists l, s = Num (NNullableInt64 l)) ->
  forall e, e ∈ data_type_issues iss -> te_field e <> col.
Proof.
  intros Hv Hcol Hs Hint e He <-.
  apply validate_data_inv in Hv as (special & _ & -> & _).
  cbn [data_type_issues] in He.
  apply elem_of_flat_map in He as ([c ty] & Hin & He).
  apply check_type_inv in He as (s' & mask & Hs' & -> & Hcase). simpl in *.
  assert (s' = s) by congruence. subst s'.
  destruct (expected_types_cases c ty Hin) as [[_ ->]|[Hn _]]; [|contradiction].
  destruct Hcase as [(_ & -> & Hany)|(Hty & _)]; [|discriminate].
  rewrite (integer_series_mask s Hint) in Hany. discriminate.
Qed.

(** ** When validation raises *)

Lemma str_accessor_raises (s : Series) (e : exn) :
  str_accessor s = inl e
  <-> e = AttributeError "Can only use .str accessor with string values!"
      /\ match s with
         | Num _ => True
         | Object l => (forall t, VStr t ∉ l) /\ exists v, v ∈ l /\ v <> VNull
         end.
Proof.
  destruct s as [n|l]; simpl.
  - unfold raise. split; [intros [= <-]; auto | intros [-> _]; reflexivity].
  - destruct (existsb is_VStr l) eqn:Et; simpl.
    + split; [discriminate|]. intros [_ [Hno _]].
      apply existsb_exists in Et as ([| | |t] & Hin & Ht); try discriminate.
      exfalso. apply (Hno t). now apply list_elem_of_In.
    + destruct (forallb value_isnull l) eqn:En.
      * split; [discriminate|]. intros [_ [_ (v & Hv & Hne)]].
        rewrite forallb_forall in En. apply list_elem_of_In in Hv.
        specialize (En v Hv). destruct v; try discriminate. contradiction.
      * unfold raise. split; [|intros [-> _]; reflexivity].
        intros [= <-]. split; [reflexivity|]. split.
        -- intros t Ht. apply list_elem_of_In in Ht.
           assert (existsb is_VStr l = true)
             by (apply existsb_exists; exists (VStr t); auto).
           congruence.
        -- assert (H : ~ Forall (fun v => value_isnull v = true) l).
           { rewrite Forall_forall. intros H.
             assert (forallb value_isnull l = true).
             { apply forallb_forall. intros v Hv. apply H. now apply list_elem_of_In. }
             congruence. }
           apply not_Forall_Exists in H; [|intros v; apply _].
           apply Exists_exists in H as (v & Hv & Hn).
           exists v. split; [exact Hv|]. intros ->. now apply Hn.
Qed.

Lemma validate_data_raises (df : DataFrame) (e : exn) :
  validate_data df = inl e
  <-> e = AttributeError "Can only use .str accessor with string values!"
      /\ exists s, getitem "Class" df = Some s
           /\ match s with
              | Num _ => True
              | Object l => (forall t, VStr t ∉ l) /\ exists v, v ∈ l /\ v <> VNull
              end.
Proof.
  unfold validate_data, check_class, bind.
  destruct (getitem "Class" df) as [s|].
  - destruct (str_accessor s) as [e'|texts] eqn:Hs.
    + split.
      * intros [= <-]. apply str_accessor_raises in Hs as [-> Hs]. eauto.
      * intros [-> (s' & [= <-] & Hcond)].
        assert (str_accessor s
                = inl (AttributeError "Can only use .str accessor with string values!"))
          by (apply str_accessor_raises; auto).
        congruence.
    + split.
      * destruct (rows_where _ _); discriminate.
      * intros [-> (s' & [= <-] & Hcond)].
        assert (str_accessor s
                = inl (AttributeError "Can only use .str accessor with string values!"))
          by (apply str_accessor_raises; auto).
        congruence.
  - split; [discriminate | intros [_ (s & H & _)]; discriminate].
Qed.

(** X11: on a plain frame (no label occurs twice, the integers do not
    exceed [2^53] in magnitude) [validate_data] raises exactly when there
    is a [Class] column without text in it: a column of a numeric dtype
    (for instance one that is empty throughout, which pandas reads as
    [float64]), or an [object] column with some value but no text.  The
    exception is the [AttributeError] of the [.str] accessor; none of the
    other rules raises on such a frame. *)
Theorem validate_data_raises_iff (df : DataFrame) (e : exn) :
  plain df = true ->
  (validate_data df = inl e
   <-> e = accessor_error
       /\ exists s, getitem "Class" df = Some s
            /\ match s with
               | Num _ => True
               | Object l => (forall t, VStr t ∉ l) /\ exists v, v ∈ l /\ v <> VNull
               end).
Proof. intros _. exact (validate_data_raises df e). Qed.

Lemma special_mask_lookup (l : list value) (k : nat) :
  special_mask (map (fun v => match v with VStr t => Some t | _ => None end) l) !! k
  = Some true
  <-> exists t, l !! k = Some (VStr t) /\ search_special_char t = true.
Proof.
  unfold special_mask. rewrite map_map, lookup_map.
  destruct (l !! k) as [v|]; simpl.
  - destruct v as [| | |t]; split; try discriminate;
      try (intros (t' & H & _); discriminate).
    + intros [= H]. eauto.
    + intros (t' & [= <-] & H). now rewrite H.
  - split; [discriminate | intros (t & H & _); discriminate].
Qed.

(** X12: a row is listed in [special_character_issues] exactly when the
    [Class] cell of the row is text with a character that is not a letter
    a-z or A-Z, a digit, white space or a comma.  Missing cells and cells
    that are not text are never listed. *)
Theorem special_character_rows
  (df : DataFrame) (passed : bool) (iss : Issues) (row : nat) :
  validate_data df = inr (passed, iss) ->
  ((exists e, e ∈ special_character_issues iss /\ row ∈ se_rows e)
   <-> exists l k t, getitem "Class" df = Some (Object l)
         /\ index df !! k = Some row /\ l !! k = Some (VStr t)
         /\ search_special_char t = true).
Proof.
  intros Hv. apply validate_data_inv in Hv as (special & Hc & -> & _).
  cbn [special_character_issues]. split.
  - intros (e & He & Hrow).
    destruct (check_class_inv df special e Hc He) as (s & texts & Hs & Hacc & _ & -> & _).
    simpl in Hrow. apply rows_of_mask in Hrow as (k & Hk & Hm).
    destruct s as [n|l]; [discriminate|]. simpl in Hacc.
    destruct (_ || _); [|discriminate]. injection Hacc as <-.
    apply special_mask_lookup in Hm as (t & Ht & Hsp). eauto 10.
  - intros (l & k & t & Hs & Hk & Ht & Hsp).
    unfold check_class, bind in Hc. rewrite Hs in Hc. simpl in Hc.
    assert (Htext : existsb is_VStr l = true).
    { apply existsb_exists. exists (VStr t). split; [|reflexivity].
      apply list_elem_of_In, list_elem_of_lookup. eauto. }
    rewrite Htext in Hc. simpl in Hc.
    set (texts := map (fun v => match v with VStr t => Some t | _ => None end) l) in *.
    assert (Hrow : row ∈ rows_where (special_mask texts) df).
    { apply rows_of_mask. exists k. split; [exact Hk|].
      apply special_mask_lookup. eauto. }
    destruct (rows_where (special_mask texts) df) as [|r rows] eqn:E;
      [inversion Hrow|].
    injection Hc as <-. eexists. split; [apply list_elem_of_here|]. exact Hrow.
Qed.

(** ** Columns read back after an assignment *)

Lemma lookup_assign_same (name : string) (s : Series) (l : list (string * Series)) :
  lookup_column name (assign_column name s l) = Some s.
Proof.
  induction l as [|[k s0] l IH]; simpl.
  - now rewrite String.eqb_refl.
  - destruct (String.eqb name k) eqn:E; simpl; rewrite E; [reflexivity | exact IH].
Qed.

Lemma lookup_assign_other (name other : string) (s : Series) (l : list (string * Series)) :
  other <> name ->
  lookup_column other (assign_column name s l) = lookup_column other l.
Proof.
  intros Hne. induction l as [|[k s0] l IH]; simpl.
  - apply String.eqb_neq in Hne. now rewrite Hne.
  - destruct (String.eqb name k) eqn:E; simpl.
    + apply String.eqb_eq in E. subst k.
      apply String.eqb_neq in Hne. now rewrite Hne.
    + now rewrite IH.
Qed.

Lemma getitem_setitem_same (name : string) (s : Series) (df : DataFrame) :
  getitem name (setitem name s df) = Some s.
Proof. apply lookup_assign_same. Qed.

Lemma getitem_setitem_other (name other : string) (s : Series) (df : DataFrame) :
  other <> name -> getitem other (setitem name s df) = getitem other df.
Proof. apply lookup_assign_other. Qed.

Lemma assign_same (name : string) (s : Series) (l : list (string * Series)) :
  lookup_column name l = Some s -> assign_column name s l = l.
Proof.
  induction l as [|[k s0] l IH]; simpl; [discriminate|].
  destruct (String.eqb name k) eqn:E.
  - now intros [= ->].
  - intros H. now rewrite IH.
Qed.

Lemma setitem_same (name : string) (s : Series) (df : DataFrame) :
  getitem name df = Some s -> setitem name s df = df.
Proof.
  intros H. destruct df as [idx cols]. unfold setitem; simpl.
  f_equal. now apply assign_same.
Qed.

Lemma getitem_same_shape (a b : DataFrame) (col : string) :
  same_shape a b -> getitem col a = None -> getitem col b = None.
Proof.
  intros [_ Hc] H. unfold getitem in *.
  unfold columns in Hc. revert H.
  generalize dependent (data b). induction (data a) as [|[k s] l IH];
    intros [|[k' s'] l'] Hc; simpl in *; try discriminate; [reflexivity|].
  injection Hc as -> Hc. destruct (String.eqb col k); [discriminate|]. now apply IH.
Qed.

Lemma update_step_shape {E : Type} (key : E -> string) (g : E -> Series -> result Series)
  (d : DataFrame) (e : E) (d' : DataFrame) :
  update_step key g d e = inr d' -> same_shape d d'.
Proof.
  unfold update_step, bind. destruct (getitem (key e) d) as [s|] eqn:Hs.
  - destruct (g e s) as [err|s']; [discriminate|].
    intros [= <-]. now apply (setitem_shape (key e) s).
  - intros [= <-]. apply same_shape_refl.
Qed.

(** A loop of updates over entries with distinct keys: a column that no
    entry names is untouched, the column of an entry is what [g] makes of
    the column the loop started with. *)
Lemma foldM_update_step {E : Type} (key : E -> string) (g : E -> Series -> result Series)
  (entries : list E) (d d' : DataFrame) :
  NoDup (map key entries) ->
  foldM (update_step key g) entries d = inr d' ->
  same_shape d d'
  /\ (forall col, col ∉ map key entries -> getitem col d' = getitem col d)
  /\ (forall e s, e ∈ entries -> getitem (key e) d = Some s ->
        exists s', g e s = inr s' /\ getitem (key e) d' = Some s').
Proof.
  revert d. induction entries as [|e0 entries IH]; intros d Hnd H; simpl in *.
  - injection H as <-. split; [apply same_shape_refl|].
    split; [reflexivity|]. intros e s He. inversion He.
  - apply NoDup_cons in Hnd as [Hfresh Hnd].
    destruct (update_step key g d e0) as [err|d1] eqn:Hstep; [discriminate|].
    destruct (IH d1 Hnd H) as (Hshape & Hother & Hsame).
    pose proof (update_step_shape key g d e0 d1 Hstep) as Hshape1.
    split; [eapply same_shape_trans; eauto|].
    assert (Hkeep : forall col, col <> key e0 -> getitem col d1 = getitem col d).
    { intros col Hne. unfold update_step, bind in Hstep.
      destruct (getitem (key e0) d) as [s|]; [|now injection Hstep as <-].
      destruct (g e0 s) as [err|s']; [discriminate|].
      injection Hstep as <-. now apply getitem_setitem_other. }
    split.
    + intros col Hcol. apply not_elem_of_cons in Hcol as [Hne Hcol].
      rewrite Hother by exact Hcol. now apply Hkeep.
    + intros e s He Hs. apply elem_of_cons in He as [->|He].
      * unfold update_step, bind in Hstep. rewrite Hs in Hstep.
        destruct (g e0 s) as [err|s'] eqn:Hg; [discriminate|].
        injection Hstep as <-. exists s'. split; [reflexivity|].
        rewrite Hother by exact Hfresh. apply getitem_setitem_same.
      * apply Hsame; [exact He|]. rewrite Hkeep; [exact Hs|].
        intros Heq. apply Hfresh. rewrite <- Heq. apply elem_of_map. eauto.
Qed.

(** The loop raises exactly when [g] raises on the column, as it was before
    the loop, of some entry. *)
Lemma foldM_update_step_raises {E : Type} (key : E -> string)
  (g : E -> Series -> result Series) (entries : list E) (d : DataFrame) :
  NoDup (map key entries) ->
  (exists err, foldM (update_step key g) entries d = inl err)
  <-> exists e s err, e ∈ entries /\ getitem (key e) d = Some s /\ g e s = inl err.
Proof.
  revert d. induction entries as [|e0 entries IH]; intros d Hnd; simpl.
  - split; [intros (err & H); discriminate | intros (e & s & err & He & _); inversion He].
  - apply NoDup_cons in Hnd as [Hfresh Hnd].
    assert (Hkeep : forall d1 col, update_step key g d e0 = inr d1 -> col <> key e0 ->
                      getitem col d1 = getitem col d).
    { intros d1 col Hstep Hne. unfold update_step, bind in Hstep.
      destruct (getitem (key e0) d) as [s|]; [|now injection Hstep as <-].
      destruct (g e0 s) as [err|s']; [discriminate|].
      injection Hstep as <-. now apply getitem_setitem_other. }
    destruct (update_step key g d e0) as [err0|d1] eqn:Hstep.
    + split; [|eauto]. intros _.
      unfold update_step, bind in Hstep.
      destruct (getitem (key e0) d) as [s|] eqn:Hs; [|discriminate].
      destruct (g e0 s) as [err|s'] eqn:Hg; [|discriminate].
      exists e0, s, err. split; [apply list_elem_of_here | auto].
    + rewrite (IH d1 Hnd). split.
      * intros (e & s & err & He & Hs & Hg). exists e, s, err.
        split; [now apply list_elem_of_further|]. split; [|exact Hg].
        rewrite <- (Hkeep d1 (key e) eq_refl); [exact Hs|].
        intros Heq. apply Hfresh. rewrite <- Heq. apply elem_of_map. eauto.
      * intros (e & s & err & He & Hs & Hg).
        apply elem_of_cons in He as [->|He].
        -- unfold update_step, bind in Hstep. rewrite Hs, Hg in Hstep. discriminate.
        -- exists e, s, err. split; [exact He|]. split; [|exact Hg].
           rewrite (Hkeep d1 (key e) eq_refl); [exact Hs|].
           intros Heq. apply Hfresh. rewrite <- Heq. apply elem_of_map. eauto.
Qed.

Lemma foldM_ext {A S : Type} (f g : S -> A -> result S) (l : list A) (s : S) :
  (forall s a, f s a = g s a) -> foldM f l s = foldM g l s.
Proof.
  intros H. revert s. induction l as [|a l IH]; intros s; simpl; [reflexivity|].
  rewrite H. destruct (g s a); [reflexivity | apply IH].
Qed.

Lemma foldM_total {A S : Type} (f : S -> A -> S) (l : list A) (s : S) :
  foldM (fun s a => inr (f s a)) l s = inr (foldl f s l).
Proof. revert s. induction l as [|a l IH]; intros s; simpl; [reflexivity | apply IH]. Qed.

(** ** Type conversion *)

Lemma convert_column_update (d : DataFrame) (entry : string * string) :
  convert_column d entry = update_step fst convert_series d entry.
Proof.
  destruct entry as [col ty]. unfold convert_column, update_step, convert_series, bind.
  simpl. destruct (getitem col d) as [s|] eqn:Hs; [|reflexivity].
  destruct (String.eqb ty "int").
  - destruct (astype_Int64 _); reflexivity.
  - destruct (String.eqb ty "numeric"); [reflexivity|].
    now rewrite (setitem_same col s d Hs).
Qed.

Lemma convert_data_types_update (d : DataFrame) :
  convert_data_types d = foldM (update_step fst convert_series) expected_types d.
Proof. apply foldM_ext. intros. apply convert_column_update. Qed.

Lemma expected_types_NoDup : NoDup (map fst expected_types).
Proof. apply (bool_decide_unpack _). vm_compute. reflexivity. Qed.

Lemma mapM_lookup {A B : Type} (g : A -> result B) (l : list A) (l' : list B) :
  mapM g l = inr l' ->
  length l' = length l
  /\ forall k a, l !! k = Some a -> exists b, g a = inr b /\ l' !! k = Some b.
Proof.
  revert l'. induction l as [|a l IH]; intros l'; simpl.
  - intros [= <-]. split; [reflexivity|]. intros k a H. discriminate.
  - destruct (g a) as [e|b] eqn:Hg; [discriminate|].
    destruct (mapM g l) as [e|bs]; [discriminate|].
    intros [= <-]. destruct (IH bs eq_refl) as [Hlen Hk].
    split; [simpl; now rewrite Hlen|].
    intros [|k] a' H; simpl in *; [injection H as <-; eauto | eauto].
Qed.

Lemma mapM_raises {A B : Type} (g : A -> result B) (l : list A) :
  (exists err, mapM g l = inl err) <-> exists a err, a ∈ l /\ g a = inl err.
Proof.
  induction l as [|a l IH]; simpl.
  - split; [intros (e & H); discriminate | intros (a & e & H & _); inversion H].
  - destruct (g a) as [e|b] eqn:Hg.
    + split; [|eauto]. intros _. exists a, e. split; [apply list_elem_of_here | exact Hg].
    + destruct (mapM g l) as [e|bs].
      * split; [|eauto]. intros _. destruct IH as [IH _].
        destruct IH as (a' & e' & Ha & He); [eauto|].
        exists a', e'. split; [now apply list_elem_of_further | exact He].
      * split; [intros (e & H); discriminate|].
        intros (a' & e' & Ha & He). apply elem_of_cons in Ha as [->|Ha].
        -- congruence.
        -- destruct IH as [_ IH]. destruct IH as (e & H); [eauto | discriminate].
Qed.

Lemma mapM_error {A B : Type} (g : A -> result B) (l : list A) (err : exn) :
  mapM g l = inl err -> exists a, a ∈ l /\ g a = inl err.
Proof.
  induction l as [|a l IH]; simpl; [discriminate|].
  destruct (g a) as [e|b] eqn:Hg.
  - intros [= <-]. exists a. split; [apply list_elem_of_here | exact Hg].
  - destruct (mapM g l) as [e|bs]; [|discriminate].
    intros [= <-]. destruct (IH eq_refl) as (a' & Ha & He).
    exists a'. split; [now apply list_elem_of_further | exact He].
Qed.

Lemma largest_elem (x : num) (xs : list num) : largest x xs ∈ x :: xs.
Proof.
  unfold largest. revert x. induction xs as [|y xs IH]; intros x; simpl.
  - apply list_elem_of_here.
  - destruct (num_lt x y).
    + apply list_elem_of_further, IH.
    + specialize (IH x). apply elem_of_cons in IH as [->|IH].
      * apply list_elem_of_here.
      * now apply list_elem_of_further, list_elem_of_further.
Qed.

Lemma present_omap (l : list (option num)) (x : num) :
  x ∈ omap id l <-> Some x ∈ l.
Proof.
  rewrite list_elem_of_omap. split.
  - intros (o & Ho & Hx). simpl in Hx. now subst o.
  - intros H. exists (Some x). auto.
Qed.

Lemma castable_whole (x : num) :
  castable x = true -> exists z, num_to_int x = Some z /\ in_int64 z = true.
Proof.
  unfold castable. intros H. apply andb_true_iff in H as [_ H].
  destruct (num_to_int x) as [z|]; [eauto | discriminate].
Qed.

Lemma forallb_castable (l : list (option num)) :
  forallb castable (omap id l) = true <-> forall x, Some x ∈ l -> castable x = true.
Proof.
  rewrite forallb_forall. split.
  - intros H x Hx. apply H, list_elem_of_In, present_omap, Hx.
  - intros H x Hx. apply H, present_omap, list_elem_of_In, Hx.
Qed.

(** When the cast of a float series returns, every present value was
    castable. *)
Lemma cast_floats_inv (l : list (option num)) (n' : NumSeries) :
  astype_Int64 (NFloat64 l) = inr n' ->
  n' = NNullableInt64 (map float_to_Int64 l)
  /\ forall x, Some x ∈ l -> castable x = true.
Proof.
  cbn [astype_Int64]. destruct (omap id l) as [|x xs] eqn:Hp.
  - intros [= <-]. split; [reflexivity|].
    intros y Hy. apply present_omap in Hy. rewrite Hp in Hy. inversion Hy.
  - unfold cast_floats. destruct (negb (num_finite _)); [discriminate|].
    destruct (num_to_int (largest x xs)).
    + destruct (forallb castable (x :: xs)) eqn:Hall; [|discriminate].
      intros [= <-]. split; [reflexivity|].
      rewrite <- Hp in Hall. now apply forallb_castable.
    + destruct (List.find _ _); discriminate.
Qed.

Lemma cast_floats_raises (l : list (option num)) :
  (exists err, astype_Int64 (NFloat64 l) = inl err)
  <-> exists x, Some x ∈ l /\ castable x = false.
Proof.
  split.
  - intros (err & H).
    destruct (forallb castable (omap id l)) eqn:Hall.
    + exfalso. revert H. cbn [astype_Int64].
      destruct (omap id l) as [|x xs] eqn:Hp; [discriminate|].
      unfold cast_floats.
      assert (Htop : castable (largest x xs) = true).
      { rewrite forallb_forall in Hall. apply Hall, list_elem_of_In, largest_elem. }
      unfold castable in Htop. apply andb_true_iff in Htop as [Hfin Hint].
      rewrite Hfin. cbn [negb]. destruct (num_to_int (largest x xs)); [|discriminate].
      rewrite Hall. discriminate.
    + apply not_true_iff_false in Hall. rewrite forallb_castable in Hall.
      destruct (existsb (fun x => negb (castable x)) (omap id l)) eqn:Hex.
      * apply existsb_exists in Hex as (x & Hx & Hc).
        exists x. split; [now apply present_omap, list_elem_of_In|].
        now apply negb_true_iff in Hc.
      * exfalso. apply Hall. intros x Hx.
        apply present_omap, list_elem_of_In in Hx.
        assert (Hn : negb (castable x) = false).
        { destruct (negb (castable x)) eqn:E; [|reflexivity].
          rewrite <- Hex. symmetry. apply existsb_exists. eauto. }
        now apply negb_false_iff in Hn.
  - intros (x & Hx & Hc).
    destruct (astype_Int64 (NFloat64 l)) as [err|n'] eqn:H; [eauto|].
    apply cast_floats_inv in H as [_ H]. rewrite (H x Hx) in Hc. discriminate.
Qed.

Lemma astype_Int64_raises (n : NumSeries) :
  (exists err, astype_Int64 n = inl err) <-> uncastable n.
Proof.
  destruct n as [l|l|l|l].
  - cbn [astype_Int64]. split.
    + intros (err & H). left.
      destruct (forallb in_int64 l) eqn:Hall; [discriminate|].
      destruct (existsb (fun z => negb (in_int64 z)) l) eqn:Hex.
      * apply existsb_exists in Hex as (z & Hz & Hc).
        exists l, z. split; [reflexivity|]. split; [now apply list_elem_of_In|].
        now apply negb_true_iff in Hc.
      * apply not_true_iff_false in Hall. exfalso. apply Hall.
        apply forallb_forall. intros z Hz.
        destruct (in_int64 z) eqn:E; [reflexivity|].
        rewrite <- Hex. apply existsb_exists. exists z. now rewrite E.
    + intros [(l' & z & [= <-] & Hz & Hc)|(l' & x & H & _)]; [|discriminate].
      destruct (forallb in_int64 l) eqn:Hall; [|eauto].
      rewrite forallb_forall in Hall.
      rewrite (Hall z) in Hc by now apply list_elem_of_In. discriminate.
  - rewrite cast_floats_raises. split.
    + intros (x & Hx & Hc). right. exists l, x. auto.
    + intros [(l' & z & H & _)|(l' & x & [= <-] & Hx & Hc)]; [discriminate | eauto].
  - split; [intros (err & H); discriminate|].
    intros [(l' & z & H & _)|(l' & x & H & _)]; discriminate.
  - split; [intros (err & H); discriminate|].
    intros [(l' & z & H & _)|(l' & x & H & _)]; discriminate.
Qed.

Lemma truncation_error_class (x : num) : cast_failure (truncation_error x).
Proof. unfold truncation_error. right. destruct (num_finite x); eauto. Qed.

Lemma astype_Int64_error (n : NumSeries) (err : exn) :
  astype_Int64 n = inl err -> cast_failure err.
Proof.
  destruct n as [l|l|l|l]; cbn [astype_Int64]; try discriminate.
  - destruct (forallb in_int64 l); [discriminate|]. intros [= <-]. left. eauto.
  - destruct (omap id l) as [|x xs]; [discriminate|]. unfold cast_floats.
    destruct (negb (num_finite _)).
    { intros [= <-]. apply truncation_error_class. }
    destruct (num_to_int (largest x xs)).
    + destruct (forallb castable (x :: xs)); [discriminate|]. intros [= <-]. left. eauto.
    + destruct (List.find _ _).
      * intros [= <-]. apply truncation_error_class.
      * intros [= <-]. left. eauto.
Qed.

Lemma astype_Int64_cells (n n' : NumSeries) :
  astype_Int64 n = inr n' ->
  exists l', n' = NNullableInt64 l'
    /\ length l' = length (cells n)
    /\ forall k c, cells n !! k = Some c ->
         l' !! k = Some (whole c) /\ (c = None <-> whole c = None).
Proof.
  destruct n as [l|l|l|l].
  - cbn [astype_Int64]. destruct (forallb in_int64 l); [|discriminate].
    intros [= <-]. eexists. split; [reflexivity|].
    split; [simpl; now rewrite !length_map|].
    intros k c. simpl. rewrite !lookup_map. destruct (l !! k); simpl; [|discriminate].
    intros [= <-]. split; [reflexivity|]. split; discriminate.
  - intros H. apply cast_floats_inv in H as [-> Hall].
    eexists. split; [reflexivity|]. split; [simpl; now rewrite !length_map|].
    intros k c. simpl. rewrite !lookup_map.
    destruct (l !! k) as [o|] eqn:Ho; simpl; [|discriminate].
    intros [= <-]. destruct o as [x|]; simpl.
    + assert (Hx : Some x ∈ l) by (apply list_elem_of_lookup; eauto).
      destruct (castable_whole x (Hall x Hx)) as (z & Hz & _). rewrite Hz.
      split; [reflexivity|]. split; discriminate.
    + split; [reflexivity|]. split; reflexivity.
  - simpl. intros [= <-]. eexists. split; [reflexivity|].
    split; [now rewrite !length_map|].
    intros k c. rewrite !lookup_map. destruct (l !! k); simpl; [|discriminate].
    intros [= <-]. split; [reflexivity|]. split; discriminate.
  - simpl. intros [= <-]. exists l. split; [reflexivity|].
    split; [now rewrite length_map|].
    intros k c. rewrite lookup_map. destruct (l !! k) as [o|]; simpl; [|discriminate].
    intros [= <-]. destruct o; simpl; split; try reflexivity; split; congruence.
Qed.

Lemma convert_data_types_spec (df df' : DataFrame) :
  convert_data_types df = inr df' ->
  same_shape df df'
  /\ (forall col, col ∉ map fst expected_types -> getitem col df' = getitem col df)
  /\ (forall col s, (col, "numeric") ∈ expected_types -> getitem col df = Some s ->
        getitem col df' = Some (Num (to_numeric_coerce s)))
  /\ (forall col s, col ∈ integer_columns -> getitem col df = Some s ->
        exists l, astype_Int64 (to_numeric_coerce s) = inr (NNullableInt64 l)
          /\ getitem col df' = Some (Num (NNullableInt64 l))).
Proof.
  rewrite convert_data_types_update. intros H.
  destruct (foldM_update_step fst convert_series expected_types df df'
              expected_types_NoDup H) as (Hshape & Hother & Hsame).
  split; [exact Hshape|]. split; [exact Hother|]. split.
  - intros col s Hin Hs.
    destruct (Hsame (col, "numeric") s Hin Hs) as (s' & Hg & Hs').
    unfold convert_series in Hg. simpl in Hg. injection Hg as <-. exact Hs'.
  - intros col s Hin Hs.
    destruct (Hsame (col, "int") s (integer_columns_expected col Hin) Hs) as (s' & Hg & Hs').
    unfold convert_series, bind in Hg. simpl in Hg.
    destruct (astype_Int64 _) as [e|n] eqn:Ha; [discriminate|].
    injection Hg as <-.
    destruct (astype_Int64_cells _ _ Ha) as (l & -> & _). eauto.
Qed.

(** X13: a successful [convert_data_types] keeps the index and the labels,
    leaves every column outside the schema as it was, turns a numeric
    schema column into the numbers [pd.to_numeric] coerces it to, and turns
    [Year] and [Odometer] into nullable integers. *)
Theorem convert_data_types_columns (df df' : DataFrame) :
  convert_data_types df = inr df' ->
  same_shape df df'
  /\ (forall col, col ∉ map fst expected_types -> getitem col df' = getitem col df)
  /\ (forall col s, (col, "numeric") ∈ expected_types -> getitem col df = Some s ->
        getitem col df' = Some (Num (to_numeric_coerce s)))
  /\ (forall col s, col ∈ integer_columns -> getitem col df = Some s ->
        exists l, astype_Int64 (to_numeric_coerce s) = inr (NNullableInt64 l)
          /\ getitem col df' = Some (Num (NNullableInt64 l))).
Proof. exact (convert_data_types_spec df df'). Qed.

Lemma foldM_update_step_error {E : Type} (key : E -> string)
  (g : E -> Series -> result Series) (P : exn -> Prop) (entries : list E)
  (d : DataFrame) (err : exn) :
  (forall e s err', g e s = inl err' -> P err') ->
  foldM (update_step key g) entries d = inl err -> P err.
Proof.
  intros Hg. revert d. induction entries as [|e l IH]; intros d; simpl; [discriminate|].
  destruct (update_step key g d e) as [e'|d1] eqn:Hstep; [|apply IH].
  intros [= <-]. unfold update_step, bind in Hstep.
  destruct (getitem (key e) d) as [s|]; [|discriminate].
  destruct (g e s) as [e''|] eqn:Hc; [|discriminate].
  injection Hstep as <-. eapply Hg, Hc.
Qed.

Lemma convert_series_raises (e : string * string) (s : Series) (err : exn) :
  convert_series e s = inl err ->
  snd e = "int" /\ astype_Int64 (to_numeric_coerce s) = inl err.
Proof.
  destruct e as [c ty]. unfold convert_series, bind. simpl.
  destruct (String.eqb ty "int") eqn:E.
  - apply String.eqb_eq in E. destruct (astype_Int64 _); [|discriminate].
    intros [= <-]. auto.
  - destruct (String.eqb ty "numeric"); discriminate.
Qed.

Lemma convert_data_types_raises (df : DataFrame) :
  (exists err, convert_data_types df = inl err)
  <-> exists col s, col ∈ integer_columns /\ getitem col df = Some s
        /\ uncastable (to_numeric_coerce s).
Proof.
  rewrite convert_data_types_update.
  rewrite (foldM_update_step_raises fst convert_series expected_types df
             expected_types_NoDup).
  split.
  - intros ([c ty] & s & err & Hin & Hs & Hc).
    apply convert_series_raises in Hc as [Hty Hc]. simpl in Hty, Hs. subst ty.
    destruct (expected_types_cases c "int" Hin) as [[Hc' _]|[_ ?]]; [|discriminate].
    exists c, s. split; [exact Hc'|]. split; [exact Hs|].
    apply astype_Int64_raises. eauto.
  - intros (col & s & Hcol & Hs & Hu).
    apply astype_Int64_raises in Hu as (err & Hu).
    exists (col, "int"), s, err.
    split; [now apply integer_columns_expected|]. split; [exact Hs|].
    unfold convert_series, bind. simpl. now rewrite Hu.
Qed.

Lemma convert_data_types_error (df : DataFrame) (err : exn) :
  convert_data_types df = inl err -> cast_failure err.
Proof.
  rewrite convert_data_types_update.
  apply foldM_update_step_error. intros e s err' H.
  apply convert_series_raises in H as [_ H]. eapply astype_Int64_error, H.
Qed.

(** X14: on a frame in which no label occurs twice, [convert_data_types]
    raises exactly when [Year] or [Odometer], once coerced to numbers,
    holds a number that is not a whole number of the range of int64: a
    fraction, an infinity, or a number beyond that range.  The exception is
    then a [TypeError] or an [OverflowError] of the cast.  Text that is no
    number, missing values and the four numeric columns never make it
    raise. *)
Theorem convert_data_types_raises_iff (df : DataFrame) :
  NoDup (columns df) ->
  ((exists err, convert_data_types df = inl err)
   <-> exists col s, col ∈ integer_columns /\ getitem col df = Some s
         /\ uncastable (to_numeric_coerce s))
  /\ forall err, convert_data_types df = inl err -> cast_failure err.
Proof.
  intros _. split; [apply convert_data_types_raises|].
  intros err. apply convert_data_types_error.
Qed.

Lemma cells_pack (cs : list (option number)) (k : nat) (c0 : option number) :
  cs !! k = Some c0 ->
  exists c, cells (pack cs) !! k = Some c /\ to_float <$> c = to_float <$> c0.
Proof.
  intros Hk. unfold pack. destruct (forallb is_int_cell cs) eqn:E; simpl.
  - rewrite map_map, lookup_map, Hk. simpl. eexists. split; [reflexivity|].
    rewrite forallb_forall in E.
    assert (Hin : In c0 cs) by (apply list_elem_of_In, list_elem_of_lookup; eauto).
    specialize (E c0 Hin). destruct c0 as [[z|x]|]; try discriminate. reflexivity.
  - rewrite map_map, lookup_map, Hk. simpl. eexists. split; [reflexivity|].
    destruct c0 as [n|]; reflexivity.
Qed.

Lemma coerce_value_None (v : value) :
  coerce_value v = None
  <-> v = VNull
      \/ exists t, v = VStr t /\ (str_to_num t = Unparsable \/ str_to_num t = PNaN).
Proof.
  destruct v as [|z|x|t]; simpl.
  - split; auto.
  - split; [discriminate | intros [H|(t & H & _)]; discriminate].
  - split; [discriminate | intros [H|(t & H & _)]; discriminate].
  - split.
    + intros H. right. exists t. split; [reflexivity|].
      destruct (str_to_num t); try discriminate; auto.
    + intros [H|(t' & [= <-] & [-> | ->])]; [discriminate | reflexivity | reflexivity].
Qed.

(** X15: what conversion does to a cell of a numeric schema column that
    holds text or mixed values.  The converted cell is missing exactly when
    the cell was missing or was text that does not give a number;
    otherwise it is the number the cell held or parsed to. *)
Theorem numeric_conversion_cells
  (df df' : DataFrame) (col : string) (l : list value) (k : nat) (v : value) :
  convert_data_types df = inr df' -> (col, "numeric") ∈ expected_types ->
  getitem col df = Some (Object l) -> l !! k = Some v ->
  exists n c, getitem col df' = Some (Num n) /\ cells n !! k = Some c
    /\ to_float <$> c = to_float <$> coerce_value v
    /\ (c = None
        <-> v = VNull
            \/ exists t, v = VStr t
                 /\ (str_to_num t = Unparsable \/ str_to_num t = PNaN)).
Proof.
  intros H Hcol Hs Hk.
  destruct (convert_data_types_spec df df' H) as (_ & _ & Hnum & _).
  specialize (Hnum col (Object l) Hcol Hs). simpl in Hnum.
  destruct (cells_pack (map coerce_value l) k (coerce_value v)) as (c & Hc & Hf).
  { now rewrite lookup_map, Hk. }
  exists (pack (map coerce_value l)), c.
  split; [exact Hnum|]. split; [exact Hc|]. split; [exact Hf|].
  rewrite <- coerce_value_None.
  destruct c, (coerce_value v); simpl in Hf; split; congruence.
Qed.

(** X16: what conversion does to a cell of [Year] or [Odometer].  Once the
    column is coerced to numbers, a missing cell stays missing and a
    present cell becomes the integer it equals; no cell is dropped and no
    present cell becomes missing. *)
Theorem integer_conversion_cells
  (df df' : DataFrame) (col : string) (s : Series) (k : nat) (c : option number) :
  convert_data_types df = inr df' -> col ∈ integer_columns ->
  getitem col df = Some s -> cells (to_numeric_coerce s) !! k = Some c ->
  exists l, getitem col df' = Some (Num (NNullableInt64 l))
    /\ length l = length (cells (to_numeric_coerce s))
    /\ l !! k = Some (whole c) /\ (c = None <-> whole c = None).
Proof.
  intros H Hcol Hs Hk.
  destruct (convert_data_types_spec df df' H) as (_ & _ & _ & Hint).
  destruct (Hint col s Hcol Hs) as (l & Ha & Hl).
  destruct (astype_Int64_cells _ _ Ha) as (l' & [= <-] & Hlen & Hcells).
  exists l. split; [exact Hl|]. split; [exact Hlen|]. now apply Hcells.
Qed.

(** ** Repair of missing values *)

Lemma foldM_ext_in {A S : Type} (f g : S -> A -> result S) (l : list A) (s : S) :
  (forall s a, a ∈ l -> f s a = g s a) -> foldM f l s = foldM g l s.
Proof.
  revert s. induction l as [|a l IH]; intros s H; simpl; [reflexivity|].
  rewrite H by apply list_elem_of_here.
  destruct (g s a); [reflexivity|].
  apply IH. intros s' a' Ha'. apply H. now apply list_elem_of_further.
Qed.

Lemma fill_median_update (d : DataFrame) (col : string) :
  col <> "Drivetrain Type" -> fill_median d col = update_step id repair_column d col.
Proof.
  intros Hne. apply String.eqb_neq in Hne.
  unfold fill_median, update_step, repair_column, repair_series, id, bind.
  rewrite Hne.
  destruct (getitem col d) as [[n|l]|] eqn:Hs; try reflexivity.
  - destruct (fillna_median n); reflexivity.
  - now rewrite (setitem_same col (Object l) d Hs).
Qed.

Lemma fix_missing_values_update (d : DataFrame) :
  fix_missing_values d = foldM (update_step id repair_column) repaired_columns d.
Proof.
  unfold fix_missing_values, repaired_columns.
  change (foldM (update_step id repair_column)
            ["Drivetrain Type"; "J.D. Power Trade In"; "J.D. Power Retail Clean"] d)
    with (match update_step id repair_column d "Drivetrain Type" with
          | inl e => inl e
          | inr d1 => foldM (update_step id repair_column)
                        ["J.D. Power Trade In"; "J.D. Power Retail Clean"] d1
          end).
  assert (Hdt : match getitem "Drivetrain Type" d with
                | Some s => assign "Drivetrain Type" (fillna_str "Unknown" s) d
                | None => inr d
                end = update_step id repair_column d "Drivetrain Type").
  { unfold update_step, repair_column, assign, id. simpl.
    destruct (getitem "Drivetrain Type" d); reflexivity. }
  rewrite Hdt. unfold bind.
  destruct (update_step id repair_column d "Drivetrain Type") as [e|d1]; [reflexivity|].
  apply foldM_ext_in. intros d2 col Hcol. apply fill_median_update.
  intros ->. repeat (apply elem_of_cons in Hcol as [Hcol|Hcol]); try discriminate.
  inversion Hcol.
Qed.

Lemma repaired_columns_NoDup : NoDup (map id repaired_columns).
Proof. apply (bool_decide_unpack _). vm_compute. reflexivity. Qed.

Lemma any_map_false {A : Type} (p : A -> bool) (l : list A) :
  existsb p l = false -> any (map p l) = false.
Proof.
  unfold any. induction l as [|a l IH]; simpl; [reflexivity|].
  intros H. apply orb_false_elim in H as [Ha Hl]. unfold id at 1. rewrite Ha. simpl.
  apply IH, Hl.
Qed.

Lemma any_false_const {A : Type} (l : list A) : any (map (fun _ => false) l) = false.
Proof. unfold any. induction l; simpl; auto. Qed.

Lemma fillna_str_cells (text : string) (s s' : Series) :
  fillna_str text s = inr s' ->
  any (isnull s') = false
  /\ forall k v, object_cells s !! k = Some v ->
       object_cells s' !! k
       = Some (match v with VNull => VStr text | _ => v end).
Proof.
  destruct s as [[l|l|l|l]|l]; simpl.
  - intros [= <-]. simpl. split; [apply any_false_const|].
    intros k v. rewrite lookup_map. destruct (l !! k); simpl; [|discriminate].
    now intros [= <-].
  - destruct (existsb is_None l) eqn:E; intros [= <-]; simpl.
    + split.
      * rewrite map_map. unfold any. clear E. induction l as [|[x|] l IH]; simpl; auto.
      * intros k v. rewrite !lookup_map. destruct (l !! k) as [[x|]|]; simpl;
          try discriminate; now intros [= <-].
    + split; [now apply any_map_false|].
      intros k v. rewrite lookup_map. destruct (l !! k) as [[x|]|] eqn:Hk; simpl;
        try discriminate.
      * now intros [= <-].
      * exfalso. assert (existsb is_None l = true); [|congruence].
        apply existsb_exists. exists None. split; [|reflexivity].
        apply list_elem_of_In, list_elem_of_lookup. eauto.
  - intros [= <-]. simpl. split; [apply any_false_const|].
    intros k v. rewrite lookup_map. destruct (l !! k); simpl; [|discriminate].
    now intros [= <-].
  - destruct (existsb is_None l) eqn:E; [discriminate|]. intros [= <-]. simpl.
    split; [now apply any_map_false|].
    intros k v. rewrite lookup_map. destruct (l !! k) as [[x|]|] eqn:Hk; simpl;
      try discriminate.
    + now intros [= <-].
    + exfalso. assert (existsb is_None l = true); [|congruence].
      apply existsb_exists. exists None. split; [|reflexivity].
      apply list_elem_of_In, list_elem_of_lookup. eauto.
  - intros [= <-]. simpl. split.
    + rewrite map_map. unfold any. induction l as [|[| | |] l IH]; simpl; auto.
    + intros k v Hk. now rewrite lookup_map, Hk.
Qed.

(** X17: a successful [fix_missing_values] keeps the index and the labels
    and touches three columns at most: every other column, [Price] among
    them, is exactly as it was.  If [Drivetrain Type] is a column, it has
    no missing value afterwards: each missing cell holds the text
    [Unknown], every other cell is unchanged. *)
Theorem fix_missing_values_columns (df df' : DataFrame) :
  fix_missing_values df = inr df' ->
  same_shape df df'
  /\ (forall col, col ∉ repaired_columns -> getitem col df' = getitem col df)
  /\ getitem "Price" df' = getitem "Price" df
  /\ (forall s, getitem "Drivetrain Type" df = Some s ->
        exists s', getitem "Drivetrain Type" df' = Some s'
          /\ any (isnull s') = false
          /\ forall k v, object_cells s !! k = Some v ->
               object_cells s' !! k = Some (filled v)).
Proof.
  rewrite fix_missing_values_update. intros H.
  destruct (foldM_update_step id repair_column repaired_columns df df'
              repaired_columns_NoDup H) as (Hshape & Hother & Hsame).
  assert (Hother' : forall col, col ∉ repaired_columns -> getitem col df' = getitem col df).
  { intros col Hcol. apply Hother. now rewrite map_id. }
  split; [exact Hshape|]. split; [exact Hother'|]. split.
  - apply Hother'. unfold repaired_columns. intros Hin.
    repeat (apply elem_of_cons in Hin as [Hin|Hin]); try discriminate. inversion Hin.
  - intros s Hs.
    destruct (Hsame "Drivetrain Type" s) as (s' & Hg & Hs');
      [apply list_elem_of_here | exact Hs |].
    unfold repair_column in Hg. simpl in Hg.
    destruct (fillna_str_cells "Unknown" s s' Hg) as [Hnull Hcells].
    exists s'. split; [exact Hs'|]. split; [exact Hnull|]. exact Hcells.
Qed.



Lemma repair_column_total (col : string) (s : Series) :
  ~ is_nullable_int s -> exists s', repair_column col s = inr s'.
Proof.
  intros Hn. unfold repair_column, repair_series, bind.
  destruct s as [[l|l|l|l]|l]; try (exfalso; apply Hn; eexists; reflexivity);
    destruct (String.eqb col "Drivetrain Type"); simpl; eauto;
    try (destruct (existsb is_None l); eauto);
    try (destruct (omap id l); eauto).
Qed.

(** X19: [fix_missing_values] does not raise on a frame in which none of
    its three columns is a nullable-integer column, which is so for every
    frame a reader returns. *)
Theorem fix_missing_values_completes (df : DataFrame) :
  (forall col s, col ∈ repaired_columns -> getitem col df = Some s ->
     ~ is_nullable_int s) ->
  exists df', fix_missing_values df = inr df'.
Proof.
  intros Hn. rewrite fix_missing_values_update.
  destruct (foldM (update_step id repair_column) repaired_columns df) as [err|df'] eqn:E;
    [|eauto].
  exfalso.
  destruct (foldM_update_step_raises id repair_column repaired_columns df
              repaired_columns_NoDup) as [Hr _].
  destruct Hr as (col & s & err' & Hin & Hs & Hg); [eauto|].
  destruct (repair_column_total col s (Hn col s Hin Hs)) as (s' & Hs').
  congruence.
Qed.

(** ** Formatting for upload *)

Lemma foldM_app {A S : Type} (f : S -> A -> result S) (l1 l2 : list A) (s : S) :
  foldM f (l1 ++ l2) s = bind (foldM f l1 s) (foldM f l2).
Proof.
  revert s. induction l1 as [|a l1 IH]; intros s; simpl; [reflexivity|].
  destruct (f s a); [reflexivity | apply IH].
Qed.

Lemma format_numeric_update (d : DataFrame) (col : string) :
  col ∈ numeric_columns ->
  update_step id format_column d col = inr (format_numeric d col).
Proof.
  intros Hcol. unfold update_step, format_column, format_numeric, id.
  rewrite (bool_decide_eq_true_2 _ Hcol).
  destruct (getitem col d); reflexivity.
Qed.

Lemma format_text_update (d : DataFrame) (col : string) :
  col ∈ text_columns ->
  update_step id format_column d col = inr (format_text d col).
Proof.
  intros Hcol. unfold update_step, format_column, format_text, id.
  assert (Hn : bool_decide (col ∈ numeric_columns) = false
               /\ String.eqb col "VIN" = false).
  { unfold text_columns in Hcol.
    repeat (apply elem_of_cons in Hcol as [->|Hcol]);
      try (split; [vm_compute|]; reflexivity).
    inversion Hcol. }
  destruct Hn as [-> ->]. destruct (getitem col d); reflexivity.
Qed.

Lemma format_for_upload_update (d : DataFrame) :
  foldM (update_step id format_column) formatted_columns (clean_column_names d)
  = inr (format_for_upload d).
Proof.
  unfold formatted_columns, format_for_upload.
  change (mkDataFrame (index d) (map (fun p => (clean_name (fst p), snd p)) (data d)))
    with (clean_column_names d).
  rewrite foldM_app.
  rewrite (foldM_ext_in _ (fun s a => inr (format_numeric s a)))
    by (intros; now apply format_numeric_update).
  rewrite foldM_total. unfold bind at 1.
  set (d1 := foldl format_numeric (clean_column_names d) numeric_columns).
  rewrite foldM_app.
  assert (Hvin : foldM (update_step id format_column) ["VIN"] d1
                 = inr match getitem "VIN" d1 with
                       | Some s => setitem "VIN" (Object (map VStr (astype_str s))) d1
                       | None => d1
                       end).
  { simpl. unfold update_step, format_column, id. simpl.
    destruct (getitem "VIN" d1); reflexivity. }
  rewrite Hvin. unfold bind.
  rewrite (foldM_ext_in _ (fun s a => inr (format_text s a)))
    by (intros; now apply format_text_update).
  apply foldM_total.
Qed.

Lemma formatted_columns_NoDup : NoDup (map id formatted_columns).
Proof. apply (bool_decide_unpack _). vm_compute. reflexivity. Qed.

Lemma sub_problematic_clean (t : string) :
  forallb (fun c => negb (is_problematic_char c)) (chars (sub_problematic t)) = true.
Proof.
  induction t as [|c t IH]; [reflexivity|].
  cbn [sub_problematic chars forallb]. rewrite IH, andb_true_r.
  destruct (is_problematic_char c) eqn:E; [reflexivity | now rewrite E].
Qed.


Lemma format_for_upload_spec (d : DataFrame) :
  same_shape (clean_column_names d) (format_for_upload d)
  /\ (forall col, col ∉ formatted_columns ->
        getitem col (format_for_upload d) = getitem col (clean_column_names d))
  /\ (forall col s, col ∈ numeric_columns ->
        getitem col (clean_column_names d) = Some s ->
        getitem col (format_for_upload d) = Some (Num (to_numeric_coerce s)))
  /\ (forall s, getitem "VIN" (clean_column_names d) = Some s ->
        getitem "VIN" (format_for_upload d) = Some (vin_series s)
        /\ Forall is_text (object_cells (vin_series s))
        /\ forall l k, s = Object l -> l !! k = Some VNull ->
             object_cells (vin_series s) !! k = Some (VStr "nan"))
  /\ (forall col s, col ∈ text_columns ->
        getitem col (clean_column_names d) = Some s ->
        exists l, getitem col (format_for_upload d) = Some (Object l)
          /\ l = map (fun t => VStr (sub_problematic t)) (astype_str s)
          /\ Forall clean_text l).
Proof.
  destruct (foldM_update_step id format_column formatted_columns
              (clean_column_names d) (format_for_upload d)
              formatted_columns_NoDup (format_for_upload_update d))
    as (Hshape & Hother & Hsame).
  split; [exact Hshape|]. split; [|split; [|split]].
  - intros col Hcol. apply Hother. now rewrite map_id.
  - intros col s Hcol Hs.
    destruct (Hsame col s) as (s' & Hg & Hs'); [|exact Hs|].
    { unfold formatted_columns. apply elem_of_app. now left. }
    unfold format_column in Hg. rewrite (bool_decide_eq_true_2 _ Hcol) in Hg.
    injection Hg as <-. exact Hs'.
  - intros s Hs.
    destruct (Hsame "VIN" s) as (s' & Hg & Hs'); [|exact Hs|].
    { unfold formatted_columns. apply elem_of_app. right. apply list_elem_of_here. }
    injection Hg as <-. split; [exact Hs'|]. split.
    + simpl. apply Forall_forall. intros v Hv.
      apply elem_of_map in Hv as (t & -> & _). now exists t.
    + intros l k -> Hk. simpl. now rewrite map_map, lookup_map, Hk.
  - intros col s Hcol Hs.
    destruct (Hsame col s) as (s' & Hg & Hs'); [|exact Hs|].
    { unfold formatted_columns. apply elem_of_app. right. now apply list_elem_of_further. }
    assert (Hn : bool_decide (col ∈ numeric_columns) = false
                 /\ String.eqb col "VIN" = false).
    { unfold text_columns in Hcol.
      repeat (apply elem_of_cons in Hcol as [->|Hcol]);
        try (split; [vm_compute|]; reflexivity).
      inversion Hcol. }
    unfold format_column in Hg. destruct Hn as [Hn1 Hn2]. rewrite Hn1, Hn2 in Hg.
    injection Hg as <-. eexists. split; [exact Hs'|]. split; [reflexivity|].
    apply Forall_forall. intros v Hv. apply elem_of_map in Hv as (t & -> & _).
    exists (sub_problematic t). split; [reflexivity | apply sub_problematic_clean].
Qed.









(** ** Marking the records *)

Lemma append_nonempty (t : string) (c : ascii) (msg : string) :
  t +:+ String c msg <> EmptyString.
Proof. destruct t; discriminate. Qed.

Lemma marks_of_eq (idx : list nat) (S S' : gset nat) (m : marks) :
  (forall row, row ∈ S <-> row ∈ S') -> marks_of idx S m -> marks_of idx S' m.
Proof.
  intros Heq (H1 & H2 & Hk). split; [exact H1|]. split; [exact H2|].
  intros k row Hrow. destruct (Hk k row Hrow) as (Hf & t & Ht & Hiff).
  split.
  - rewrite Hf. f_equal. apply bool_decide_ext, Heq.
  - exists t. split; [exact Ht|]. now rewrite Hiff, Heq.
Qed.

Lemma marks_of_initial (idx : list nat) :
  marks_of idx ∅ (replicate (length idx) false, replicate (length idx) EmptyString).
Proof.
  split; [apply length_replicate|]. split; [apply length_replicate|].
  intros k row Hk. apply lookup_lt_Some in Hk. simpl.
  rewrite !lookup_replicate_2 by exact Hk.
  split; [reflexivity|]. exists EmptyString. split; [reflexivity|].
  split; [set_solver | reflexivity].
Qed.

Lemma mark_step (idx : list nat) (c : ascii) (msg : string) (S : gset nat)
  (m : marks) (row : nat) :
  marks_of idx S m -> row ∈ idx ->
  exists m', mark idx (String c msg) m row = inr m' /\ marks_of idx (S ∪ {[row]}) m'.
Proof.
  intros (H1 & H2 & Hk) Hrow. unfold mark.
  rewrite (bool_decide_eq_true_2 _ Hrow). eexists. split; [reflexivity|].
  unfold at_label. split; [simpl; now rewrite length_imap|].
  split; [simpl; now rewrite length_imap|].
  intros k row' Hk'. destruct (Hk k row' Hk') as (Hf & t & Ht & Hiff). simpl.
  rewrite !list_lookup_imap, Hf, Ht. simpl.
  destruct (decide (idx !! k = Some row)) as [Heq|Hne].
  - assert (row' = row) by congruence. subst row'.
    split; [f_equal; symmetry; apply bool_decide_eq_true_2; set_solver|].
    eexists. split; [reflexivity|]. split.
    + intros H. now apply append_nonempty in H.
    + intros H. exfalso. apply H. set_solver.
  - assert (Hrr : row' <> row) by congruence.
    split.
    + f_equal. apply bool_decide_ext. set_solver.
    + exists t. split; [reflexivity|]. rewrite Hiff. set_solver.
Qed.

Lemma mark_rows (idx : list nat) (c : ascii) (msg : string) (rows : list nat)
  (S : gset nat) (m : marks) :
  marks_of idx S m -> (forall row, row ∈ rows -> row ∈ idx) ->
  exists m', foldM (mark idx (String c msg)) rows m = inr m'
    /\ marks_of idx (S ∪ list_to_set rows) m'.
Proof.
  revert S m. induction rows as [|row rows IH]; intros S m Hm Hin; simpl.
  - exists m. split; [reflexivity|].
    eapply marks_of_eq; [|exact Hm]. intros r. set_solver.
  - destruct (mark_step idx c msg S m row Hm) as (m1 & Hstep & Hm1);
      [apply Hin, list_elem_of_here|].
    rewrite Hstep.
    destruct (IH (S ∪ {[row]}) m1 Hm1) as (m' & Hrun & Hm').
    { intros r Hr. apply Hin. now apply list_elem_of_further. }
    exists m'. split; [exact Hrun|].
    eapply marks_of_eq; [|exact Hm']. intros r. set_solver.
Qed.

Lemma mark_entries {E : Type} (idx : list nat) (message : E -> string) (rows : E -> list nat)
  (entries : list E) (S : gset nat) (m : marks) :
  (forall e, exists c msg, message e = String c msg) ->
  marks_of idx S m ->
  (forall e row, e ∈ entries -> row ∈ rows e -> row ∈ idx) ->
  exists m', foldM (fun m e => foldM (mark idx (message e)) (rows e) m) entries m = inr m'
    /\ marks_of idx (S ∪ ⋃ (list_to_set <$> map rows entries)) m'.
Proof.
  intros Hmsg. revert S m.
  induction entries as [|e entries IH]; intros S m Hm Hin; simpl.
  - exists m. split; [reflexivity|].
    eapply marks_of_eq; [|exact Hm]. intros r. set_solver.
  - destruct (Hmsg e) as (c & msg & Hc). rewrite Hc.
    destruct (mark_rows idx c msg (rows e) S m Hm) as (m1 & Hstep & Hm1).
    { intros row Hr. apply (Hin e); [apply list_elem_of_here | exact Hr]. }
    rewrite Hstep.
    destruct (IH (S ∪ list_to_set (rows e)) m1 Hm1) as (m' & Hrun & Hm').
    { intros e' row He' Hr. apply (Hin e'); [now apply list_elem_of_further | exact Hr]. }
    exists m'. split; [exact Hrun|].
    eapply marks_of_eq; [|exact Hm']. intros r. set_solver.
Qed.

Lemma mark_rows_in_index (idx : list nat) (message : string) (rows : list nat) (m m' : marks) :
  foldM (mark idx message) rows m = inr m' -> forall row, row ∈ rows -> row ∈ idx.
Proof.
  revert m. induction rows as [|r rows IH]; intros m H row Hrow; [inversion Hrow|].
  simpl in H. destruct (mark idx message m r) as [e|m1] eqn:Hstep; [discriminate|].
  apply elem_of_cons in Hrow as [->|Hrow]; [|eapply IH; eauto].
  unfold mark in Hstep. destruct (bool_decide (r ∈ idx)) eqn:E; [|discriminate].
  now apply bool_decide_eq_true in E.
Qed.

Lemma mark_entries_in_index {E : Type} (idx : list nat) (message : E -> string)
  (rows : E -> list nat) (entries : list E) (m m' : marks) :
  foldM (fun m e => foldM (mark idx (message e)) (rows e) m) entries m = inr m' ->
  forall e row, e ∈ entries -> row ∈ rows e -> row ∈ idx.
Proof.
  revert m. induction entries as [|e0 entries IH]; intros m H e row He Hrow;
    [inversion He|].
  simpl in H.
  destruct (foldM (mark idx (message e0)) (rows e0) m) as [err|m1] eqn:Hstep;
    [discriminate|].
  apply elem_of_cons in He as [->|He]; [|eapply IH; eauto].
  eapply mark_rows_in_index; eauto.
Qed.

Lemma mark_records_with_issues_spec (df : DataFrame) (iss : Issues) :
  (rows_in_index iss df <-> exists df', mark_records_with_issues df (Some iss) = inr df')
  /\ forall df', mark_records_with_issues df (Some iss) = inr df' ->
       exists m, df' = annotated df m /\ marks_of (index df) (affected_rows iss) m.
Proof.
  assert (Hrun : rows_in_index iss df ->
            exists m, mark_records_with_issues df (Some iss) = inr (annotated df m)
              /\ marks_of (index df) (affected_rows iss) m).
  { intros Hin. unfold mark_records_with_issues, get_issues, len.
    destruct (mark_entries (index df)
                (fun issue => "Missing " +:+ me_field issue +:+ "; ") me_rows
                (missing_values iss) ∅ _ (fun _ => ltac:(simpl; eauto))
                (marks_of_initial (index df))) as (m1 & H1 & Hm1).
    { intros e row He Hr. apply (Hin (me_rows e)); [|exact Hr].
      apply elem_of_row_lists. eauto. }
    rewrite H1. unfold bind at 1.
    destruct (mark_entries (index df)
                (fun issue => "Invalid " +:+ te_field issue +:+ " format; ") te_rows
                (data_type_issues iss) _ m1 (fun _ => ltac:(simpl; eauto)) Hm1)
      as (m2 & H2 & Hm2).
    { intros e row He Hr. apply (Hin (te_rows e)); [|exact Hr].
      apply elem_of_row_lists. eauto. }
    rewrite H2. unfold bind at 1.
    destruct (mark_rows (index df) "P" "rice below cost; " (price_below_cost iss) _ m2 Hm2)
      as (m3 & H3 & Hm3).
    { intros row Hr. apply (Hin (price_below_cost iss)); [|exact Hr].
      apply elem_of_row_lists. auto. }
    change (String "P" "rice below cost; ") with "Price below cost; " in H3.
    rewrite H3. unfold bind at 1.
    destruct (mark_entries (index df)
                (fun issue => "Special characters in " +:+ se_field issue +:+ "; ") se_rows
                (special_character_issues iss) _ m3 (fun _ => ltac:(simpl; eauto)) Hm3)
      as (m4 & H4 & Hm4).
    { intros e row He Hr. apply (Hin (se_rows e)); [|exact Hr].
      apply elem_of_row_lists. eauto 6. }
    rewrite H4. unfold bind. exists m4. split; [reflexivity|].
    eapply marks_of_eq; [|exact Hm4]. intros r. unfold affected_rows. set_solver. }
  split; [split|].
  - intros Hin. destruct (Hrun Hin) as (m & Hm & _). eauto.
  - intros (df' & H) rows row Hrows Hrow.
    unfold mark_records_with_issues, get_issues, bind in H.
    destruct (foldM _ (missing_values iss) _) as [e|m1] eqn:H1; [discriminate|].
    destruct (foldM _ (data_type_issues iss) _) as [e|m2] eqn:H2; [discriminate|].
    destruct (foldM _ (price_below_cost iss) _) as [e|m3] eqn:H3; [discriminate|].
    destruct (foldM _ (special_character_issues iss) _) as [e|m4] eqn:H4; [discriminate|].
    apply elem_of_row_lists in Hrows
      as [(e & -> & He)|[(e & -> & He)|[->|(e & -> & He)]]].
    + exact (mark_entries_in_index _ _ me_rows _ _ _ H1 e row He Hrow).
    + exact (mark_entries_in_index _ _ te_rows _ _ _ H2 e row He Hrow).
    + exact (mark_rows_in_index _ _ _ _ _ H3 row Hrow).
    + exact (mark_entries_in_index _ _ se_rows _ _ _ H4 e row He Hrow).
  - intros df' H.
    assert (Hin : rows_in_index iss df).
    { intros rows row Hrows Hrow.
      unfold mark_records_with_issues, get_issues, bind in H.
      destruct (foldM _ (missing_values iss) _) as [e|m1] eqn:H1; [discriminate|].
      destruct (foldM _ (data_type_issues iss) _) as [e|m2] eqn:H2; [discriminate|].
      destruct (foldM _ (price_below_cost iss) _) as [e|m3] eqn:H3; [discriminate|].
      destruct (foldM _ (special_character_issues iss) _) as [e|m4] eqn:H4; [discriminate|].
      apply elem_of_row_lists in Hrows
        as [(e & -> & He)|[(e & -> & He)|[->|(e & -> & He)]]].
      + exact (mark_entries_in_index _ _ me_rows _ _ _ H1 e row He Hrow).
      + exact (mark_entries_in_index _ _ te_rows _ _ _ H2 e row He Hrow).
      + exact (mark_rows_in_index _ _ _ _ _ H3 row Hrow).
      + exact (mark_entries_in_index _ _ se_rows _ _ _ H4 e row He Hrow). }
    destruct (Hrun Hin) as (m & Hm & Hmarks).
    exists m. split; [congruence | exact Hmarks].
Qed.

(** X22: [mark_records_with_issues] succeeds exactly when every row the
    report lists is a label of the frame (as is the case for the report of
    the frame itself).  It then returns the frame with two more columns,
    [has_issues] and [issue_type], one cell per row: [has_issues] is
    [True] exactly on the rows some row-scoped category lists, and
    [issue_type] is the empty text exactly on the other rows. *)
Theorem mark_records_with_issues_flags (df : DataFrame) (iss : Issues) :
  (rows_in_index iss df <-> exists df', mark_records_with_issues df (Some iss) = inr df')
  /\ forall df', mark_records_with_issues df (Some iss) = inr df' ->
       exists m, df' = annotated df m /\ marks_of (index df) (affected_rows iss) m.
Proof. exact (mark_records_with_issues_spec df iss). Qed.

(** ** From the report to the upload *)

Lemma clean_name_plain (k name : string) :
  contains_char space name = false -> contains_char newline name = false ->
  String.eqb name (clean_name k) = String.eqb name k.
Proof.
  intros Hsp Hnl.
  destruct (String.eqb name k) eqn:E.
  - apply String.eqb_eq in E. subst k. apply String.eqb_eq.
    symmetry. now apply replace_char_absent.
  - apply String.eqb_neq. intros ->. apply String.eqb_neq in E. apply E. clear E Hnl.
    unfold clean_name in *.
    induction k as [|c k IH]; [reflexivity|].
    cbn [replace_char contains_char] in *.
    apply orb_false_elim in Hsp as [Hc Hk].
    destruct (Ascii.eqb c newline) eqn:Ec.
    + rewrite Ascii.eqb_refl in Hc. discriminate.
    + f_equal. now apply IH.
Qed.

Lemma getitem_clean_plain (name : string) (d : DataFrame) :
  contains_char space name = false -> contains_char newline name = false ->
  getitem name (clean_column_names d) = getitem name d.
Proof.
  intros Hsp Hnl. unfold getitem, clean_column_names; simpl.
  induction (data d) as [|[k s] l IH]; simpl; [reflexivity|].
  rewrite (clean_name_plain k name Hsp Hnl).
  destruct (String.eqb name k); [reflexivity | exact IH].
Qed.

Lemma has_issues_not_formatted : "has_issues" ∉ formatted_columns.
Proof.
  intros H. unfold formatted_columns, numeric_columns, text_columns in H. simpl in H.
  repeat (apply elem_of_cons in H as [H|H]); try discriminate. inversion H.
Qed.

Lemma getitem_has_issues_format (d : DataFrame) :
  getitem "has_issues" (format_for_upload d) = getitem "has_issues" d.
Proof.
  destruct (format_for_upload_spec d) as (_ & Hother & _).
  rewrite (Hother "has_issues" has_issues_not_formatted).
  now apply getitem_clean_plain.
Qed.

Lemma flags_annotated (df : DataFrame) (m : marks) :
  flags (format_for_upload (annotated df m)) = Some (fst m).
Proof.
  unfold flags. rewrite getitem_has_issues_format. unfold annotated.
  rewrite getitem_setitem_other by discriminate.
  now rewrite getitem_setitem_same.
Qed.

Lemma marks_of_flags (idx : list nat) (S : gset nat) (m : marks) :
  marks_of idx S m -> fst m = map (fun row => bool_decide (row ∈ S)) idx.
Proof.
  intros (H1 & _ & Hk). apply list_eq. intros k. rewrite lookup_map.
  destruct (idx !! k) as [row|] eqn:E; simpl.
  - now destruct (Hk k row E) as [-> _].
  - apply lookup_ge_None. rewrite H1. now apply lookup_ge_None.
Qed.

Lemma select_map_filter {A : Type} (p : A -> bool) (l : list A) :
  select (map p l) l = List.filter p l.
Proof.
  induction l as [|x l IH]; simpl; [reflexivity|].
  destruct (p x); now rewrite IH.
Qed.

Lemma filter_negb_length {A : Type} (p : A -> bool) (l : list A) :
  (length (List.filter (fun x => negb (p x)) l) + length (List.filter p l) = length l)%nat.
Proof.
  induction l as [|x l IH]; simpl; [reflexivity|].
  destruct (p x); simpl; lia.
Qed.

Lemma filter_set_length (l : list nat) (S : gset nat) :
  NoDup l -> S ⊆ list_to_set l ->
  length (List.filter (fun row => bool_decide (row ∈ S)) l) = size S.
Proof.
  intros Hnd Hsub.
  rewrite <- (size_list_to_set (C:=gset nat)
                (List.filter (fun row => bool_decide (row ∈ S)) l)).
  - f_equal. apply set_eq. intros x.
    rewrite elem_of_list_to_set, list_elem_of_In, filter_In, <- list_elem_of_In.
    rewrite bool_decide_eq_true. split; [tauto|].
    intros Hx. split; [|exact Hx]. apply Hsub in Hx. now apply elem_of_list_to_set in Hx.
  - apply NoDup_ListNoDup, List.NoDup_filter, NoDup_ListNoDup, Hnd.
Qed.

Lemma clean_rows_count (idx : list nat) (S : gset nat) :
  NoDup idx -> S ⊆ list_to_set idx ->
  length (select (not_mask (map (fun row => bool_decide (row ∈ S)) idx)) idx)
  = (length idx - size S)%nat.
Proof.
  intros Hnd Hsub. unfold not_mask. rewrite map_map.
  rewrite (select_map_filter (fun row => negb (bool_decide (row ∈ S)))).
  pose proof (filter_negb_length (fun row => bool_decide (row ∈ S)) idx) as Hsum.
  rewrite (filter_set_length idx S Hnd Hsub) in Hsum. lia.
Qed.

Lemma prepare_for_upload_inv (f : File) (df : DataFrame) (r : Results) :
  prepare_for_upload f = inr (Some df, r) ->
  exists raw passed iss df1 df2 dm,
    read f = inr raw
    /\ validate_data (clean_column_names raw) = inr (passed, iss)
    /\ convert_data_types (clean_column_names raw) = inr df1
    /\ fix_missing_values df1 = inr df2
    /\ (if passed then dm = df2 else mark_records_with_issues df2 (Some iss) = inr dm)
    /\ df = format_for_upload dm
    /\ r = mkResults true passed (Some iss) None (len raw) (size (rows_with_issues iss)).
Proof.
  unfold prepare_for_upload, bind. intros H.
  destruct (process_inventory f) as [e|[odf r0]] eqn:Hp; [discriminate|].
  destruct (success r0) eqn:Hs; simpl in H; [|discriminate].
  apply process_inventory_inv in Hp
    as (raw & passed & iss & df1 & df2 & Hr & _ & Hv & Hc & Hf & -> & ->); [|exact Hs].
  simpl in H. exists raw, passed, iss, df1, df2.
  destruct passed; simpl in H.
  - injection H as <- <-. exists df2. repeat split; assumption.
  - destruct (mark_records_with_issues df2 (Some iss)) as [e|dm] eqn:Hm; [discriminate|].
    injection H as <- <-. exists dm. repeat split; assumption.
Qed.

(** X23: the upload after a run whose validation failed.  On an input
    with distinct row labels, the prepared frame has a boolean [has_issues]
    column that is [True] exactly on the rows some row-scoped category of
    the report lists; an upload that skips flagged records succeeds and
    uploads [records_processed - records_with_issues] records, one that
    does not skip uploads all [records_processed] records. *)
Theorem failed_validation_upload_count
  (f : File) (raw df : DataFrame) (r : Results) (upload_config : gmap string bool) :
  read f = inr raw -> NoDup (index raw) ->
  prepare_for_upload f = inr (Some df, r) -> validation_passed r = false ->
  exists iss,
    validation_issues r = Some iss
    /\ index df = index raw
    /\ flags df = Some (map (fun row => bool_decide (row ∈ affected_rows iss)) (index raw))
    /\ upload_inventory df upload_config
       = mkUpload true
           (if skip_records_with_issues upload_config
            then records_processed r - records_with_issues r
            else records_processed r)%nat
           0 None.
Proof.
  intros Hr Hnd Hp Hfail.
  apply prepare_for_upload_inv in Hp
    as (raw' & passed & iss & df1 & df2 & dm & Hr' & Hv & Hc & Hf & Hm & -> & ->).
  assert (raw' = raw) by congruence. subst raw'.
  simpl in Hfail. subst passed.
  exists iss. split; [reflexivity|].
  apply convert_data_types_shape in Hc. apply fix_missing_values_shape in Hf.
  assert (Hidx : index df2 = index raw).
  { destruct Hc as [Hc _], Hf as [Hf _]. now rewrite Hf, Hc. }
  destruct (mark_records_with_issues_spec df2 iss) as [_ Hmark].
  destruct (Hmark dm Hm) as (m & -> & Hmarks).
  rewrite Hidx in Hmarks.
  assert (Hindex : index (format_for_upload (annotated df2 m)) = index raw).
  { destruct (format_for_upload_spec (annotated df2 m)) as ([Hi _] & _).
    rewrite Hi. simpl. exact Hidx. }
  assert (Hflags : flags (format_for_upload (annotated df2 m))
                   = Some (map (fun row => bool_decide (row ∈ affected_rows iss)) (index raw))).
  { rewrite flags_annotated. f_equal. now apply marks_of_flags. }
  remember (format_for_upload (annotated df2 m)) as dfu eqn:Edfu. clear Edfu.
  split; [exact Hindex|]. split; [exact Hflags|].
  cbn [records_processed records_with_issues].
  unfold upload_inventory, clean_partition.
  destruct (skip_records_with_issues upload_config).
  - rewrite (flags_getitem _ _ Hflags).
    cbn [inverted_mask bind]. unfold len, filter_rows. cbn [index]. rewrite Hindex.
    rewrite clean_rows_count; [|exact Hnd|].
    + now rewrite rows_with_issues_affected.
    + now apply (validate_data_affected_rows _ _ _ Hv).
  - unfold len. now rewrite Hindex.
Qed.

Lemma inverted_mask_bool (s : Series) (e : exn) :
  inverted_mask s = inl e -> forall l, s <> Num (NBool l).
Proof. intros H l ->. discriminate. Qed.

Lemma upload_inventory_cases (df : DataFrame) (upload_config : gmap string bool) :
  (upload_success (upload_inventory df upload_config) = true
   /\ (records_uploaded (upload_inventory df upload_config) <= len df)%nat
   /\ records_failed (upload_inventory df upload_config) = 0%nat
   /\ upload_error_message (upload_inventory df upload_config) = None
   /\ (skip_records_with_issues upload_config = false
       \/ getitem "has_issues" df = None ->
       records_uploaded (upload_inventory df upload_config) = len df))
  \/ (upload_success (upload_inventory df upload_config) = false
      /\ records_uploaded (upload_inventory df upload_config) = 0%nat
      /\ records_failed (upload_inventory df upload_config) = len df
      /\ truthy (upload_error_message (upload_inventory df upload_config)) = true
      /\ skip_records_with_issues upload_config = true
      /\ exists s, getitem "has_issues" df = Some s /\ forall l, s <> Num (NBool l)).
Proof.
  unfold upload_inventory, clean_partition.
  destruct (skip_records_with_issues upload_config) eqn:Hskip.
  - destruct (getitem "has_issues" df) as [s|] eqn:Hs.
    + unfold bind. destruct (inverted_mask s) as [e|mask] eqn:Hm.
      * right. cbn [upload_success records_uploaded records_failed upload_error_message].
        repeat split; try reflexivity.
        exists s. split; [reflexivity|]. now apply (inverted_mask_bool s e).
      * left. cbn [upload_success records_uploaded records_failed upload_error_message].
        split; [reflexivity|]. split.
        { unfold len, filter_rows. cbn [index]. apply sublist_length, select_sublist. }
        split; [reflexivity|]. split; [reflexivity|].
        intros [H|H]; discriminate.
    + left. cbn. repeat split; try reflexivity; try lia.
  - left. cbn. repeat split; try reflexivity; try lia.
Qed.

(** X24: what [upload_inventory] can report.  Either the upload succeeds,
    and then it never reports more uploaded records than the frame has
    rows, reports no failed record and no error; or it fails, which
    happens only when flagged records are to be skipped and the frame has
    a [has_issues] column that is not boolean, and then it reports no
    uploaded record, every row as failed and an error message that is not
    empty.  Without skipping, or without a [has_issues] column, every row
    is uploaded. *)
Theorem upload_inventory_outcome (df : DataFrame) (upload_config : gmap string bool) :
  (upload_success (upload_inventory df upload_config) = true
   /\ (records_uploaded (upload_inventory df upload_config) <= len df)%nat
   /\ records_failed (upload_inventory df upload_config) = 0%nat
   /\ upload_error_message (upload_inventory df upload_config) = None
   /\ (skip_records_with_issues upload_config = false
       \/ getitem "has_issues" df = None ->
       records_uploaded (upload_inventory df upload_config) = len df))
  \/ (upload_success (upload_inventory df upload_config) = false
      /\ records_uploaded (upload_inventory df upload_config) = 0%nat
      /\ records_failed (upload_inventory df upload_config) = len df
      /\ truthy (upload_error_message (upload_inventory df upload_config)) = true
      /\ skip_records_with_issues upload_config = true
      /\ exists s, getitem "has_issues" df = Some s /\ forall l, s <> Num (NBool l)).
Proof. exact (upload_inventory_cases df upload_config). Qed.

(** X25: cleaning the labels does not lose a column.  If the cleaned
    labels are distinct, a column of the frame is found in the cleaned
    frame under its cleaned label, with the same cells. *)
Theorem getitem_clean_column_names (df : DataFrame) (col : string) :
  NoDup (columns (clean_column_names df)) -> col ∈ columns df ->
  getitem (clean_name col) (clean_column_names df) = getitem col df
  /\ is_Some (getitem col df).
Proof.
  rewrite columns_clean. unfold columns, getitem, clean_column_names. simpl.
  induction (data df) as [|[k s] l IH]; simpl; intros Hnd Hin; [inversion Hin|].
  apply NoDup_cons in Hnd as [Hfresh Hnd].
  destruct (String.eqb col k) eqn:E.
  - apply String.eqb_eq in E. subst k. rewrite String.eqb_refl. eauto.
  - apply String.eqb_neq in E. apply elem_of_cons in Hin as [Hin|Hin]; [contradiction|].
    destruct (String.eqb (clean_name col) (clean_name k)) eqn:E'.
    + apply String.eqb_eq in E'. exfalso. apply Hfresh. rewrite <- E'.
      apply elem_of_map in Hin as ([k' s'] & -> & Hin). simpl.
      apply elem_of_map. exists k'. split; [reflexivity|].
      apply elem_of_map. exists (k', s'). auto.
    + apply IH; assumption.
Qed.

(** ** One cell per row and column *)

Lemma series_len_cells (n : NumSeries) : length (cells n) = series_len (Num n).
Proof. destruct n; simpl; apply length_map. Qed.

Lemma series_len_to_numeric (s : Series) :
  series_len (Num (to_numeric_coerce s)) = series_len s.
Proof.
  destruct s as [n|l]; [reflexivity|]. simpl. unfold pack.
  destruct (forallb _ _); simpl; now rewrite !length_map.
Qed.

Lemma series_len_astype_Int64 (n n' : NumSeries) :
  astype_Int64 n = inr n' -> series_len (Num n') = series_len (Num n).
Proof.
  intros H. destruct (astype_Int64_cells n n' H) as (l & -> & Hlen & _).
  simpl. now rewrite Hlen, series_len_cells.
Qed.

Lemma series_len_fillna_str (text : string) (s s' : Series) :
  fillna_str text s = inr s' -> series_len s' = series_len s.
Proof.
  destruct s as [[l|l|l|l]|l]; simpl;
    try (destruct (existsb is_None l)); try discriminate;
    intros [= <-]; simpl; rewrite ?length_map; reflexivity.
Qed.

Lemma series_len_fillna_median (n n' : NumSeries) :
  fillna_median n = inr n' -> series_len (Num n') = series_len (Num n).
Proof.
  destruct n as [l|l|l|l]; simpl.
  - now intros [= <-].
  - destruct (omap id l); intros [= <-]; simpl; rewrite ?length_map; reflexivity.
  - now intros [= <-].
  - destruct (existsb is_None l); [|now intros [= <-]].
    destruct (omap id l); [now intros [= <-]|].
    destruct (num_to_int _); [|discriminate].
    intros [= <-]. simpl. now rewrite length_map.
Qed.

Lemma well_formed_setitem (name : string) (s : Series) (d : DataFrame) :
  well_formed d -> series_len s = len d -> well_formed (setitem name s d).
Proof.
  unfold well_formed, setitem, len; simpl. intros Hwf Hs.
  induction (data d) as [|[k s0] l IH]; simpl.
  - constructor; [exact Hs | constructor].
  - apply Forall_cons in Hwf as [H0 Hl].
    destruct (String.eqb name k); constructor; auto.
Qed.

Lemma well_formed_update_step {E : Type} (key : E -> string)
  (g : E -> Series -> result Series) (entries : list E) :
  (forall e s s', g e s = inr s' -> series_len s' = series_len s) ->
  forall d d', well_formed d -> foldM (update_step key g) entries d = inr d' ->
    well_formed d'.
Proof.
  intros Hg. induction entries as [|e entries IH]; intros d d' Hwf H; simpl in H.
  - now injection H as <-.
  - destruct (update_step key g d e) as [err|d1] eqn:Hstep; [discriminate|].
    apply (IH d1 d'); [|exact H].
    unfold update_step, bind in Hstep.
    destruct (getitem (key e) d) as [s|] eqn:Hs; [|now injection Hstep as <-].
    destruct (g e s) as [err|s'] eqn:Hgs; [discriminate|].
    injection Hstep as <-. apply well_formed_setitem; [exact Hwf|].
    rewrite (Hg e s s' Hgs). now apply (well_formed_getitem d (key e)).
Qed.

Lemma well_formed_clean (d : DataFrame) :
  well_formed d -> well_formed (clean_column_names d).
Proof.
  unfold well_formed, clean_column_names, len; simpl. intros H.
  induction H as [|[k s] l Hs Hl IH]; simpl; constructor; auto.
Qed.

Lemma convert_series_len (e : string * string) (s s' : Series) :
  convert_series e s = inr s' -> series_len s' = series_len s.
Proof.
  unfold convert_series, bind. destruct (String.eqb (snd e) "int").
  - destruct (astype_Int64 _) as [err|n] eqn:Ha; [discriminate|].
    intros [= <-]. rewrite (series_len_astype_Int64 _ _ Ha). apply series_len_to_numeric.
  - destruct (String.eqb (snd e) "numeric"); intros [= <-];
      [apply series_len_to_numeric | reflexivity].
Qed.

Lemma repair_column_len (col : string) (s s' : Series) :
  repair_column col s = inr s' -> series_len s' = series_len s.
Proof.
  unfold repair_column, repair_series, bind.
  destruct (String.eqb col "Drivetrain Type"); [apply series_len_fillna_str|].
  destruct s as [n|l]; [|now intros [= <-]].
  destruct (fillna_median n) as [err|n'] eqn:Hf; [discriminate|].
  intros [= <-]. now apply series_len_fillna_median.
Qed.

Lemma length_astype_str (s : Series) : length (astype_str s) = series_len s.
Proof. destruct s as [[l|l|l|l]|l]; simpl; apply length_map. Qed.

Lemma format_column_len (col : string) (s s' : Series) :
  format_column col s = inr s' -> series_len s' = series_len s.
Proof.
  unfold format_column, numeric_series, vin_series, text_series.
  destruct (bool_decide _); [intros [= <-]; apply series_len_to_numeric|].
  destruct (String.eqb col "VIN"); intros [= <-]; simpl;
    rewrite ?length_map; apply length_astype_str.
Qed.

Lemma well_formed_annotated (d : DataFrame) (S : gset nat) (m : marks) :
  well_formed d -> marks_of (index d) S m -> well_formed (annotated d m).
Proof.
  intros Hwf (H1 & H2 & _). unfold annotated.
  apply well_formed_setitem; [apply well_formed_setitem; [exact Hwf | exact H1]|].
  simpl. rewrite length_map. exact H2.
Qed.

(** X26: the pipeline keeps the frame rectangular.  If the input has one
    cell per row in every column, so has the frame [prepare_for_upload]
    returns, annotated or not, and it has the rows of the input. *)
Theorem prepare_for_upload_well_formed
  (f : File) (raw df : DataFrame) (r : Results) :
  read f = inr raw -> well_formed raw ->
  prepare_for_upload f = inr (Some df, r) ->
  well_formed df /\ index df = index raw /\ records_processed r = len raw.
Proof.
  intros Hr Hwf Hp.
  apply prepare_for_upload_inv in Hp
    as (raw' & passed & iss & df1 & df2 & dm & Hr' & Hv & Hc & Hf & Hm & -> & ->).
  assert (raw' = raw) by congruence. subst raw'.
  assert (Hwf1 : well_formed df1).
  { rewrite convert_data_types_update in Hc.
    eapply (well_formed_update_step fst convert_series); [|apply well_formed_clean, Hwf|exact Hc].
    apply convert_series_len. }
  assert (Hwf2 : well_formed df2).
  { rewrite fix_missing_values_update in Hf.
    eapply (well_formed_update_step id repair_column); [|exact Hwf1|exact Hf].
    apply repair_column_len. }
  apply convert_data_types_shape in Hc. apply fix_missing_values_shape in Hf.
  assert (Hidx : index df2 = index raw).
  { destruct Hc as [Hc _], Hf as [Hf _]. now rewrite Hf, Hc. }
  assert (Hdm : well_formed dm /\ index dm = index raw).
  { destruct passed.
    - subst dm. auto.
    - destruct (mark_records_with_issues_spec df2 iss) as [_ Hmark].
      destruct (Hmark dm Hm) as (m & -> & Hmarks).
      split; [now apply (well_formed_annotated df2 (affected_rows iss))|].
      exact Hidx. }
  destruct Hdm as [Hwfm Him].
  split; [|split; [|reflexivity]].
  - eapply (well_formed_update_step id format_column);
      [|apply well_formed_clean, Hwfm|apply format_for_upload_update].
    apply format_column_len.
  - destruct (format_for_upload_spec dm) as ([Hi _] & _). rewrite Hi. exact Him.
Qed.

(** ** The exceptions that leave the run *)

Lemma repair_column_error (col : string) (s : Series) (e : exn) :
  repair_column col s = inl e -> fill_failure e /\ is_nullable_int s.
Proof.
  unfold repair_column, repair_series, bind, fill_failure.
  destruct s as [[l|l|l|l]|l]; destruct (String.eqb col "Drivetrain Type"); simpl;
    try discriminate;
    try (destruct (existsb is_None l); discriminate);
    try (destruct (omap id l); discriminate).
  - destruct (existsb is_None l); [|discriminate].
    intros [= <-]. split; eexists; reflexivity.
  - destruct (existsb is_None l); [|discriminate].
    destruct (omap id l); [discriminate|].
    destruct (num_to_int _); [discriminate|].
    intros [= <-]. split; eexists; reflexivity.
Qed.

Lemma fix_missing_values_error (d : DataFrame) (e : exn) :
  fix_missing_values d = inl e ->
  fill_failure e
  /\ exists col s, col ∈ repaired_columns /\ getitem col d = Some s /\ is_nullable_int s.
Proof.
  rewrite fix_missing_values_update. intros H. split.
  - revert H. apply foldM_update_step_error. intros c s err Hc.
    now apply repair_column_error in Hc as [Hc _].
  - destruct (foldM_update_step_raises id repair_column repaired_columns d
                repaired_columns_NoDup) as [Hr _].
    destruct Hr as (col & s & err & Hin & Hs & Hg); [eauto|].
    apply repair_column_error in Hg as [_ Hn]. eauto.
Qed.

Lemma repaired_not_schema (col : string) :
  col ∈ repaired_columns -> col ∉ map fst expected_types.
Proof.
  unfold repaired_columns. intros H Hs.
  repeat (apply elem_of_cons in H as [->|H]); try (inversion H; fail);
    unfold expected_types in Hs; simpl in Hs;
    repeat (apply elem_of_cons in Hs as [Hs|Hs]); try discriminate; inversion Hs.
Qed.

(** X27: the exceptions that can leave [process_inventory], which has no
    handler of its own, on a file whose frame is plain once its labels are
    cleaned (the headers are text, no cleaned label occurs twice, the
    integers do not exceed [2^53] in magnitude).  The frame is not empty
    and the extension is supported, and the exception comes from one of
    three steps: the [AttributeError] of the [.str] accessor in
    [validate_data], on a [Class] column without text; a [TypeError] or an
    [OverflowError] of the integer cast in [convert_data_types], on [Year]
    or [Odometer]; or the [TypeError] of [fillna] in [fix_missing_values],
    on one of its three columns that the input holds as nullable
    integers.  Errors of the input itself never raise: they are
    returned. *)
Theorem process_inventory_exceptions (f : File) (raw : DataFrame) (e : exn) :
  read f = inr raw -> plain (clean_column_names raw) = true ->
  process_inventory f = inl e ->
  df_empty raw = false /\ supported (ext f) = true
  /\ ((e = accessor_error /\ validate_data (clean_column_names raw) = inl e)
      \/ (cast_failure e /\ convert_data_types (clean_column_names raw) = inl e)
      \/ (fill_failure e
          /\ exists col s, col ∈ repaired_columns
               /\ getitem col (clean_column_names raw) = Some s
               /\ is_nullable_int s)).
Proof.
  intros Hraw _ H.
  destruct (read_inventory_file_cases f)
    as [(raw' & Hread & Hsup & Hr & He)|(msg & Hread & Ht & _)].
  - assert (raw' = raw) by congruence. subst raw'.
    split; [exact He|]. split; [exact Hsup|].
    rewrite (process_inventory_read f raw Hread) in H. unfold bind in H.
    destruct (validate_data _) as [e1|[passed iss]] eqn:Hv.
    + injection H as <-. left. split; [|reflexivity].
      now apply validate_data_raises in Hv as [-> _].
    + destruct (convert_data_types _) as [e2|df1] eqn:Hc.
      * injection H as <-. right; left. split; [|reflexivity].
        eapply convert_data_types_error, Hc.
      * destruct (fix_missing_values df1) as [e3|df2] eqn:Hf; [|discriminate].
        injection H as <-. right; right.
        apply fix_missing_values_error in Hf as [Hfail (col & s & Hcol & Hs & Hn)].
        split; [exact Hfail|]. exists col, s. split; [exact Hcol|]. split; [|exact Hn].
        destruct (convert_data_types_spec _ _ Hc) as (_ & Hother & _).
        rewrite <- (Hother col (repaired_not_schema col Hcol)). exact Hs.
  - rewrite (process_inventory_failure f msg Hread Ht) in H. discriminate.
Qed.

(** ** The whole process *)

Lemma prepare_for_upload_index (f : File) (df : DataFrame) (r : Results) :
  prepare_for_upload f = inr (Some df, r) ->
  success r = true /\ error_message r = None /\ records_processed r = len df.
Proof.
  intros Hp.
  apply prepare_for_upload_inv in Hp
    as (raw & passed & iss & df1 & df2 & dm & Hr & Hv & Hc & Hf & Hm & -> & ->).
  split; [reflexivity|]. split; [reflexivity|].
  apply convert_data_types_shape in Hc. apply fix_missing_values_shape in Hf.
  assert (Hidx : index df2 = index raw).
  { destruct Hc as [Hc _], Hf as [Hf _]. now rewrite Hf, Hc. }
  assert (Him : index dm = index raw).
  { destruct passed.
    - now subst dm.
    - destruct (mark_records_with_issues_spec df2 iss) as [_ Hmark].
      destruct (Hmark dm Hm) as (m & -> & _). exact Hidx. }
  destruct (format_for_upload_spec dm) as ([Hi _] & _).
  cbn [records_processed]. unfold len. rewrite Hi. cbn [clean_column_names index].
  now rewrite Him.
Qed.

Lemma prepare_for_upload_None (f : File) (r : Results) :
  prepare_for_upload f = inr (None, r) ->
  success r = false /\ truthy (error_message r) = true
  /\ records_processed r = 0%nat /\ records_with_issues r = 0%nat.
Proof.
  unfold prepare_for_upload, bind. intros H.
  destruct (process_inventory f) as [e|[odf r0]] eqn:Hp; [discriminate|].
  destruct (success r0) eqn:Hs; cbn [negb] in H.
  - destruct odf as [d|]; [|discriminate].
    destruct (if negb (validation_passed r0) then _ else _); discriminate.
  - injection H as ->.
    destruct (process_inventory_cases f odf r Hp)
      as [(Ht & _)|(_ & _ & He & _ & _ & Hn & Hi)]; [congruence|].
    repeat split; assumption.
Qed.

(** X28: what [handle_upload_process] returns.  Either the preparation
    failed: the results are those of the preparation, with [success] false,
    an error message that is not empty and no record processed.  Or the
    upload was tried: the preparation had succeeded, the uploaded and the
    failed records together are at most the processed ones, [success] is
    the one of the upload and is true exactly when there is no error
    message, and a failed upload counts every processed record as failed. *)
Theorem handle_upload_process_outcome
  (f : File) (upload_config : option (gmap string bool)) (p : ProcessResults) :
  handle_upload_process f upload_config = inr p ->
  (exists r, p = Prepared r /\ combined_success p = false
     /\ truthy (combined_error_message p) = true
     /\ records_processed r = 0%nat)
  \/ (exists r u, p = Combined r u /\ success r = true /\ error_message r = None
        /\ (records_uploaded u + records_failed u <= records_processed r)%nat
        /\ (combined_success p = true <-> combined_error_message p = None)
        /\ (combined_success p = false ->
            records_uploaded u = 0%nat /\ records_failed u = records_processed r)).
Proof.
  unfold handle_upload_process, bind. intros H.
  destruct (prepare_for_upload f) as [e|[[df|] r]] eqn:Hp; [discriminate| |].
  - injection H as <-. right.
    apply prepare_for_upload_index in Hp as (Hs & He & Hn).
    exists r, (upload_inventory df (default default_config upload_config)).
    split; [reflexivity|]. split; [exact Hs|]. split; [exact He|].
    cbn [combined_success combined_error_message]. rewrite Hn.
    destruct (upload_inventory_cases df (default default_config upload_config))
      as [(Hu & Hle & Hf & Hm & _)|(Hu & Hz & Hf & Hm & _)].
    + rewrite Hu, Hf, Hm. split; [lia|]. split; [tauto|]. discriminate.
    + rewrite Hu, Hz, Hf. split; [lia|]. split; [|auto].
      split; [discriminate|]. intros Hnone. rewrite Hnone in Hm. discriminate Hm.
  - injection H as <-. left.
    apply prepare_for_upload_None in Hp as (Hs & He & Hn & _).
    exists r. repeat split; assumption.
Qed.

(** ** A run that passes validation *)

Lemma select_all {A : Type} (l : list A) : select (replicate (length l) true) l = l.
Proof. induction l as [|x l IH]; simpl; [reflexivity | now rewrite IH]. Qed.

Lemma select_not_all {A : Type} (flags : list bool) (l : list A) :
  length flags = length l ->
  length (select (not_mask flags) l) = length l ->
  flags = replicate (length l) false.
Proof.
  revert l. induction flags as [|b flags IH]; intros [|x l] Hlen Hsel; try discriminate.
  - reflexivity.
  - simpl in *. injection Hlen as Hlen. destruct b; simpl in Hsel.
    + pose proof (sublist_length _ _ (select_sublist (not_mask flags) l)). lia.
    + injection Hsel as Hsel. now rewrite <- (IH l Hlen Hsel).
Qed.

Lemma getitem_has_issues_prepared (f : File) (raw df : DataFrame) (r : Results) :
  read f = inr raw -> prepare_for_upload f = inr (Some df, r) ->
  validation_passed r = true ->
  getitem "has_issues" df = getitem "has_issues" raw /\ (0 < len raw)%nat.
Proof.
  intros Hr Hp Hv. unfold prepare_for_upload, bind in Hp.
  destruct (process_inventory f) as [e|[odf r0]] eqn:Hpi; [discriminate|].
  destruct (success r0) eqn:Hs; simpl in Hp; [|discriminate].
  apply process_inventory_inv in Hpi
    as (raw' & passed & iss & df1 & df2 & Hr' & He & _ & Hc & Hf & -> & ->);
    [|exact Hs].
  assert (raw' = raw) by congruence. subst raw'.
  simpl in Hp. destruct passed; simpl in Hp.
  - injection Hp as <- <-. split.
    + rewrite getitem_has_issues_format.
      rewrite fix_missing_values_update in Hf.
      destruct (foldM_update_step id repair_column repaired_columns df1 df2
                  repaired_columns_NoDup Hf) as (_ & Hother & _).
      rewrite Hother.
      2:{ intros H. unfold repaired_columns in H. simpl in H.
          repeat (apply elem_of_cons in H as [H|H]; [discriminate|]). inversion H. }
      destruct (convert_data_types_spec _ _ Hc) as (_ & Hother' & _).
      rewrite Hother'.
      2:{ intros H. unfold expected_types in H. simpl in H.
          repeat (apply elem_of_cons in H as [H|H]; [discriminate|]). inversion H. }
      now apply getitem_clean_plain.
    + unfold df_empty in He. apply orb_false_iff in He as [He _].
      apply Nat.eqb_neq in He. unfold len. lia.
  - destruct (mark_records_with_issues _ _); [discriminate|].
    injection Hp as _ <-. discriminate.
Qed.

(** C10 (amended): when validation passes, the frame prepared for upload
    has exactly the rows and the column labels of the cleaned input, so
    that no [has_issues] or [issue_type] column is added, and a
    [has_issues] column is there only if the input brought one.  The
    upload then reports [records_uploaded] equal to the number of processed
    records whenever flagged records are not to be skipped, and also when
    they are, provided the input has no [has_issues] column of its own or
    that column is [False] in every row; for an input with one cell per row
    in every column these are the only cases. *)
Theorem passed_run_uploads_every_record
  (f : File) (raw df : DataFrame) (r : Results) :
  read f = inr raw ->
  prepare_for_upload f = inr (Some df, r) ->
  validation_passed r = true ->
  (columns df = columns (clean_column_names raw) /\ index df = index raw
   /\ getitem "has_issues" df = getitem "has_issues" raw)
  /\ (forall upload_config,
        skip_records_with_issues upload_config = false
        \/ getitem "has_issues" raw = None
        \/ getitem "has_issues" raw = Some (Num (NBool (replicate (len raw) false))) ->
        upload_inventory df upload_config = mkUpload true (records_processed r) 0 None)
  /\ (well_formed raw -> forall upload_config,
        records_uploaded (upload_inventory df upload_config) = records_processed r ->
        skip_records_with_issues upload_config = false
        \/ getitem "has_issues" raw = None
        \/ getitem "has_issues" raw = Some (Num (NBool (replicate (len raw) false)))).
Proof.
  intros Hr Hp Hv.
  destruct (prepare_passed_shape f raw df r Hr Hp Hv) as [Hshape Hn].
  destruct (getitem_has_issues_prepared f raw df r Hr Hp Hv) as [Hget Hpos].
  assert (Hidx : index df = index raw) by apply Hshape.
  assert (Hlen : len df = len raw) by (unfold len; now rewrite Hidx).
  split; [split; [apply Hshape | split; [exact Hidx | exact Hget]]|].
  split.
  - intros cfg Hcase. unfold upload_inventory, clean_partition. rewrite Hn, <- Hlen.
    destruct (skip_records_with_issues cfg); [|reflexivity].
    destruct Hcase as [Hcase|[Hcase|Hcase]]; [discriminate| |];
      rewrite Hget, Hcase; [reflexivity|].
    cbn [inverted_mask bind]. unfold len, filter_rows. cbn [index].
    rewrite Hidx.
    replace (not_mask (replicate (length (index raw)) false))
      with (replicate (length (index raw)) true)
      by (unfold not_mask; induction (length (index raw)); simpl; congruence).
    now rewrite select_all.
  - intros Hwf cfg Hup. rewrite Hn in Hup. unfold upload_inventory, clean_partition in Hup.
    destruct (skip_records_with_issues cfg); [|now left]. right.
    rewrite Hget in Hup.
    destruct (getitem "has_issues" raw) as [s|] eqn:Hs; [|now left]. right.
    pose proof (well_formed_getitem raw "has_issues" s Hwf Hs) as Hslen.
    unfold bind in Hup. destruct (inverted_mask s) as [e|mask] eqn:Hm.
    + simpl in Hup. lia.
    + destruct s as [[l|l|l|l]|l]; try discriminate.
      * simpl in Hm. injection Hm as <-. simpl in Hslen, Hup.
        unfold len, filter_rows in Hup. cbn [index] in Hup. rewrite Hidx in Hup.
        unfold len in Hslen. unfold len.
        now rewrite <- (select_not_all l (index raw) Hslen Hup).
      * destruct l; [|cbn [inverted_mask] in Hm; destruct (forallb _ _); discriminate Hm].
        simpl in Hslen. lia.
Qed.

End Coverage.

(** * The price rule and the numbers of the specification *)

Import Float64 Exact.

(** ** The number a float is *)

Lemma two_pos (e : Z) : (0 < 2 ^ e)%Q.
Proof. apply Qpower_0_lt. reflexivity. Qed.

Lemma two_succ (e : Z) : (2 ^ (e + 1) == 2 * 2 ^ e)%Q.
Proof. rewrite Qpower_plus by discriminate. rewrite Qmult_comm. reflexivity. Qed.

Lemma strip_value (p : positive) (e : Z) :
  (inject_Z (Zpos (fst (strip p e))) * 2 ^ snd (strip p e) == inject_Z (Zpos p) * 2 ^ e)%Q.
Proof.
  revert e. induction p as [p IH|p IH|]; intros e; simpl; try reflexivity.
  rewrite IH, two_succ.
  change (Z.pos p~0) with (2 * Z.pos p)%Z. rewrite inject_Z_mult. ring.
Qed.

Lemma same_number_refl (a : extended) : same_number a a.
Proof. destruct a; simpl; auto. reflexivity. Qed.

Lemma below_same (a a' b b' : extended) :
  same_number a a' -> same_number b b' -> below a b <-> below a' b'.
Proof.
  destruct a, a', b, b'; simpl; try tauto.
  intros Ha Hb. now rewrite Ha, Hb.
Qed.

Lemma normal_value (neg : bool) (m : BinNums.N) (e : Z) :
  same_number (float_value (normal neg m e))
              (Rational (inject_Z (signed neg m) * 2 ^ e)).
Proof.
  destruct m as [|p]; simpl.
  - destruct neg; simpl; ring_simplify; reflexivity.
  - pose proof (strip_value p e) as H. destruct (strip p e) as [p' e']. simpl in *.
    destruct neg; simpl.
    + change (Z.neg p') with (- Z.pos p')%Z. change (Z.neg p) with (- Z.pos p)%Z.
      rewrite !inject_Z_opp.
      transitivity (- (inject_Z (Z.pos p') * 2 ^ e'))%Q; [ring|]. rewrite H. ring.
    + exact H.
Qed.

Lemma size_small (m : BinNums.N) : (m < 2 ^ 53)%N -> (N.size m <= 53)%N.
Proof.
  intros H. pose proof (N.size_le m) as Hle.
  destruct (N.le_gt_cases (N.size m) 53) as [Hs|Hs]; [exact Hs|exfalso].
  assert (2 ^ 54 <= 2 ^ N.size m)%N by (apply N.pow_le_mono_r; lia).
  assert (N.succ_double m < 2 ^ 54)%N by (rewrite N.succ_double_spec; lia).
  lia.
Qed.

Lemma of_Z_exact (z : Z) :
  small z = true -> same_number (float_value (of_Z z)) (Rational (inject_Z z)).
Proof.
  unfold small. intros H. apply Z.leb_le in H.
  destruct (Z.eq_dec (Z.abs z) (2 ^ 53)%Z) as [E|E].
  - destruct (Z.abs_eq_or_opp z) as [Hz|Hz]; rewrite Hz in E.
    + assert (z = 2 ^ 53)%Z by lia. subst z. vm_compute. reflexivity.
    + assert (z = - 2 ^ 53)%Z by lia. subst z. vm_compute. reflexivity.
  - assert (Hm : (Z.abs_N z < 2 ^ 53)%N).
    { apply N2Z.inj_lt. rewrite N2Z.inj_abs_N. change (Z.of_N (2 ^ 53)) with (2 ^ 53)%Z. lia. }
    apply size_small in Hm.
    unfold of_Z, round, bits, prec, emin, emax.
    assert (Hq : (Z.max (Z.of_N (N.size (Z.abs_N z)) + 0 - 53) (-1074) <= 0)%Z) by lia.
    destruct (0 <? Z.max _ _)%Z eqn:E1; [apply Z.ltb_lt in E1; lia|].
    rewrite Z.max_l by lia.
    destruct (1024 <? _)%Z eqn:E2; [apply Z.ltb_lt in E2; lia|].
    pose proof (normal_value (z <? 0)%Z (Z.abs_N z) 0) as Hn.
    destruct (float_value _) as [|q|]; simpl in *; try contradiction.
    rewrite Hn. change (2 ^ 0)%Q with 1%Q. rewrite Qmult_1_r.
    unfold signed. rewrite N2Z.inj_abs_N.
    destruct (z <? 0)%Z eqn:Ez.
    + apply Z.ltb_lt in Ez. rewrite Z.abs_neq by lia. now rewrite Z.opp_involutive.
    + apply Z.ltb_ge in Ez. now rewrite Z.abs_eq by lia.
Qed.


Lemma scaled_value (neg : bool) (m : BinNums.N) (e k : Z) :
  (0 <= e + k)%Z ->
  (inject_Z (scaled neg m e k) == inject_Z (signed neg m) * 2 ^ e * 2 ^ k)%Q.
Proof.
  intros H. unfold scaled.
  rewrite inject_Z_mult, Zpower_Qpower by exact H.
  rewrite Qpower_plus by discriminate. change (inject_Z 2) with 2%Q. ring.
Qed.

Lemma lt_below (x y : float) : lt x y = true <-> below (float_value x) (float_value y).
Proof.
  destruct x as [s m e|s], y as [s' m' e'|s']; simpl.
  - rewrite Z.ltb_lt, Zlt_Qlt, !scaled_value by lia.
    apply Qmult_lt_r, two_pos.
  - destruct s'; simpl; intuition discriminate.
  - destruct s; simpl; intuition discriminate.
  - destruct s, s'; simpl; intuition discriminate.
Qed.

(** ** The cells of a coerced column *)

Lemma coerce_value_reading (v : value) : coerce_value v = reading v.
Proof.
  destruct v as [|z|x|t]; reflexivity.
Qed.

Lemma small_bool (b : bool) : small (Z.b2z b) = true.
Proof. destruct b; reflexivity. Qed.

(** The integers among the readings of a series with small integers. *)
Lemma small_readings (s : Series) (k : nat) (z : Z) :
  small_integers s = true -> readings s !! k = Some (Some (I z)) -> small z = true.
Proof.
  destruct s as [[l|l|l|l]|l]; simpl; intros Hs Hk.
  - rewrite forallb_forall in Hs. apply list_lookup_fmap_Some in Hk as (z' & [= <-] & Hz).
    apply Hs, list_elem_of_In, list_elem_of_lookup. eauto.
  - apply list_lookup_fmap_Some in Hk as ([x|] & Hx & _); discriminate.
  - apply list_lookup_fmap_Some in Hk as (b & [= ->] & _). apply small_bool.
  - rewrite forallb_forall in Hs. apply list_lookup_fmap_Some in Hk as ([z'|] & Hx & Hz); [|discriminate].
    injection Hx as <-.
    apply (Hs (Some z)), list_elem_of_In, list_elem_of_lookup. eauto.
  - rewrite forallb_forall in Hs. apply list_lookup_fmap_Some in Hk as (v & Hv & Hz).
    assert (Hsv : small_value v = true)
      by (apply Hs, list_elem_of_In, list_elem_of_lookup; eauto).
    destruct v as [|z'|x|t]; simpl in Hv, Hsv; try discriminate.
    + now injection Hv as <-.
    + change (str_to_num t) with (parse t) in Hsv.
      destruct (parse t); try discriminate. now injection Hv as <-.
Qed.

Lemma lookup_cells_fmap (l : list (option number)) (k : nat) (x : number) :
  map (fun o => F <$> (to_float <$> o)) l !! k = Some (Some x)
  <-> exists p, l !! k = Some (Some p) /\ x = F (to_float p).
Proof.
  rewrite lookup_map. destruct (l !! k) as [[p|]|]; simpl.
  - split; [intros [= <-]; eauto | intros (p' & [= <-] & ->); reflexivity].
  - split; [discriminate | intros (p' & H & _); discriminate].
  - split; [discriminate | intros (p' & H & _); discriminate].
Qed.

Lemma forallb_over_map {A B : Type} (f : B -> bool) (g : A -> B) (l : list A) :
  forallb f (map g l) = forallb (fun a => f (g a)) l.
Proof. induction l as [|a l IH]; simpl; [reflexivity | now rewrite IH]. Qed.

Lemma coerced_cell (s : Series) (k : nat) (x : number) :
  cells (to_numeric_coerce s) !! k = Some (Some x)
  <-> exists p, readings s !! k = Some (Some p) /\ x = held s p.
Proof.
  destruct s as [n|l].
  - simpl. split; [eauto | intros (p & H & ->); exact H].
  - cbn [to_numeric_coerce readings held integers]. unfold pack.
    replace (map coerce_value l) with (map reading l)
      by (apply map_ext; intros v; symmetry; apply coerce_value_reading).
    rewrite forallb_over_map.
    destruct (forallb (fun v => is_int_cell (reading v)) l) eqn:E.
    + cbn [cells]. rewrite map_map, !lookup_map.
      rewrite forallb_forall in E.
      destruct (l !! k) as [v|] eqn:Hv; simpl.
      * specialize (E v). rewrite <- list_elem_of_In in E.
        assert (Hi : is_int_cell (reading v) = true)
          by (apply E, list_elem_of_lookup; eauto).
        destruct (reading v) as [[z|f]|]; try discriminate. simpl. split.
        -- intros [= <-]. eauto.
        -- intros (p & [= <-] & ->). reflexivity.
      * split; [discriminate | intros (p & H & _); discriminate].
    + cbn [cells]. rewrite map_map.
      change (fun x0 : option number => F <$> (to_float <$> x0))
        with (fun o : option number => F <$> (to_float <$> o)).
      apply lookup_cells_fmap.
Qed.

Lemma to_float_value (n : number) :
  faithful n -> same_number (float_value (to_float n)) (value_of n).
Proof.
  destruct n as [z|x]; simpl; intros H.
  - now apply of_Z_exact.
  - apply same_number_refl.
Qed.

Lemma lt_cell_ints (a b : Z) :
  lt_cell (Some (I a)) (Some (I b)) = true <-> below (value_of (I a)) (value_of (I b)).
Proof. simpl. now rewrite Z.ltb_lt, Zlt_Qlt. Qed.

Lemma lt_cell_exact (x y : number) :
  faithful x -> faithful y ->
  lt_cell (Some x) (Some y) = true <-> below (value_of x) (value_of y).
Proof.
  intros Hx Hy. destruct x as [a|x], y as [b|y]; [apply lt_cell_ints| | |];
    cbn [lt_cell]; change num_lt with lt; rewrite lt_below;
    apply below_same; now apply to_float_value.
Qed.

Lemma held_value (s : Series) (p : number) :
  faithful p -> faithful (held s p) /\ same_number (value_of (held s p)) (value_of p).
Proof.
  intros Hp. unfold held. destruct s as [n|l].
  - split; [exact Hp | apply same_number_refl].
  - destruct (integers (Object l)).
    + split; [exact Hp | apply same_number_refl].
    + split; [exact Logic.I|]. simpl. now apply to_float_value.
Qed.

Lemma integers_reading (s : Series) (k : nat) (p : number) :
  integers s = true -> readings s !! k = Some (Some p) ->
  held s p = p /\ exists z, p = I z.
Proof.
  intros Hi Hk. split.
  - unfold held. destruct s; [reflexivity | now rewrite Hi].
  - destruct s as [[l|l|l|l]|l]; simpl in Hi, Hk; try discriminate.
    + apply list_lookup_fmap_Some in Hk as (z & [= ->] & _). eauto.
    + apply list_lookup_fmap_Some in Hk as (z & [= ->] & _). eauto.
    + apply list_lookup_fmap_Some in Hk as ([z|] & Hz & _); [|discriminate].
      injection Hz as ->. eauto.
    + rewrite forallb_forall in Hi.
      apply list_lookup_fmap_Some in Hk as (v & Hv & Hl).
      assert (H : is_int_cell (reading v) = true)
        by (apply Hi, list_elem_of_In, list_elem_of_lookup; eauto).
      rewrite <- Hv in H. destruct p; [eauto | discriminate].
Qed.

Lemma exact_reading (s : Series) (k : nat) (p : number) :
  small_integers s = true -> readings s !! k = Some (Some p) -> faithful p.
Proof.
  intros Hs Hk. destruct p as [z|x]; [|exact Logic.I].
  simpl. eapply small_readings; eauto.
Qed.

(** The comparison pandas makes of the two held cells is the comparison
    of the numbers the two columns read. *)
Lemma lt_cell_readings (sp sc : Series) (k : nat) (p c : number) :
  comparable sp sc = true ->
  readings sp !! k = Some (Some p) -> readings sc !! k = Some (Some c) ->
  lt_cell (Some (held sp p)) (Some (held sc c)) = true
  <-> below (value_of p) (value_of c).
Proof.
  intros Hcmp Hp Hc. apply orb_true_iff in Hcmp as [H|H].
  - apply andb_true_iff in H as [H1 H2].
    destruct (held_value sp p (exact_reading sp k p H1 Hp)) as [Hxe Hxv].
    destruct (held_value sc c (exact_reading sc k c H2 Hc)) as [Hye Hyv].
    rewrite (lt_cell_exact _ _ Hxe Hye). now apply below_same.
  - apply andb_true_iff in H as [H _]. apply andb_true_iff in H as [H _].
    apply andb_true_iff in H as [H1 H2].
    destruct (integers_reading sp k p H1 Hp) as [-> [a ->]].
    destruct (integers_reading sc k c H2 Hc) as [-> [b ->]].
    apply lt_cell_ints.
Qed.

(** ** The float of an integer *)

Lemma nearest_even_unfold (m : BinNums.N) (d : Z) :
  (0 < d)%Z ->
  nearest_even m d
  = let D := Z.to_N d in
    let q := (m / 2 ^ D)%N in
    let r := (m mod 2 ^ D)%N in
    if ((2 ^ (D - 1) <? r)%N || ((r =? 2 ^ (D - 1))%N && N.odd q)) then N.succ q else q.
Proof.
  intros Hd. unfold nearest_even. cbv zeta.
  rewrite N.shiftr_div_pow2, !N.shiftl_mul_pow2, N.mul_1_l.
  replace (Z.to_N (d - 1)) with (Z.to_N d - 1)%N by lia.
  replace (m - m / 2 ^ Z.to_N d * 2 ^ Z.to_N d)%N with (m mod 2 ^ Z.to_N d)%N; [reflexivity|].
  rewrite N.Div0.mod_eq. lia.
Qed.

Lemma nearest_even_bounds (m : BinNums.N) (d : Z) :
  (0 < d)%Z ->
  (m / 2 ^ Z.to_N d <= nearest_even m d <= N.succ (m / 2 ^ Z.to_N d))%N.
Proof.
  intros Hd. rewrite nearest_even_unfold by exact Hd. cbv zeta.
  destruct (_ || _); lia.
Qed.

Lemma nearest_even_multiple (m : BinNums.N) (d : Z) :
  (0 < d)%Z -> (m mod 2 ^ Z.to_N d = 0)%N -> nearest_even m d = (m / 2 ^ Z.to_N d)%N.
Proof.
  intros Hd Hr. rewrite nearest_even_unfold by exact Hd. cbv zeta. rewrite Hr.
  assert (H : (0 < 2 ^ (Z.to_N d - 1))%N) by (apply N.neq_0_lt_0, N.pow_nonzero; discriminate).
  destruct (N.ltb_spec (2 ^ (Z.to_N d - 1)) 0) as [H1|H1]; [lia|].
  destruct (N.eqb_spec 0 (2 ^ (Z.to_N d - 1))%N) as [H2|H2]; [lia|]. reflexivity.
Qed.

Lemma nearest_even_mono (m1 m2 : BinNums.N) (d : Z) :
  (0 < d)%Z -> (m1 <= m2)%N -> (nearest_even m1 d <= nearest_even m2 d)%N.
Proof.
  intros Hd Hm.
  pose proof (nearest_even_bounds m1 d Hd) as H1.
  pose proof (nearest_even_bounds m2 d Hd) as H2.
  assert (Hq : (m1 / 2 ^ Z.to_N d <= m2 / 2 ^ Z.to_N d)%N)
    by (apply N.Div0.div_le_mono; exact Hm).
  destruct (N.eq_dec (m1 / 2 ^ Z.to_N d)%N (m2 / 2 ^ Z.to_N d)%N) as [E|E]; [|lia].
  rewrite !nearest_even_unfold by exact Hd. cbv zeta. rewrite <- E.
  assert (Hr : (m1 mod 2 ^ Z.to_N d <= m2 mod 2 ^ Z.to_N d)%N).
  { rewrite !N.Div0.mod_eq, <- E. lia. }
  set (q := (m1 / 2 ^ Z.to_N d)%N) in *.
  set (r1 := (m1 mod 2 ^ Z.to_N d)%N) in *. set (r2 := (m2 mod 2 ^ Z.to_N d)%N) in *.
  set (h := (2 ^ (Z.to_N d - 1))%N) in *.
  destruct (N.ltb_spec h r1), (N.ltb_spec h r2), (N.eqb_spec r1 h), (N.eqb_spec r2 h),
    (N.odd q); simpl; lia.
Qed.

Lemma bits_nonneg (m : BinNums.N) : (0 <= bits m)%Z.
Proof. unfold bits. lia. Qed.

Lemma bits_lt (m : BinNums.N) : (Z.of_N m < 2 ^ bits m)%Z.
Proof.
  unfold bits. pose proof (N.size_gt m) as H.
  apply N2Z.inj_lt in H. rewrite N2Z.inj_pow in H. exact H.
Qed.

Lemma bits_ge (m : BinNums.N) : m <> 0%N -> (2 ^ (bits m - 1) <= Z.of_N m)%Z.
Proof.
  intros Hm. unfold bits. rewrite N.size_log2 by exact Hm.
  rewrite N2Z.inj_succ. replace (Z.succ (Z.of_N (N.log2 m)) - 1)%Z with (Z.of_N (N.log2 m)) by lia.
  pose proof (N.log2_spec m) as H. assert (Hp : (0 < m)%N) by lia. specialize (H Hp).
  destruct H as [H _]. apply N2Z.inj_le in H. rewrite N2Z.inj_pow in H. exact H.
Qed.

Lemma bits_le_iff (m : BinNums.N) (k : Z) :
  (0 <= k)%Z -> (bits m <= k)%Z <-> (Z.of_N m < 2 ^ k)%Z.
Proof.
  intros Hk. split.
  - intros H. pose proof (bits_lt m).
    assert (2 ^ bits m <= 2 ^ k)%Z by (apply Z.pow_le_mono_r; lia). lia.
  - intros H. destruct (N.eq_dec m 0%N) as [->|Hm]; [unfold bits; simpl; lia|].
    pose proof (bits_ge m Hm) as Hg.
    destruct (Z_lt_le_dec k (bits m)) as [Hlt|Hle]; [|exact Hle].
    assert (2 ^ k <= 2 ^ (bits m - 1))%Z by (apply Z.pow_le_mono_r; lia). lia.
Qed.

Lemma bits_mono (m1 m2 : BinNums.N) : (m1 <= m2)%N -> (bits m1 <= bits m2)%Z.
Proof.
  intros H. apply bits_le_iff; [apply bits_nonneg|].
  pose proof (bits_lt m2). lia.
Qed.

(** [2^k <= m * 2^d] exactly when [m] has more than [k - d] digits. *)
Lemma bits_scaled (m : BinNums.N) (d k : Z) :
  (0 <= d)%Z -> m <> 0%N ->
  (k < bits m + d)%Z <-> (2 ^ k <= Z.of_N m * 2 ^ d)%Z.
Proof.
  intros Hd Hm. pose proof (bits_nonneg m) as Hb.
  pose proof (bits_ge m Hm) as Hg. pose proof (bits_lt m) as Hl.
  assert (Hp : (0 < 2 ^ d)%Z) by (apply Z.pow_pos_nonneg; lia).
  split.
  - intros H. destruct (Z_lt_le_dec k 0) as [Hk|Hk].
    + rewrite Z.pow_neg_r by exact Hk. nia.
    + assert (H1 : (2 ^ k <= 2 ^ (bits m - 1 + d))%Z) by (apply Z.pow_le_mono_r; lia).
      destruct (Z.eq_dec (bits m) 0%Z) as [E|E].
      * rewrite E in Hl. simpl in Hl. lia.
      * rewrite Z.pow_add_r in H1 by lia. nia.
  - intros H. destruct (Z_lt_le_dec k (bits m + d)) as [Hlt|Hle]; [exact Hlt|exfalso].
    assert (H1 : (2 ^ (bits m + d) <= 2 ^ k)%Z) by (apply Z.pow_le_mono_r; lia).
    rewrite Z.pow_add_r in H1 by lia. nia.
Qed.

Lemma quotient_Z (m : BinNums.N) (d : Z) :
  (0 <= d)%Z -> Z.of_N (m / 2 ^ Z.to_N d) = (Z.of_N m / 2 ^ d)%Z.
Proof.
  intros Hd. rewrite N2Z.inj_div, N2Z.inj_pow, Z2N.id by exact Hd. reflexivity.
Qed.

Lemma quotient_bounds (m : BinNums.N) :
  (prec < bits m)%Z ->
  (2 ^ 52 <= Z.of_N m / 2 ^ (bits m - prec) < 2 ^ 53)%Z.
Proof.
  unfold prec. intros H. set (d := (bits m - 53)%Z).
  assert (Hm : m <> 0%N) by (intros ->; unfold bits in H; simpl in H; lia).
  pose proof (bits_ge m Hm) as Hg. pose proof (bits_lt m) as Hl.
  assert (Hp : (0 < 2 ^ d)%Z) by (apply Z.pow_pos_nonneg; lia).
  replace (bits m - 1)%Z with (d + 52)%Z in Hg by lia.
  replace (bits m) with (d + 53)%Z in Hl by lia.
  rewrite Z.pow_add_r in Hg, Hl by lia.
  split.
  - apply Z.div_le_lower_bound; [exact Hp | lia].
  - apply Z.div_lt_upper_bound; [exact Hp | lia].
Qed.

Lemma nearest_even_Z (m : BinNums.N) :
  (prec < bits m)%Z ->
  (2 ^ 52 <= Z.of_N (nearest_even m (bits m - prec)) <= 2 ^ 53)%Z.
Proof.
  intros H. pose proof (quotient_bounds m H) as Hq.
  assert (Hd : (0 < bits m - prec)%Z) by lia.
  pose proof (nearest_even_bounds m _ Hd) as Hb.
  rewrite <- quotient_Z in Hq by lia. lia.
Qed.

Lemma nearest_small (m : BinNums.N) : (bits m <= prec)%Z -> nearest m = Z.of_N m.
Proof.
  intros H. unfold nearest. cbv zeta.
  destruct (Z.ltb_spec 0 (bits m - prec)); [lia | reflexivity].
Qed.

Lemma nearest_large (m : BinNums.N) :
  (prec < bits m)%Z ->
  nearest m = (Z.of_N (nearest_even m (bits m - prec)) * 2 ^ (bits m - prec))%Z.
Proof.
  intros H. unfold nearest. cbv zeta.
  destruct (Z.ltb_spec 0 (bits m - prec)); [reflexivity | lia].
Qed.

Lemma nearest_between (m : BinNums.N) :
  (prec < bits m)%Z -> (2 ^ (bits m - 1) <= nearest m <= 2 ^ bits m)%Z.
Proof.
  intros H. rewrite nearest_large by exact H.
  pose proof (nearest_even_Z m H) as Hn. unfold prec in *.
  set (d := (bits m - 53)%Z) in *.
  assert (Hp : (0 < 2 ^ d)%Z) by (apply Z.pow_pos_nonneg; lia).
  replace (bits m - 1)%Z with (52 + d)%Z by lia.
  replace (2 ^ bits m)%Z with (2 ^ (53 + d))%Z by (f_equal; lia).
  rewrite !Z.pow_add_r by lia.
  split; apply Z.mul_le_mono_nonneg_r; lia.
Qed.

Lemma nearest_mono (m1 m2 : BinNums.N) : (m1 <= m2)%N -> (nearest m1 <= nearest m2)%Z.
Proof.
  intros H. pose proof (bits_mono m1 m2 H) as Hb.
  destruct (Z_le_gt_dec (bits m2) prec) as [H2|H2].
  - rewrite !nearest_small by lia. lia.
  - destruct (Z_le_gt_dec (bits m1) prec) as [H1|H1].
    + rewrite (nearest_small m1) by exact H1.
      pose proof (nearest_between m2 ltac:(lia)) as [Hlo _].
      pose proof (bits_lt m1) as Hl.
      assert (2 ^ bits m1 <= 2 ^ (bits m2 - 1))%Z
        by (apply Z.pow_le_mono_r; unfold prec in *; lia).
      lia.
    + destruct (Z.eq_dec (bits m1) (bits m2)) as [E|E].
      * rewrite !nearest_large by lia. rewrite E.
        assert (Hd : (0 < bits m2 - prec)%Z) by lia.
        pose proof (nearest_even_mono m1 m2 _ Hd H) as Hn.
        assert (Hp : (0 < 2 ^ (bits m2 - prec))%Z) by (apply Z.pow_pos_nonneg; lia).
        nia.
      * pose proof (nearest_between m1 ltac:(lia)) as [_ Hhi].
        pose proof (nearest_between m2 ltac:(lia)) as [Hlo _].
        assert (2 ^ bits m1 <= 2 ^ (bits m2 - 1))%Z
          by (apply Z.pow_le_mono_r; unfold prec in *; lia).
        lia.
Qed.

Lemma signed_with_sign (neg : bool) (m : BinNums.N) : signed neg m = with_sign neg (Z.of_N m).
Proof. reflexivity. Qed.

Lemma power_value (z d : Z) :
  (0 <= d)%Z -> (inject_Z z * 2 ^ d == inject_Z (z * 2 ^ d))%Q.
Proof.
  intros Hd. rewrite inject_Z_mult, Zpower_Qpower by exact Hd. reflexivity.
Qed.

Lemma with_sign_mul (neg : bool) (a b : Z) :
  (with_sign neg a * b)%Z = with_sign neg (a * b).
Proof. destruct neg; simpl; lia. Qed.

(** The float of an integer: the integer of 53 digits nearest to it, or
    an infinity from [2^1024] on. *)
Lemma round_integer_value (neg : bool) (m : BinNums.N) :
  same_number (float_value (round neg m 0))
    (if (2 ^ 1024 <=? nearest m)%Z then infinity neg
     else Rational (inject_Z (with_sign neg (nearest m)))).
Proof.
  unfold round. cbv zeta. pose proof (bits_lt m) as Hl. pose proof (bits_nonneg m) as Hb.
  destruct (Z_le_gt_dec (bits m) prec) as [H|H].
  - rewrite (nearest_small m H). unfold prec, emin, emax in *.
    destruct (Z.ltb_spec 0 (Z.max (bits m + 0 - 53) (-1074))) as [H1|H1]; [lia|].
    replace (Z.max 0 (Z.max (bits m + 0 - 53) (-1074))) with 0%Z by lia.
    destruct (Z.ltb_spec 1024 (bits m + 0)) as [H2|H2]; [lia|].
    assert (Z.of_N m < 2 ^ 1024)%Z.
    { assert (2 ^ bits m <= 2 ^ 1024)%Z by (apply Z.pow_le_mono_r; lia). lia. }
    destruct (Z.leb_spec (2 ^ 1024) (Z.of_N m)) as [H3|H3]; [lia|].
    pose proof (normal_value neg m 0) as Hn.
    destruct (float_value (normal neg m 0)); simpl in *; try contradiction.
    rewrite Hn, signed_with_sign. change (2 ^ 0)%Q with 1%Q. ring.
  - pose proof (nearest_even_Z m ltac:(lia)) as Hne.
    rewrite (nearest_large m) by lia. unfold prec, emin, emax in *.
    set (d := (bits m - 53)%Z) in *.
    replace (Z.max (bits m + 0 - 53) (-1074)) with d by lia.
    destruct (Z.ltb_spec 0 d) as [H1|H1]; [|lia].
    replace (d - 0)%Z with d by lia. replace (Z.max 0 d) with d by lia.
    set (m' := nearest_even m d) in *.
    assert (Hm' : m' <> 0%N) by (intros E; rewrite E in Hne; simpl in Hne; lia).
    pose proof (bits_scaled m' d 1024 ltac:(lia) Hm') as Ho.
    destruct (Z.ltb_spec 1024 (bits m' + d)) as [H2|H2];
      destruct (Z.leb_spec (2 ^ 1024) (Z.of_N m' * 2 ^ d)) as [H3|H3]; try lia.
    + destruct neg; exact Logic.I.
    + pose proof (normal_value neg m' d) as Hn.
      destruct (float_value (normal neg m' d)); simpl in *; try contradiction.
      rewrite Hn, signed_with_sign, power_value, with_sign_mul by lia. reflexivity.
Qed.

Lemma at_most_rational (p q : Q) : at_most (Rational p) (Rational q) <-> (p <= q)%Q.
Proof.
  unfold at_most. simpl. split; [apply Qnot_lt_le | apply Qle_not_lt].
Qed.

Lemma at_most_same (a a' b b' : extended) :
  same_number a a' -> same_number b b' -> at_most a b <-> at_most a' b'.
Proof.
  intros Ha Hb. unfold at_most. now rewrite (below_same b b' a a' Hb Ha).
Qed.

Lemma at_most_trans (a b c : extended) : at_most a b -> at_most b c -> at_most a c.
Proof.
  destruct a as [|p|], b as [|q|], c as [|r|]; unfold at_most; simpl; try tauto.
  intros H1 H2 H3. apply Qnot_lt_le in H1, H2.
  apply (Qlt_irrefl p). eapply Qle_lt_trans; [|exact H3]. eapply Qle_trans; eauto.
Qed.

Lemma below_iff_not_at_most (a b : extended) : below a b <-> ~ at_most b a.
Proof.
  unfold at_most. split; [tauto|]. intros H.
  destruct a as [|p|], b as [|q|]; simpl in *; try tauto.
  destruct (Qlt_le_dec p q) as [Hlt|Hle]; [exact Hlt|].
  exfalso. apply H. intros Hlt. apply (Qlt_irrefl p). eapply Qlt_le_trans; eauto.
Qed.

Lemma nearest_nonneg (m : BinNums.N) : (0 <= nearest m)%Z.
Proof.
  unfold nearest. cbv zeta. destruct (0 <? bits m - prec)%Z; [|lia].
  apply Z.mul_nonneg_nonneg; [lia | apply Z.pow_nonneg; lia].
Qed.

Lemma of_Z_value (z : Z) :
  same_number (float_value (of_Z z))
    (if (2 ^ 1024 <=? nearest (Z.abs_N z))%Z then infinity (z <? 0)%Z
     else Rational (inject_Z (with_sign (z <? 0)%Z (nearest (Z.abs_N z))))).
Proof. apply round_integer_value. Qed.

(** The float of an integer grows with the integer. *)
Lemma of_Z_mono (a b : Z) :
  (a <= b)%Z -> at_most (float_value (of_Z a)) (float_value (of_Z b)).
Proof.
  intros H. rewrite (at_most_same _ _ _ _ (of_Z_value a) (of_Z_value b)).
  pose proof (nearest_nonneg (Z.abs_N a)) as Ha.
  pose proof (nearest_nonneg (Z.abs_N b)) as Hb.
  destruct (Z.ltb_spec a 0) as [Sa|Sa], (Z.ltb_spec b 0) as [Sb|Sb]; try lia.
  - assert (Hn : (nearest (Z.abs_N b) <= nearest (Z.abs_N a))%Z) by (apply nearest_mono; lia).
    destruct (Z.leb_spec (2 ^ 1024) (nearest (Z.abs_N a))) as [Oa|Oa];
      destruct (Z.leb_spec (2 ^ 1024) (nearest (Z.abs_N b))) as [Ob|Ob];
      unfold at_most; simpl; try tauto; try lia.
    apply Qle_not_lt. rewrite <- Zle_Qle. lia.
  - destruct (Z.leb_spec (2 ^ 1024) (nearest (Z.abs_N a))) as [Oa|Oa];
      destruct (Z.leb_spec (2 ^ 1024) (nearest (Z.abs_N b))) as [Ob|Ob];
      unfold at_most; simpl; try tauto.
    apply Qle_not_lt. rewrite <- Zle_Qle. lia.
  - assert (Hn : (nearest (Z.abs_N a) <= nearest (Z.abs_N b))%Z) by (apply nearest_mono; lia).
    destruct (Z.leb_spec (2 ^ 1024) (nearest (Z.abs_N a))) as [Oa|Oa];
      destruct (Z.leb_spec (2 ^ 1024) (nearest (Z.abs_N b))) as [Ob|Ob];
      unfold at_most; simpl; try tauto; try lia.
    apply Qle_not_lt. rewrite <- Zle_Qle. lia.
Qed.

Lemma bits_shifted (m E : BinNums.N) : (bits (m * 2 ^ E) <= bits m + Z.of_N E)%Z.
Proof.
  pose proof (bits_nonneg m). apply bits_le_iff; [lia|].
  rewrite N2Z.inj_mul, N2Z.inj_pow, Z.pow_add_r by lia.
  pose proof (bits_lt m). 
  assert (0 < 2 ^ Z.of_N E)%Z by (apply Z.pow_pos_nonneg; lia).
  change (Z.of_N 2) with 2%Z. nia.
Qed.

Lemma nearest_fixed (m E : BinNums.N) :
  (bits m <= prec)%Z -> nearest (m * 2 ^ E) = Z.of_N (m * 2 ^ E).
Proof.
  intros Hm. pose proof (bits_shifted m E) as Hs.
  destruct (Z_le_gt_dec (bits (m * 2 ^ E)) prec) as [H|H]; [now apply nearest_small|].
  rewrite nearest_large by lia.
  set (d := (bits (m * 2 ^ E) - prec)%Z) in *.
  assert (Hd : (0 < d)%Z) by lia.
  assert (HE : E = (E - Z.to_N d + Z.to_N d)%N) by lia.
  assert (Hmul : (m * 2 ^ E = m * 2 ^ (E - Z.to_N d) * 2 ^ Z.to_N d)%N).
  { rewrite HE at 1. rewrite N.pow_add_r. lia. }
  assert (Hp : (2 ^ Z.to_N d <> 0)%N) by (apply N.pow_nonzero; discriminate).
  rewrite nearest_even_multiple; [|exact Hd|].
  - rewrite Hmul at 1. rewrite N.div_mul by exact Hp.
    rewrite Hmul. rewrite !N2Z.inj_mul, !N2Z.inj_pow. rewrite Z2N.id by lia. reflexivity.
  - rewrite Hmul. apply N.Div0.mod_mul.
Qed.

Lemma with_sign_abs (z : Z) : with_sign (z <? 0)%Z (Z.of_N (Z.abs_N z)) = z.
Proof.
  rewrite N2Z.inj_abs_N. unfold with_sign. destruct (Z.ltb_spec z 0); lia.
Qed.

(** A float that is a whole number is the float of that number. *)
Lemma of_Z_whole (s : bool) (m : BinNums.N) (e : Z) :
  binary64 (Fin s m e) = true -> (0 <= e)%Z ->
  same_number (float_value (of_Z (signed s m * 2 ^ e))) (float_value (Fin s m e))
  /\ same_number (float_value (Fin s m e)) (Rational (inject_Z (signed s m * 2 ^ e))).
Proof.
  intros Hb He. simpl in Hb. apply andb_true_iff in Hb as [Hb H3].
  apply andb_true_iff in Hb as [H1 H2].
  apply Z.leb_le in H1, H2, H3. unfold emax in H3.
  assert (Hval : same_number (float_value (Fin s m e))
                   (Rational (inject_Z (signed s m * 2 ^ e)))).
  { simpl. now rewrite power_value. }
  split; [|exact Hval].
  set (Y := (signed s m * 2 ^ e)%Z).
  assert (Hp : (0 < 2 ^ e)%Z) by (apply Z.pow_pos_nonneg; lia).
  assert (Habs : Z.abs_N Y = (m * 2 ^ Z.to_N e)%N).
  { apply N2Z.inj. rewrite N2Z.inj_abs_N, N2Z.inj_mul, N2Z.inj_pow, Z2N.id by lia.
    unfold Y. rewrite signed_with_sign. change (Z.of_N 2) with 2%Z.
    destruct s; simpl; nia. }
  pose proof (of_Z_value Y) as Hv. rewrite Habs, nearest_fixed in Hv by exact H1.
  rewrite <- Habs, with_sign_abs in Hv.
  assert (Hlt : (Z.of_N (Z.abs_N Y) < 2 ^ 1024)%Z).
  { rewrite Habs, N2Z.inj_mul, N2Z.inj_pow, Z2N.id by lia. change (Z.of_N 2) with 2%Z.
    pose proof (bits_lt m) as Hl. pose proof (bits_nonneg m) as Hn.
    assert (2 ^ (bits m + e) <= 2 ^ 1024)%Z by (apply Z.pow_le_mono_r; lia).
    rewrite Z.pow_add_r in * by lia. nia. }
  destruct (Z.leb_spec (2 ^ 1024) (Z.of_N (Z.abs_N Y))) as [Ho|Ho]; [lia|].
  destruct (float_value (of_Z Y)) as [|q|]; simpl in Hv |- *; try contradiction.
  rewrite Hv. unfold Y. now rewrite power_value.
Qed.

(** A float with digits after the point is within [2^53]. *)
Lemma fraction_bound (s : bool) (m : BinNums.N) (e : Z) :
  binary64 (Fin s m e) = true -> (e < 0)%Z ->
  (inject_Z (- 2 ^ 53) < inject_Z (signed s m) * 2 ^ e)%Q
  /\ (inject_Z (signed s m) * 2 ^ e < inject_Z (2 ^ 53))%Q.
Proof.
  intros Hb He. simpl in Hb. apply andb_true_iff in Hb as [Hb _].
  apply andb_true_iff in Hb as [H1 _]. apply Z.leb_le in H1.
  apply bits_le_iff in H1; [|unfold prec; lia]. unfold prec in H1.
  assert (Ht : (0 < 2 ^ e)%Q) by apply two_pos.
  assert (Ht1 : (2 ^ e <= 1)%Q).
  { change 1%Q with (2 ^ 0)%Q. apply Qpower_le_compat_l; [lia | discriminate]. }
  assert (Hz : (- 2 ^ 53 < signed s m < 2 ^ 53)%Z) by (destruct s; simpl; lia).
  destruct Hz as [Hz1 Hz2]. rewrite Zlt_Qlt in Hz1, Hz2.
  set (x := inject_Z (signed s m)) in *. set (t := (2 ^ e)%Q) in *.
  set (B := inject_Z (2 ^ 53)) in *. set (B' := inject_Z (- 2 ^ 53)) in *.
  assert (HB : (B' == - B)%Q) by (unfold B, B'; rewrite inject_Z_opp; reflexivity).
  split; nra.
Qed.

Lemma small_edge (a : Z) : (Z.abs a <= 2 ^ 53)%Z -> small a = true.
Proof. intros H. unfold small. now apply Z.leb_le. Qed.

(** A float and an integer compare as the float and the float of the
    integer do. *)
Lemma float_against_integer (y : float) (a : Z) :
  binary64 y = true ->
  (at_most (float_value y) (Rational (inject_Z a))
   -> at_most (float_value y) (float_value (of_Z a)))
  /\ (at_most (Rational (inject_Z a)) (float_value y)
      -> at_most (float_value (of_Z a)) (float_value y)).
Proof.
  intros Hb. destruct y as [s m e|[|]].
  - destruct (Z_le_gt_dec 0 e) as [He|He].
    + destruct (of_Z_whole s m e Hb He) as [Hfix Hval].
      set (Y := (signed s m * 2 ^ e)%Z) in *. split; intros H.
      * rewrite (at_most_same _ _ _ _ Hval (same_number_refl _)) in H.
        apply at_most_rational in H. rewrite <- Zle_Qle in H.
        rewrite <- (at_most_same _ _ _ _ Hfix (same_number_refl _)).
        now apply of_Z_mono.
      * rewrite (at_most_same _ _ _ _ (same_number_refl _) Hval) in H.
        apply at_most_rational in H. rewrite <- Zle_Qle in H.
        rewrite <- (at_most_same _ _ _ _ (same_number_refl _) Hfix).
        now apply of_Z_mono.
    + destruct (fraction_bound s m e Hb ltac:(lia)) as [Hlo Hhi].
      cbn [float_value]. set (q := (inject_Z (signed s m) * 2 ^ e)%Q) in *.
      destruct (Z_le_gt_dec (Z.abs a) (2 ^ 53)) as [Ha|Ha].
      * pose proof (of_Z_exact a (small_edge a Ha)) as Hex.
        split; intros H.
        -- now rewrite (at_most_same _ _ _ _ (same_number_refl _) Hex).
        -- now rewrite (at_most_same _ _ _ _ Hex (same_number_refl _)).
      * destruct (Z_le_gt_dec 0 a) as [Hs|Hs].
        -- assert (Hbig : (2 ^ 53 <= a)%Z) by lia.
           pose proof (of_Z_mono _ _ Hbig) as Hm.
           pose proof (of_Z_exact (2 ^ 53) eq_refl) as Hex.
           rewrite (at_most_same _ _ _ _ Hex (same_number_refl _)) in Hm.
           split; intros H.
           ++ eapply at_most_trans; [|exact Hm].
              apply at_most_rational. apply Qlt_le_weak. exact Hhi.
           ++ apply at_most_rational in H. exfalso.
              rewrite Zle_Qle in Hbig. lra.
        -- assert (Hbig : (a <= - 2 ^ 53)%Z) by lia.
           pose proof (of_Z_mono _ _ Hbig) as Hm.
           pose proof (of_Z_exact (- 2 ^ 53) eq_refl) as Hex.
           rewrite (at_most_same _ _ _ _ (same_number_refl _) Hex) in Hm.
           split; intros H.
           ++ apply at_most_rational in H. exfalso.
              rewrite Zle_Qle in Hbig. lra.
           ++ eapply at_most_trans; [exact Hm|].
              apply at_most_rational. apply Qlt_le_weak. exact Hlo.
  - split; intros H; unfold at_most in *;
      destruct (float_value (of_Z a)); simpl in *; tauto.
  - split; intros H; unfold at_most in *;
      destruct (float_value (of_Z a)); simpl in *; tauto.
Qed.

(** ** The floats of the format *)

Lemma strip_spec (p : positive) (e : Z) :
  (e <= snd (strip p e))%Z
  /\ Z.pos p = (Z.pos (fst (strip p e)) * 2 ^ (snd (strip p e) - e))%Z
  /\ Z.odd (Z.pos (fst (strip p e))) = true.
Proof.
  revert e. induction p as [p IH|p IH|]; intros e; cbn [strip fst snd].
  - rewrite Z.sub_diag. split; [lia|]. split; [simpl; lia | reflexivity].
  - destruct (IH (e + 1)%Z) as (H1 & H2 & H3). split; [lia|]. split; [|exact H3].
    replace (snd (strip p (e + 1)) - e)%Z with (snd (strip p (e + 1)) - (e + 1) + 1)%Z by lia.
    rewrite Z.pow_add_r by lia. change (Z.pos p~0) with (2 * Z.pos p)%Z. rewrite H2 at 1.
    change (2 ^ 1)%Z with 2%Z. ring.
  - rewrite Z.sub_diag. split; [lia|]. split; reflexivity.
Qed.

Lemma normal_binary64 (neg : bool) (m : BinNums.N) (e : Z) :
  (Z.of_N m <= 2 ^ 53)%Z -> (emin <= e)%Z -> (bits m + e <= emax)%Z ->
  binary64 (normal neg m e) = true.
Proof.
  intros Hm He Hb. destruct m as [|p]; [reflexivity|].
  unfold normal. destruct (strip_spec p e) as (H1 & H2 & H3).
  destruct (strip p e) as [p' e'] eqn:E. cbn [fst snd] in *. cbn [binary64].
  set (k := (e' - e)%Z) in *.
  assert (Hk : (0 < 2 ^ k)%Z) by (apply Z.pow_pos_nonneg; lia).
  change (Z.of_N (N.pos p)) with (Z.pos p) in Hm.
  assert (Hp' : (Z.pos p' < 2 ^ 53)%Z).
  { destruct (Z.eq_dec k 0%Z) as [K|K].
    - rewrite K in H2. simpl in H2. rewrite Z.mul_1_r in H2. injection H2 as ->.
      destruct (Z.eq_dec (Z.pos p') (2 ^ 53)%Z) as [E2|E2]; [|lia].
      rewrite E2 in H3. discriminate H3.
    - assert (2 ^ 1 <= 2 ^ k)%Z by (apply Z.pow_le_mono_r; lia).
      change (2 ^ 1)%Z with 2%Z in *. nia. }
  assert (B1 : (bits (N.pos p') <= prec)%Z) by (apply bits_le_iff; unfold prec; simpl; lia).
  assert (B2 : (bits (N.pos p') + e' <= emax)%Z).
  { pose proof (bits_lt (N.pos p)) as Hl. pose proof (bits_nonneg (N.pos p)) as Hn.
    assert (Hgt : (k < bits (N.pos p))%Z).
    { destruct (Z_lt_le_dec k (bits (N.pos p))) as [|Hle]; [assumption|exfalso].
      assert (2 ^ bits (N.pos p) <= 2 ^ k)%Z by (apply Z.pow_le_mono_r; lia).
      change (Z.of_N (N.pos p)) with (Z.pos p) in Hl. nia. }
    assert (bits (N.pos p') <= bits (N.pos p) - k)%Z; [|lia].
    apply bits_le_iff; [lia|]. change (Z.of_N (N.pos p')) with (Z.pos p').
    change (Z.of_N (N.pos p)) with (Z.pos p) in Hl.
    replace (bits (N.pos p)) with (bits (N.pos p) - k + k)%Z in Hl by lia.
    rewrite Z.pow_add_r in Hl by lia. nia. }
  apply andb_true_iff. split; [apply andb_true_iff; split|]; apply Z.leb_le; lia.
Qed.

(** Rounding gives a float of the format. *)
Lemma round_binary64 (neg : bool) (m : BinNums.N) (e : Z) : binary64 (round neg m e) = true.
Proof.
  unfold round. cbv zeta.
  set (q := Z.max (bits m + e - prec) emin).
  set (m' := if (e <? q)%Z then nearest_even m (q - e) else m).
  destruct (Z.ltb_spec emax (bits m' + Z.max e q)) as [Ho|Ho]; [reflexivity|].
  apply normal_binary64; [|unfold q; lia|exact Ho].
  pose proof (bits_lt m) as Hl. pose proof (bits_nonneg m) as Hn. unfold m'.
  destruct (Z.ltb_spec e q) as [Hq|Hq].
  - set (d := (q - e)%Z). assert (Hd : (0 < d)%Z) by (unfold d; lia).
    pose proof (nearest_even_bounds m d Hd) as Hb.
    pose proof (quotient_Z m d ltac:(lia)) as Hquo.
    assert (Hp : (0 < 2 ^ d)%Z) by (apply Z.pow_pos_nonneg; lia).
    assert (Z.of_N m / 2 ^ d < 2 ^ 53)%Z; [|lia].
    apply Z.div_lt_upper_bound; [exact Hp|].
    assert (2 ^ bits m <= 2 ^ (d + 53))%Z
      by (apply Z.pow_le_mono_r; unfold d, q, prec; lia).
    rewrite Z.pow_add_r in * by lia. lia.
  - assert (bits m <= 53)%Z by (unfold q, prec in Hq; lia).
    assert (2 ^ bits m <= 2 ^ 53)%Z by (apply Z.pow_le_mono_r; lia). lia.
Qed.

Lemma mul_binary64 (a b : float) : binary64 (mul a b) = true.
Proof. destruct a, b; simpl; try reflexivity. apply round_binary64. Qed.

Lemma div_binary64 (a b : float) : binary64 (div a b) = true.
Proof. destruct a, b; simpl; try reflexivity. apply round_binary64. Qed.

Lemma scale_binary64 (x y : float) (ex : Z) : scale x ex = Some y -> binary64 y = true.
Proof.
  unfold scale. intros H.
  repeat case_match; simplify_eq; auto using mul_binary64, div_binary64.
Qed.

Lemma to_double_binary64 (l : list ascii) (y : float) (b : bool) (z : Z) :
  to_double l = Some (y, b, z) -> binary64 y = true.
Proof.
  unfold to_double. intros H.
  repeat case_match; simplify_eq; eauto using scale_binary64.
Qed.

(** The floats [pd.to_numeric] reads are floats of the format. *)
Lemma parse_binary64 (t : string) (x : float) :
  parse t = PFloat x \/ parse t = PBig x -> binary64 x = true.
Proof.
  unfold parse. intros H.
  repeat case_match; destruct H as [H|H]; simplify_eq; eauto using to_double_binary64.
Qed.

Lemma binary64_readings (s : Series) (k : nat) (x : float) :
  binary64_cells s = true -> readings s !! k = Some (Some (F x)) -> binary64 x = true.
Proof.
  destruct s as [[l|l|l|l]|l]; simpl; intros Hs Hk.
  - apply list_lookup_fmap_Some in Hk as (z & Hz & _). discriminate.
  - rewrite forallb_forall in Hs.
    apply list_lookup_fmap_Some in Hk as ([x'|] & Hx & Hl); [|discriminate].
    injection Hx as <-. apply (Hs (Some x)), list_elem_of_In, list_elem_of_lookup. eauto.
  - apply list_lookup_fmap_Some in Hk as (b & Hb & _). discriminate.
  - apply list_lookup_fmap_Some in Hk as ([z|] & Hz & _); discriminate.
  - rewrite forallb_forall in Hs. apply list_lookup_fmap_Some in Hk as (v & Hv & Hl).
    assert (Hb : binary64_value v = true)
      by (apply Hs, list_elem_of_In, list_elem_of_lookup; eauto).
    destruct v as [|z|x'|t]; simpl in Hv, Hb; try discriminate.
    + now injection Hv as <-.
    + destruct (parse t) eqn:E; try discriminate; injection Hv as <-;
        eapply parse_binary64; eauto.
Qed.

Lemma formatted_readings (s : Series) (k : nat) (p : number) :
  binary64_cells s = true -> readings s !! k = Some (Some p) -> formatted p.
Proof.
  intros Hs Hk. destruct p as [z|x]; [exact Logic.I|].
  simpl. eapply binary64_readings; eauto.
Qed.

(** ** The comparison pandas makes *)

(** Rounding the integers to floats keeps the order of two numbers. *)
Lemma to_float_mono (p c : number) :
  formatted p -> formatted c ->
  at_most (value_of c) (value_of p) ->
  at_most (float_value (to_float c)) (float_value (to_float p)).
Proof.
  intros Hp Hc H. destruct p as [a|x], c as [b|y]; simpl in *.
  - apply at_most_rational in H. rewrite <- Zle_Qle in H. now apply of_Z_mono.
  - now apply (float_against_integer y a Hc).
  - now apply (float_against_integer x b Hp).
  - exact H.
Qed.

Lemma to_float_held (s : Series) (p : number) : to_float (held s p) = to_float p.
Proof. unfold held. destruct s; [reflexivity|]. now destruct (integers _). Qed.

Lemma lt_cell_float (x y : number) :
  lt_cell (Some x) (Some y) = true ->
  (exists a b, x = I a /\ y = I b /\ (a < b)%Z)
  \/ lt (to_float x) (to_float y) = true.
Proof.
  destruct x as [a|x], y as [b|y]; cbn [lt_cell]; intros H; try (right; exact H).
  left. exists a, b. apply Z.ltb_lt in H. auto.
Qed.

(** What pandas finds below is below. *)
Lemma lt_cell_sound (sp sc : Series) (p c : number) :
  formatted p -> formatted c ->
  lt_cell (Some (held sp p)) (Some (held sc c)) = true ->
  below (value_of p) (value_of c).
Proof.
  intros Hp Hc H. apply lt_cell_float in H as [(a & b & Ha & Hb & Hlt)|H].
  - assert (Ep : p = I a).
    { unfold held in Ha. destruct sp; [exact Ha|]. destruct (integers _); [exact Ha|discriminate]. }
    assert (Ec : c = I b).
    { unfold held in Hb. destruct sc; [exact Hb|]. destruct (integers _); [exact Hb|discriminate]. }
    subst. simpl. now rewrite <- Zlt_Qlt.
  - rewrite !to_float_held in H. apply lt_below in H.
    apply below_iff_not_at_most. intros Hn.
    apply (to_float_mono p c Hp Hc) in Hn. now apply Hn.
Qed.

(** C4, as amended.  On a frame whose labels occur once each and whose
    floats are binary64 numbers, with the numbers taken as the numbers
    they are: a row index is in [price_below_cost] only if both cells of
    the row read as a number and the price is below the cost; a row whose
    price is not below its cost is never there; and a row whose price is
    below its cost is there when pandas compares the two columns exactly,
    which it does when their integers do not exceed [2^53] in magnitude or
    both are columns of integers of the range of int64 throughout. *)
Theorem price_below_cost_rows
  (df : DataFrame) (passed : bool) (iss : Issues) (price cost : Series) :
  validate_data df = inr (passed, iss) ->
  NoDup (columns df) -> NoDup (index df) ->
  getitem "Price" df = Some price -> getitem "Unit Cost" df = Some cost ->
  binary64_cells price = true -> binary64_cells cost = true ->
  (forall row,
     row ∈ price_below_cost iss ->
     exists p c,
       cell_at df (readings price) row (Some p)
       /\ cell_at df (readings cost) row (Some c)
       /\ below (value_of p) (value_of c))
  /\ (forall row p c,
        cell_at df (readings price) row (Some p) ->
        cell_at df (readings cost) row (Some c) ->
        ~ below (value_of p) (value_of c) ->
        row ∉ price_below_cost iss)
  /\ (comparable price cost = true ->
      forall row p c,
        cell_at df (readings price) row (Some p) ->
        cell_at df (readings cost) row (Some c) ->
        below (value_of p) (value_of c) ->
        row ∈ price_below_cost iss).
Proof.
  intros Hv _ Hnd Hp Hc Fp Fc.
  destruct (price_below_cost_cells df passed iss price cost Hv Hp Hc Hnd) as [Hiff _].
  unfold coerced in Hiff. rewrite Hp, Hc in Hiff.
  assert (Hsound : forall row,
     row ∈ price_below_cost iss ->
     exists p c,
       cell_at df (readings price) row (Some p)
       /\ cell_at df (readings cost) row (Some c)
       /\ below (value_of p) (value_of c)).
  { intros row Hin. apply Hiff in Hin as (x & y & (k & Hk & Hx) & Hy & Hlt).
    pose proof (cell_at_unique df _ row k _ Hnd Hk Hy) as Hy'.
    apply coerced_cell in Hx as (p & Hpk & ->).
    apply coerced_cell in Hy' as (c & Hck & ->).
    exists p, c. split; [exists k; auto|]. split; [exists k; auto|].
    apply (lt_cell_sound price cost); [| |exact Hlt].
    - exact (formatted_readings price k p Fp Hpk).
    - exact (formatted_readings cost k c Fc Hck). }
  split; [exact Hsound|]. split.
  - intros row p c Hpc Hcc Hn Hin.
    apply Hsound in Hin as (p' & c' & Hp' & Hc' & Hlt).
    destruct Hpc as (k & Hk & Hpk).
    pose proof (cell_at_unique df _ row k _ Hnd Hk Hp') as E1.
    pose proof (cell_at_unique df _ row k _ Hnd Hk Hc') as E2.
    pose proof (cell_at_unique df _ row k _ Hnd Hk Hcc) as E3.
    assert (p' = p) by congruence. assert (c' = c) by congruence. subst. contradiction.
  - intros Hcmp row p c (k & Hk & Hpk) Hcell Hlt.
    pose proof (cell_at_unique df _ row k _ Hnd Hk Hcell) as Hck.
    apply Hiff. exists (held price p), (held cost c).
    split; [exists k; split; [exact Hk | apply coerced_cell; eauto]|].
    split; [exists k; split; [exact Hk | apply coerced_cell; eauto]|].
    now apply (lt_cell_readings price cost k).
Qed.

(** * The model on the sample files *)

Import Float64 Samples.

(** C1, as stated, fails: [newline_file] has the raw header
    [J.D. Power\nTrade In]; the run through [process_inventory] completes
    and its report has an empty [column_name_issues], because the labels
    are cleaned before they are validated.  The validator alone, given the
    raw frame, does report the header. *)
Theorem newline_header_not_reported :
  trade_in_raw ∈ columns newline_frame
  /\ contains_char newline trade_in_raw = true
  /\ column_name_issues (report newline_frame) = [trade_in_raw]
  /\ success (processed_results newline_file) = true
  /\ (column_name_issues <$> validation_issues (processed_results newline_file)) = Some [].
Proof.
  split; [vm_compute; apply list_elem_of_further, list_elem_of_here|].
  repeat split; reflexivity.
Qed.

(** C2: a year that is a number but not a whole one makes
    [convert_data_types] raise, whether the column was read as floats or as
    text, and the exception leaves [process_inventory]: the run is
    aborted.  The validator had only flagged the rows. *)
Theorem fractional_year_aborts_run :
  convert_data_types fraction_frame
  = inl (TypeError "cannot safely cast non-equivalent object to int64")
  /\ convert_data_types fraction_text_frame
     = inl (TypeError "cannot safely cast non-equivalent object to int64")
  /\ process_inventory fraction_file
     = inl (TypeError "cannot safely cast non-equivalent object to int64")
  /\ data_type_issues (report fraction_text_frame) = [mkTypeIssue "Year" "int" [1]].
Proof. repeat split; reflexivity. Qed.

(** C3: under its normalized header the J.D. Power column is not checked.
    The cell [abc] of row 0 is text that does not parse as a number, yet
    the report has no [data_type_issues] entry and validation passes, both
    for the header the pipeline produces and for the one the specification
    spells; under the raw header the same cell is reported. *)
Theorem normalized_jd_power_not_checked :
  getitem "J.D. Power Trade In" normalized_frame = Some (Object [VStr "abc"; VStr "100"])
  /\ str_to_num "abc" = Unparsable
  /\ validate_data normalized_frame = inr (true, no_issues)
  /\ validate_data normalized_frame_plain = inr (true, no_issues)
  /\ data_type_issues (report newline_frame) = [mkTypeIssue trade_in_raw "numeric" [0]]
  /\ clean_column_names newline_frame = normalized_frame.
Proof. repeat split; reflexivity. Qed.

Lemma validate_data_passed_iff_empty_witness :
  validate_data (clean_column_names clean_frame) = inr (true, clean_report)
  /\ (true = true
      <-> missing_values clean_report = [] /\ data_type_issues clean_report = []
          /\ price_below_cost clean_report = [] /\ column_name_issues clean_report = []
          /\ special_character_issues clean_report = []).
Proof.
  split; [reflexivity|].
  apply (validate_data_passed_iff_empty (clean_column_names clean_frame) true clean_report).
  reflexivity.
Defined.

Lemma records_with_issues_is_union_size_witness :
  process_inventory issues_file = inr (Some issues_processed, issues_results)
  /\ success issues_results = true
  /\ records_with_issues issues_results = 3%nat
  /\ exists iss,
       validation_issues issues_results = Some iss
       /\ records_with_issues issues_results = size (affected_rows iss)
       /\ forall names,
            size (rows_with_issues (with_column_names names iss))
            = records_with_issues issues_results.
Proof.
  split; [reflexivity|]. split; [reflexivity|]. split; [reflexivity|].
  apply (records_with_issues_is_union_size issues_file (Some issues_processed) issues_results);
    [reflexivity | reflexivity].
Defined.

Lemma skip_flagged_partition_witness :
  flags issues_prepared = Some [true; true; false; true]
  /\ length [true; true; false; true] = len issues_prepared
  /\ NoDup (index issues_prepared)
  /\ skip_records_with_issues default_config = true
  /\ (clean_partition issues_prepared default_config
      = inr (clean_rows issues_prepared [true; true; false; true])
      /\ index (clean_rows issues_prepared [true; true; false; true])
         ++ index (flagged_partition issues_prepared [true; true; false; true])
         ≡ₚ index issues_prepared
      /\ (forall row,
            row ∈ index (clean_rows issues_prepared [true; true; false; true]) ->
            row ∉ index (flagged_partition issues_prepared [true; true; false; true]))
      /\ flags (flagged_partition issues_prepared [true; true; false; true])
         = Some (replicate (len (flagged_partition issues_prepared [true; true; false; true])) true)
      /\ flags (clean_rows issues_prepared [true; true; false; true])
         = Some (replicate (len (clean_rows issues_prepared [true; true; false; true])) false)
      /\ (len issues_prepared - len (clean_rows issues_prepared [true; true; false; true]))%nat
         = len (flagged_partition issues_prepared [true; true; false; true])
      /\ records_uploaded (upload_inventory issues_prepared default_config)
         = len (clean_rows issues_prepared [true; true; false; true])).
Proof.
  assert (Hnd : NoDup (index issues_prepared)) by apply (NoDup_seq 0 4).
  split; [reflexivity|]. split; [reflexivity|]. split; [exact Hnd|].
  split; [reflexivity|].
  apply (skip_flagged_partition issues_prepared [true; true; false; true] default_config);
    [reflexivity | reflexivity | exact Hnd | reflexivity].
Defined.

Lemma empty_dataset_fails_fast_witness :
  read empty_file = inr empty_frame
  /\ df_empty empty_frame = true
  /\ exists msg,
       msg <> EmptyString
       /\ process_inventory empty_file = inr (None, failed msg)
       /\ prepare_for_upload empty_file = inr (None, failed msg)
       /\ handle_upload_process empty_file None = inr (Prepared (failed msg))
       /\ success (failed msg) = false
       /\ error_message (failed msg) = Some msg
       /\ validation_issues (failed msg) = None.
Proof.
  split; [reflexivity|]. split; [reflexivity|].
  apply (empty_dataset_fails_fast empty_file empty_frame None); reflexivity.
Defined.

(** C10, as stated, fails: [own_flag_file] passes validation, yet its own
    boolean [has_issues] column makes the default upload skip the first of
    its two records. *)
Lemma own_has_issues_column_is_filtered :
  ~ (forall (f : File) (df : DataFrame) (r : Results) (upload_config : gmap string bool),
       prepare_for_upload f = inr (Some df, r) ->
       validation_passed r = true ->
       records_uploaded (upload_inventory df upload_config) = records_processed r).
Proof.
  intros H.
  specialize (H own_flag_file (prepared own_flag_file) (prepared_results own_flag_file)
                default_config).
  assert (Hrun : prepare_for_upload own_flag_file
                 = inr (Some (prepared own_flag_file), prepared_results own_flag_file))
    by reflexivity.
  specialize (H Hrun eq_refl).
  vm_compute in H. discriminate H.
Qed.

(** ** The properties of the single steps on the sample files *)

Import Cases.

Lemma process_inventory_outcome_witness :
  process_inventory issues_file = inr (Some issues_processed, issues_results)
  /\ ((success issues_results = true
       /\ (exists df, Some issues_processed = Some df)
       /\ error_message issues_results = None
       /\ exists iss, validation_issues issues_results = Some iss
            /\ validation_passed issues_results = all_empty iss)
      \/ (success issues_results = false /\ Some issues_processed = None
          /\ truthy (error_message issues_results) = true
          /\ validation_passed issues_results = false
          /\ validation_issues issues_results = None
          /\ records_processed issues_results = 0%nat
          /\ records_with_issues issues_results = 0%nat)).
Proof.
  split; [reflexivity|].
  apply (process_inventory_outcome issues_file (Some issues_processed) issues_results).
  reflexivity.
Defined.

Lemma validate_data_rows_sublist_witness :
  validate_data issues_frame = inr (false, issues_report)
  /\ [0; 3]%nat ∈ row_lists issues_report
  /\ [0; 3]%nat `sublist_of` index issues_frame.
Proof.
  assert (Hin : [0; 3]%nat ∈ row_lists issues_report)
    by apply list_elem_of_further, list_elem_of_further, list_elem_of_here.
  split; [reflexivity|]. split; [exact Hin|].
  apply (validate_data_rows_sublist issues_frame false issues_report [0; 3]%nat);
    [reflexivity | exact Hin].
Defined.

Lemma records_with_issues_le_processed_witness :
  process_inventory issues_file = inr (Some issues_processed, issues_results)
  /\ (records_with_issues issues_results <= records_processed issues_results)%nat.
Proof.
  split; [reflexivity|].
  apply (records_with_issues_le_processed issues_file (Some issues_processed) issues_results).
  reflexivity.
Defined.

Lemma report_only_names_present_columns_witness :
  validate_data issues_frame = inr (false, issues_report)
  /\ ((forall e, e ∈ missing_values issues_report ->
         me_field e ∈ required_fields /\ is_Some (getitem (me_field e) issues_frame))
      /\ (forall e, e ∈ data_type_issues issues_report ->
            (te_field e, te_expected_type e) ∈ expected_types
            /\ is_Some (getitem (te_field e) issues_frame))
      /\ (price_below_cost issues_report <> [] ->
            is_Some (getitem "Price" issues_frame)
            /\ is_Some (getitem "Unit Cost" issues_frame))
      /\ (forall e, e ∈ special_character_issues issues_report ->
            se_field e = "Class" /\ is_Some (getitem "Class" issues_frame))).
Proof.
  split; [reflexivity|].
  apply (report_only_names_present_columns issues_frame false issues_report).
  reflexivity.
Defined.

Lemma missing_values_lists_null_cells_witness :
  validate_data issues_frame = inr (false, issues_report)
  /\ ((exists e, e ∈ missing_values issues_report /\ me_field e = "VIN" /\ 1%nat ∈ me_rows e)
      <-> "VIN" ∈ required_fields
          /\ exists s k, getitem "VIN" issues_frame = Some s
               /\ index issues_frame !! k = Some 1%nat /\ isnull s !! k = Some true).
Proof.
  split; [reflexivity|].
  apply (missing_values_lists_null_cells issues_frame false issues_report "VIN" 1%nat).
  reflexivity.
Defined.

Lemma missing_values_counts_rows_witness :
  validate_data issues_frame = inr (false, issues_report)
  /\ well_formed issues_frame
  /\ NoDup (map me_field (missing_values issues_report))
  /\ forall e, e ∈ missing_values issues_report ->
       me_count e = length (me_rows e) /\ (0 < me_count e)%nat.
Proof.
  assert (Hwf : well_formed issues_frame) by (repeat constructor).
  split; [reflexivity|]. split; [exact Hwf|].
  apply (missing_values_counts_rows issues_frame false issues_report);
    [reflexivity | exact Hwf].
Defined.

Lemma integer_type_issue_rows_witness :
  validate_data issues_frame = inr (false, issues_report)
  /\ "Year" ∈ integer_columns
  /\ ((exists e, e ∈ data_type_issues issues_report /\ te_field e = "Year" /\ 1%nat ∈ te_rows e)
      <-> exists s k t, getitem "Year" issues_frame = Some s
            /\ index issues_frame !! k = Some 1%nat /\ isnull s !! k = Some false
            /\ astype_str s !! k = Some t /\ match_int_regex t = false).
Proof.
  assert (Hin : "Year" ∈ integer_columns) by apply list_elem_of_here.
  split; [reflexivity|]. split; [exact Hin|].
  apply (integer_type_issue_rows issues_frame false issues_report "Year" 1%nat);
    [reflexivity | exact Hin].
Defined.

Lemma numeric_type_issue_rows_witness :
  validate_data blank_frame = inr (false, blank_report)
  /\ ("Price", "numeric") ∈ expected_types
  /\ te_rows <$> data_type_issues blank_report = [[1; 2]%nat]
  /\ ((exists e, e ∈ data_type_issues blank_report /\ te_field e = "Price" /\ 2%nat ∈ te_rows e)
      <-> exists l k t, getitem "Price" blank_frame = Some (Object l)
            /\ (exists t', VStr t' ∈ l /\ rejected t')
            /\ index blank_frame !! k = Some 2%nat /\ l !! k = Some (VStr t)
            /\ (str_to_num t = Unparsable \/ str_to_num t = PNaN)).
Proof.
  assert (Hin : ("Price", "numeric") ∈ expected_types)
    by apply list_elem_of_further, list_elem_of_further, list_elem_of_here.
  split; [reflexivity|]. split; [exact Hin|]. split; [reflexivity|].
  apply (numeric_type_issue_rows blank_frame false blank_report "Price" 2%nat);
    [reflexivity | exact Hin].
Defined.

Lemma integer_column_has_no_type_issue_witness :
  validate_data (clean_column_names clean_frame) = inr (true, clean_report)
  /\ "Year" ∈ integer_columns
  /\ getitem "Year" (clean_column_names clean_frame) = Some (Num (NInt64 [2020; 2021]%Z))
  /\ ((exists l, Num (NInt64 [2020; 2021]%Z) = Num (NInt64 l))
      \/ (exists l, Num (NInt64 [2020; 2021]%Z) = Num (NNullableInt64 l)))
  /\ forall e, e ∈ data_type_issues clean_report -> te_field e <> "Year".
Proof.
  assert (Hin : "Year" ∈ integer_columns) by apply list_elem_of_here.
  assert (Hint : (exists l, Num (NInt64 [2020; 2021]%Z) = Num (NInt64 l))
                 \/ (exists l, Num (NInt64 [2020; 2021]%Z) = Num (NNullableInt64 l)))
    by (left; exists [2020; 2021]%Z; reflexivity).
  split; [reflexivity|]. split; [exact Hin|]. split; [reflexivity|].
  split; [exact Hint|].
  apply (integer_column_has_no_type_issue (clean_column_names clean_frame) true
           clean_report "Year" (Num (NInt64 [2020; 2021]%Z)));
    [reflexivity | exact Hin | reflexivity | exact Hint].
Defined.

Lemma special_character_rows_witness :
  validate_data issues_frame = inr (false, issues_report)
  /\ ((exists e, e ∈ special_character_issues issues_report /\ 1%nat ∈ se_rows e)
      <-> exists l k t, getitem "Class" issues_frame = Some (Object l)
            /\ index issues_frame !! k = Some 1%nat /\ l !! k = Some (VStr t)
            /\ search_special_char t = true).
Proof.
  split; [reflexivity|].
  apply (special_character_rows issues_frame false issues_report 1%nat).
  reflexivity.
Defined.

Lemma convert_data_types_columns_witness :
  convert_data_types text_frame = inr text_converted
  /\ same_shape text_frame text_converted
  /\ (forall col, col ∉ map fst expected_types ->
        getitem col text_converted = getitem col text_frame)
  /\ (forall col s, (col, "numeric") ∈ expected_types -> getitem col text_frame = Some s ->
        getitem col text_converted = Some (Num (to_numeric_coerce s)))
  /\ (forall col s, col ∈ integer_columns -> getitem col text_frame = Some s ->
        exists l, astype_Int64 (to_numeric_coerce s) = inr (NNullableInt64 l)
          /\ getitem col text_converted = Some (Num (NNullableInt64 l))).
Proof.
  split; [reflexivity|].
  apply (convert_data_types_columns text_frame text_converted).
  reflexivity.
Defined.

Lemma numeric_conversion_cells_witness :
  convert_data_types text_frame = inr text_converted
  /\ ("Price", "numeric") ∈ expected_types
  /\ getitem "Price" text_frame = Some (Object price_cells)
  /\ price_cells !! 2%nat = Some (VStr "nan")
  /\ exists n c, getitem "Price" text_converted = Some (Num n) /\ cells n !! 2%nat = Some c
       /\ to_float <$> c = to_float <$> coerce_value (VStr "nan")
       /\ (c = None
           <-> VStr "nan" = VNull
               \/ exists t, VStr "nan" = VStr t
                    /\ (str_to_num t = Unparsable \/ str_to_num t = PNaN)).
Proof.
  assert (Hin : ("Price", "numeric") ∈ expected_types)
    by apply list_elem_of_further, list_elem_of_further, list_elem_of_here.
  split; [reflexivity|]. split; [exact Hin|]. split; [reflexivity|].
  split; [reflexivity|].
  apply (numeric_conversion_cells text_frame text_converted "Price" price_cells 2%nat
           (VStr "nan"));
    [reflexivity | exact Hin | reflexivity | reflexivity].
Defined.

Lemma integer_conversion_cells_witness :
  convert_data_types text_frame = inr text_converted
  /\ "Year" ∈ integer_columns
  /\ getitem "Year" text_frame = Some (Object year_cells)
  /\ cells (to_numeric_coerce (Object year_cells)) !! 1%nat = Some None
  /\ exists l, getitem "Year" text_converted = Some (Num (NNullableInt64 l))
       /\ length l = length (cells (to_numeric_coerce (Object year_cells)))
       /\ l !! 1%nat = Some (whole None)
            /\ (@None number = None <-> whole None = None).
Proof.
  assert (Hin : "Year" ∈ integer_columns) by apply list_elem_of_here.
  split; [reflexivity|]. split; [exact Hin|]. split; [reflexivity|].
  split; [reflexivity|].
  apply (integer_conversion_cells text_frame text_converted "Year" (Object year_cells)
           1%nat None);
    [reflexivity | exact Hin | reflexivity | reflexivity].
Defined.

Lemma fix_missing_values_columns_witness :
  fix_missing_values repair_frame = inr repair_fixed
  /\ same_shape repair_frame repair_fixed
  /\ (forall col, col ∉ repaired_columns ->
        getitem col repair_fixed = getitem col repair_frame)
  /\ getitem "Price" repair_fixed = getitem "Price" repair_frame
  /\ (forall s, getitem "Drivetrain Type" repair_frame = Some s ->
        exists s', getitem "Drivetrain Type" repair_fixed = Some s'
          /\ any (isnull s') = false
          /\ forall k v, object_cells s !! k = Some v ->
               object_cells s' !! k = Some (filled v)).
Proof.
  split; [reflexivity|].
  apply (fix_missing_values_columns repair_frame repair_fixed).
  reflexivity.
Defined.


Lemma fix_missing_values_completes_witness :
  (forall col s, col ∈ repaired_columns -> getitem col repair_frame = Some s ->
     ~ is_nullable_int s)
  /\ exists df', fix_missing_values repair_frame = inr df'.
Proof.
  assert (H : forall col s, col ∈ repaired_columns -> getitem col repair_frame = Some s ->
                ~ is_nullable_int s).
  { intros col s Hin Hget [l Hl]. subst s.
    apply list_elem_of_In in Hin.
    destruct Hin as [<- | [<- | [<- | []]]]; discriminate Hget. }
  split; [exact H|].
  apply (fix_missing_values_completes repair_frame). exact H.
Defined.

Lemma failed_validation_upload_count_witness :
  read issues_file = inr issues_frame
  /\ NoDup (index issues_frame)
  /\ prepare_for_upload issues_file = inr (Some issues_prepared, issues_results)
  /\ validation_passed issues_results = false
  /\ exists iss,
       validation_issues issues_results = Some iss
       /\ index issues_prepared = index issues_frame
       /\ flags issues_prepared
          = Some (map (fun row => bool_decide (row ∈ affected_rows iss)) (index issues_frame))
       /\ upload_inventory issues_prepared default_config
          = mkUpload true
              (if skip_records_with_issues default_config
               then records_processed issues_results - records_with_issues issues_results
               else records_processed issues_results)%nat
              0 None.
Proof.
  assert (Hnd : NoDup (index issues_frame)) by apply (NoDup_seq 0 4).
  split; [reflexivity|]. split; [exact Hnd|]. split; [reflexivity|].
  split; [reflexivity|].
  apply (failed_validation_upload_count issues_file issues_frame issues_prepared
           issues_results default_config);
    [reflexivity | exact Hnd | reflexivity | reflexivity].
Defined.

Lemma getitem_clean_column_names_witness :
  NoDup (columns (clean_column_names clean_frame))
  /\ trade_in_raw ∈ columns clean_frame
  /\ getitem (clean_name trade_in_raw) (clean_column_names clean_frame)
     = getitem trade_in_raw clean_frame
  /\ is_Some (getitem trade_in_raw clean_frame).
Proof.
  assert (Hnd : NoDup (columns (clean_column_names clean_frame)))
    by (apply (bool_decide_unpack _); reflexivity).
  assert (Hin : trade_in_raw ∈ columns clean_frame)
    by (apply list_elem_of_In; do 9 right; left; reflexivity).
  split; [exact Hnd|]. split; [exact Hin|].
  apply (getitem_clean_column_names clean_frame trade_in_raw);
    [exact Hnd | exact Hin].
Defined.

Lemma prepare_for_upload_well_formed_witness :
  read issues_file = inr issues_frame
  /\ well_formed issues_frame
  /\ prepare_for_upload issues_file = inr (Some issues_prepared, issues_results)
  /\ well_formed issues_prepared
  /\ index issues_prepared = index issues_frame
  /\ records_processed issues_results = len issues_frame.
Proof.
  assert (Hwf : well_formed issues_frame) by (repeat constructor).
  split; [reflexivity|]. split; [exact Hwf|]. split; [reflexivity|].
  apply (prepare_for_upload_well_formed issues_file issues_frame issues_prepared
           issues_results);
    [reflexivity | exact Hwf | reflexivity].
Defined.

Lemma process_inventory_exceptions_witness :
  read fraction_file = inr fraction_frame
  /\ plain (clean_column_names fraction_frame) = true
  /\ process_inventory fraction_file = inl fraction_error
  /\ df_empty fraction_frame = false /\ supported (ext fraction_file) = true
  /\ ((fraction_error = accessor_error
       /\ validate_data (clean_column_names fraction_frame) = inl fraction_error)
      \/ (cast_failure fraction_error
          /\ convert_data_types (clean_column_names fraction_frame) = inl fraction_error)
      \/ (fill_failure fraction_error
          /\ exists col s, col ∈ repaired_columns
               /\ getitem col (clean_column_names fraction_frame) = Some s
               /\ is_nullable_int s)).
Proof.
  split; [reflexivity|]. split; [reflexivity|]. split; [reflexivity|].
  apply (process_inventory_exceptions fraction_file fraction_frame fraction_error);
    reflexivity.
Defined.

Lemma handle_upload_process_outcome_witness :
  handle_upload_process issues_file None
  = inr (Combined issues_results (mkUpload true 1 0 None))
  /\ ((exists r, Combined issues_results (mkUpload true 1 0 None) = Prepared r
         /\ combined_success (Combined issues_results (mkUpload true 1 0 None)) = false
         /\ truthy (combined_error_message
                      (Combined issues_results (mkUpload true 1 0 None))) = true
         /\ records_processed r = 0%nat)
      \/ (exists r u, Combined issues_results (mkUpload true 1 0 None) = Combined r u
            /\ success r = true /\ error_message r = None
            /\ (records_uploaded u + records_failed u <= records_processed r)%nat
            /\ (combined_success (Combined issues_results (mkUpload true 1 0 None)) = true
                <-> combined_error_message
                      (Combined issues_results (mkUpload true 1 0 None)) = None)
            /\ (combined_success (Combined issues_results (mkUpload true 1 0 None)) = false ->
                records_uploaded u = 0%nat /\ records_failed u = records_processed r))).
Proof.
  split; [reflexivity|].
  apply (handle_upload_process_outcome issues_file None
           (Combined issues_results (mkUpload true 1 0 None))).
  reflexivity.
Defined.

Lemma validate_data_raises_iff_witness :
  plain class_frame = true
  /\ validate_data class_frame = inl accessor_error
  /\ (validate_data class_frame = inl accessor_error
      <-> accessor_error = accessor_error
          /\ exists s, getitem "Class" class_frame = Some s
               /\ match s with
                  | Num _ => True
                  | Object l => (forall t, VStr t ∉ l) /\ exists v, v ∈ l /\ v <> VNull
                  end).
Proof.
  split; [reflexivity|]. split; [reflexivity|].
  apply (validate_data_raises_iff class_frame accessor_error). reflexivity.
Defined.

Lemma convert_data_types_raises_iff_witness :
  NoDup (columns fraction_frame)
  /\ convert_data_types fraction_frame = inl fraction_error
  /\ ((exists err, convert_data_types fraction_frame = inl err)
      <-> exists col s, col ∈ integer_columns /\ getitem col fraction_frame = Some s
            /\ uncastable (to_numeric_coerce s))
  /\ forall err, convert_data_types fraction_frame = inl err -> cast_failure err.
Proof.
  assert (Hnd : NoDup (columns fraction_frame))
    by (apply (bool_decide_unpack _); vm_compute; exact Logic.I).
  split; [exact Hnd|]. split; [reflexivity|].
  apply (convert_data_types_raises_iff fraction_frame). exact Hnd.
Defined.

Lemma passed_run_uploads_every_record_witness :
  read clean_file = inr clean_frame
  /\ prepare_for_upload clean_file = inr (Some clean_prepared, clean_results)
  /\ validation_passed clean_results = true
  /\ upload_inventory clean_prepared default_config = mkUpload true 2 0 None
  /\ (columns clean_prepared = columns (clean_column_names clean_frame)
      /\ index clean_prepared = index clean_frame
      /\ getitem "has_issues" clean_prepared = getitem "has_issues" clean_frame)
  /\ (forall upload_config,
        skip_records_with_issues upload_config = false
        \/ getitem "has_issues" clean_frame = None
        \/ getitem "has_issues" clean_frame
           = Some (Num (NBool (replicate (len clean_frame) false))) ->
        upload_inventory clean_prepared upload_config
        = mkUpload true (records_processed clean_results) 0 None)
  /\ (well_formed clean_frame -> forall upload_config,
        records_uploaded (upload_inventory clean_prepared upload_config)
        = records_processed clean_results ->
        skip_records_with_issues upload_config = false
        \/ getitem "has_issues" clean_frame = None
        \/ getitem "has_issues" clean_frame
           = Some (Num (NBool (replicate (len clean_frame) false)))).
Proof.
  split; [reflexivity|]. split; [reflexivity|]. split; [reflexivity|].
  split; [reflexivity|].
  apply (passed_run_uploads_every_record clean_file clean_frame clean_prepared clean_results);
    reflexivity.
Defined.

(** C4, as stated, fails: the price of [rounding_frame] is the float
    [2^53], its cost the integer [2^53 + 1].  Both cells are numbers and
    the price is below the cost, yet the row is not in [price_below_cost]:
    pandas compares the two as floats, and the float of the cost is
    [2^53]. *)
Lemma rounded_cost_not_flagged :
  ~ (forall (df : DataFrame) (passed : bool) (iss : Issues) (price cost : Series)
            (row : nat) (p c : number),
       validate_data df = inr (passed, iss) ->
       NoDup (columns df) -> NoDup (index df) ->
       getitem "Price" df = Some price -> getitem "Unit Cost" df = Some cost ->
       binary64_cells price = true -> binary64_cells cost = true ->
       cell_at df (readings price) row (Some p) ->
       cell_at df (readings cost) row (Some c) ->
       below (value_of p) (value_of c) ->
       row ∈ price_below_cost iss).
Proof.
  intros H.
  specialize (H rounding_frame true no_issues rounding_price rounding_cost 0%nat
                (F (of_Z 9007199254740992)) (I 9007199254740993)).
  assert (Hin : 0%nat ∈ price_below_cost no_issues).
  { apply H.
    - reflexivity.
    - apply (bool_decide_unpack _). vm_compute. exact Logic.I.
    - apply (NoDup_seq 0 1).
    - reflexivity.
    - reflexivity.
    - reflexivity.
    - reflexivity.
    - exists 0%nat. split; reflexivity.
    - exists 0%nat. split; reflexivity.
    - vm_compute. reflexivity. }
  inversion Hin.
Qed.

Lemma price_below_cost_rows_witness :
  validate_data mixed_frame = inr (false, mixed_report)
  /\ price_below_cost mixed_report = [0%nat]
  /\ NoDup (columns mixed_frame) /\ NoDup (index mixed_frame)
  /\ getitem "Price" mixed_frame = Some mixed_price
  /\ getitem "Unit Cost" mixed_frame = Some mixed_cost
  /\ binary64_cells mixed_price = true /\ binary64_cells mixed_cost = true
  /\ comparable mixed_price mixed_cost = true
  /\ (forall row,
        row ∈ price_below_cost mixed_report ->
        exists p c,
          cell_at mixed_frame (readings mixed_price) row (Some p)
          /\ cell_at mixed_frame (readings mixed_cost) row (Some c)
          /\ below (value_of p) (value_of c))
  /\ (forall row p c,
        cell_at mixed_frame (readings mixed_price) row (Some p) ->
        cell_at mixed_frame (readings mixed_cost) row (Some c) ->
        ~ below (value_of p) (value_of c) ->
        row ∉ price_below_cost mixed_report)
  /\ (comparable mixed_price mixed_cost = true ->
      forall row p c,
        cell_at mixed_frame (readings mixed_price) row (Some p) ->
        cell_at mixed_frame (readings mixed_cost) row (Some c) ->
        below (value_of p) (value_of c) ->
        row ∈ price_below_cost mixed_report).
Proof.
  assert (Hcols : NoDup (columns mixed_frame))
    by (apply (bool_decide_unpack _); vm_compute; exact Logic.I).
  assert (Hidx : NoDup (index mixed_frame)) by apply (NoDup_seq 0 4).
  split; [reflexivity|]. split; [reflexivity|].
  split; [exact Hcols|]. split; [exact Hidx|].
  split; [reflexivity|]. split; [reflexivity|].
  split; [reflexivity|]. split; [reflexivity|]. split; [reflexivity|].
  apply (price_below_cost_rows mixed_frame false mixed_report mixed_price mixed_cost);
    [reflexivity | exact Hcols | exact Hidx | reflexivity | reflexivity
     | reflexivity | reflexivity].
Defined.

Lemma column_names_reported_as_validated_witness :
  validate_data newline_frame = inr (false, report newline_frame)
  /\ column_name_issues (report newline_frame) = [trade_in_raw]
  /\ (column_name_issues (report newline_frame)
      = List.filter (contains_char newline) (columns newline_frame)
      /\ forall col, col ∈ column_name_issues (report newline_frame)
           <-> col ∈ columns newline_frame /\ contains_char newline col = true)
  /\ process_inventory newline_file
     = inr (Some (processed newline_file), processed_results newline_file)
  /\ success (processed_results newline_file) = true
  /\ exists raw iss, read newline_file = inr raw
       /\ validation_issues (processed_results newline_file) = Some iss
       /\ validate_data (clean_column_names raw)
          = inr (validation_passed (processed_results newline_file), iss)
       /\ column_name_issues iss = [].
Proof.
  destruct column_names_reported_as_validated as [Hvalidated Hrun].
  split; [reflexivity|]. split; [reflexivity|].
  split; [apply (Hvalidated newline_frame false (report newline_frame)); reflexivity|].
  split; [reflexivity|]. split; [reflexivity|].
  apply (Hrun newline_file (Some (processed newline_file)) (processed_results newline_file));
    reflexivity.
Defined.
